(** * Music Tab Finder: the browser script

    A shallow embedding of the front-end script that drives the
    transcription page: [src/frontend/app.js] and its later revision
    [src/unnamed/part_002], which adds the sheet library, hash navigation
    and share links.  Both revisions share [startTranscribe],
    [displayResult], [showDemoResult] and [saveToLocalHistory].

    Conventions of the embedding.
    - A JavaScript string is represented by the bytes of its UTF-8
      encoding (a Rocq [string]); only well-formed strings are
      representable, lone surrogates are not.
    - A JavaScript number is represented by an integer ([Z]): the
      numbers of the value model are the doubles that are integers, and
      fractions are outside it.  Every integer of magnitude at most 2^53
      is such a double and is printed with all its digits; a larger
      double is printed with the fewest digits that identify it.  What
      [parseInt] returns is a [Number]: NaN, an infinity, or the double
      nearest to the integer it reads.  A JSON text is read when its
      numbers are integers of magnitude at most 2^53, written without
      fraction and exponent.
    - The page is a finite map from element handles to elements; looking
      up a missing element yields [null], and using it throws a
      [TypeError], as in the browser.  The elements of the map are those
      of the static page; the markup written into a list container adds
      none to it, and its text is what the browser reads off that markup.
    - An [async] function is run to completion: each [await] is a
      sequencing point, the answers of the environment (the outcome of
      [fetch], the clock) are inputs, and timers are only logged. *)

From Stdlib Require Import ZArith String Ascii List Lia.
From Stdlib Require Import DecimalString DecimalPos DecimalN DecimalZ.
From stdpp Require Import gmap strings list fin_maps.

Local Open Scope string_scope.

(** ** Values *)

#[warnings="-register-all"]
Inductive JsVal :=
| VUndef
| VNull
| VBool (b : bool)
| VNum (n : Z)
| VStr (s : string)
| VArr (elems : list JsVal)
| VObj (props : list (string * JsVal))
| VFun (name : string).

Inductive Exn := Error (name message : string).

Definition message (e : Exn) : string := let 'Error _ m := e in m.

Inductive Res (A : Type) :=
| Ok (a : A)
| Throw (e : Exn).
Arguments Ok {A} a.
Arguments Throw {A} e.

(** The decimal digits of [n], behind a minus sign when it is negative. *)
Definition string_of_Z (n : Z) : string := NilZero.string_of_int (Z.to_int n).

(** What [parseInt] returns: NaN, an infinity, or an integer that a
    double holds. *)
Inductive Number :=
| NaN
| Infinite (negative : bool)
| Finite (n : Z).

(** The double nearest to the integer [n], ties to even: [n] itself when
    its magnitude is below 2^53, else [n] rounded to 53 significant bits,
    and an infinity when the rounding reaches 2^1024. *)
Definition round_double (n : Z) : Number :=
  let a := Z.abs n in
  if (a <? 2 ^ 53)%Z then Finite n
  else
    let e := (Z.log2 a - 52)%Z in
    let q := Z.shiftr a e in
    let r := (a - Z.shiftl q e)%Z in
    let half := Z.shiftl 1 (e - 1) in
    let q' := if (half <? r)%Z || ((r =? half)%Z && Z.odd q) then (q + 1)%Z else q in
    let m := Z.shiftl q' e in
    if (2 ^ 1024 <=? m)%Z then Infinite (n <? 0)%Z
    else Finite (Z.sgn n * m)%Z.

(** An integer that a double holds and that is printed with all its
    digits: its magnitude is at most 2^53. *)
Definition exact_integer (n : Z) : bool := (Z.abs n <=? 2 ^ 53)%Z.

(** The decimal that [Number::toString] prints for the double [x], a
    positive integer: among the multiples of the greatest power of ten
    that has a multiple of which [x] is the nearest double, the one
    nearest to [x], and of two as near the even one.  The search starts
    at the power [10 ^ m]. *)
Fixpoint shortest_decimal (m : nat) (x : Z) : Z :=
  let p := (10 ^ Z.of_nat m)%Z in
  let lo := (x / p * p)%Z in
  let hi := (lo + p)%Z in
  let reads c := match round_double c with Finite y => (y =? x)%Z | _ => false end in
  match reads lo, reads hi with
  | true, true =>
      if (x - lo <? hi - x)%Z then lo
      else if (hi - x <? x - lo)%Z then hi
      else if Z.even (lo / p) then lo else hi
  | true, false => lo
  | false, true => hi
  | false, false => match m with O => x | S m' => shortest_decimal m' x end
  end.

Fixpoint strip_trailing_zeros (ds : string) : string :=
  match ds with
  | "" => ""
  | String c r =>
      let r' := strip_trailing_zeros r in
      if String.eqb r' "" && Ascii.eqb c "0" then "" else String c r'
  end.

(** The exponent notation of a decimal of more than 21 digits. *)
Definition exponent_text (c : Z) : string :=
  let ds := string_of_Z c in
  let e := string_of_Z (Z.of_nat (String.length ds) - 1) in
  match strip_trailing_zeros ds with
  | "" => ""
  | String d "" => String d "" +:+ "e+" +:+ e
  | String d r => String d "" +:+ "." +:+ r +:+ "e+" +:+ e
  end.

(** [Number::toString] of an integer: the text of [String(n)], of [n] in
    a template literal and of [n] in [JSON.stringify]. *)
Definition number_text (n : Z) : string :=
  if exact_integer n then string_of_Z n
  else
    let a := Z.abs n in
    let c := shortest_decimal (String.length (string_of_Z a)) a in
    (if (n <? 0)%Z then "-" else "")
    +:+ (if (c <? 10 ^ 21)%Z then string_of_Z c else exponent_text c).

Fixpoint join (sep : string) (l : list string) : string :=
  match l with
  | [] => ""
  | [x] => x
  | x :: rest => x +:+ sep +:+ join sep rest
  end.

(** The text of [String(v)] when the conversion succeeds. *)
Fixpoint ToString (v : JsVal) : string :=
  match v with
  | VUndef => "undefined"
  | VNull => "null"
  | VBool true => "true"
  | VBool false => "false"
  | VNum n => number_text n
  | VStr s => s
  | VArr l =>
      join "," (map (fun x => match x with
                              | VUndef | VNull => ""
                              | _ => ToString x
                              end) l)
  | VObj _ => "[object Object]"
  | VFun name => "function " +:+ name +:+ "() { [native code] }"
  end.

(** [ToBoolean]. *)
Definition truthy (v : JsVal) : bool :=
  match v with
  | VUndef | VNull => false
  | VBool b => b
  | VNum n => negb (n =? 0)%Z
  | VStr s => negb (String.eqb s "")
  | VArr _ | VObj _ | VFun _ => true
  end.

(** [a || b]. *)
Definition js_or (a b : JsVal) : JsVal := if truthy a then a else b.

Fixpoint assoc (k : string) (ps : list (string * JsVal)) : option JsVal :=
  match ps with
  | [] => None
  | (k', v) :: rest => if String.eqb k k' then Some v else assoc k rest
  end.

Definition TypeError_primitive : Exn :=
  Error "TypeError" "Cannot convert object to primitive value".

(** [String(v)], also the conversion applied by a template literal, a
    computed property name and a DOM string attribute.  The values are
    those of JSON texts and object literals, where an own [toString]
    property of an object is never a function: such an object cannot be
    converted. *)
Fixpoint ToString_checked (v : JsVal) : Res string :=
  match v with
  | VObj ps =>
      match assoc "toString" ps with
      | Some _ => Throw TypeError_primitive
      | None => Ok "[object Object]"
      end
  | VArr l =>
      match (fix texts (l : list JsVal) : Res (list string) :=
               match l with
               | [] => Ok []
               | x :: rest =>
                   match (match x with
                          | VUndef | VNull => Ok ""
                          | _ => ToString_checked x
                          end) with
                   | Ok s =>
                       match texts rest with
                       | Ok ss => Ok (s :: ss)
                       | Throw e => Throw e
                       end
                   | Throw e => Throw e
                   end
               end) l with
      | Ok ss => Ok (join "," ss)
      | Throw e => Throw e
      end
  | _ => Ok (ToString v)
  end.

(** The conversion of [v] to a string succeeds. *)
Definition converts (v : JsVal) : bool :=
  match ToString_checked v with
  | Ok _ => true
  | Throw _ => false
  end.

(** Function-valued properties every object inherits from
    [Object.prototype]. *)
Definition object_prototype_methods : list string :=
  [ "constructor"; "hasOwnProperty"; "isPrototypeOf"; "propertyIsEnumerable";
    "toLocaleString"; "toString"; "valueOf";
    "__defineGetter__"; "__defineSetter__"; "__lookupGetter__"; "__lookupSetter__" ].

Definition proto_lookup (k : string) : JsVal :=
  if String.eqb k "__proto__" then VObj []
  else if bool_decide (k ∈ object_prototype_methods) then
    VFun (if String.eqb k "constructor" then "Object" else k)
  else VUndef.

Definition TypeError_nullish (base prop : string) : Exn :=
  Error "TypeError"
    ("Cannot read properties of " +:+ base +:+ " (reading '" +:+ prop +:+ "')").

(** [v.k] and [v[k]].  Own properties of an object first, then
    [Object.prototype]; the other built-in prototypes are not modelled
    (the script reads none of their properties). *)
Definition get_prop (v : JsVal) (k : string) : Res JsVal :=
  match v with
  | VUndef => Throw (TypeError_nullish "undefined" k)
  | VNull => Throw (TypeError_nullish "null" k)
  | VObj ps => Ok (match assoc k ps with Some x => x | None => proto_lookup k end)
  | _ => Ok (proto_lookup k)
  end.

Definition nullish (v : JsVal) : bool :=
  match v with VUndef | VNull => true | _ => false end.

(** [v.k] for a value that is neither [null] nor [undefined]. *)
Definition field (v : JsVal) (k : string) : JsVal :=
  match get_prop v k with Ok x => x | Throw _ => VUndef end.

(** ** The page and the script's state *)

Record Element := mkElement {
  textContent : string;
  classList : list string;
  value : string;
  disabled : bool;
  attrs : gmap string string
}.

Inductive Callback :=
| ToastFadeOut   (* toast.classList.remove('show'), then hide after 300 ms *)
| ResolveDelay.

Inductive Effect :=
| EFetch (url method : string) (headers : list (string * string)) (body : option string)
| ESetTimeout (ms : Z) (cb : Callback)
| EFocus (id : string)
| EScrollIntoView (id : string)
| EPushState (url : string).

(** The two revisions of the script. *)
Inductive Build :=
| AppJs     (* src/frontend/app.js *)
| Part002.  (* src/unnamed/part_002 *)

Record Location := mkLocation {
  origin : string;
  hostname : string;
  pathname : string;
  href : string;
  hash : string
}.

Record World := mkWorld {
  build : Build;
  location : Location;
  document : gmap string Element;
  heap : gmap nat JsVal;
  currentType : string;
  currentResult : option nat;
  allSheets : list nat;
  localStorage : gmap string string;
  log : list Effect
}.

Definition set_document (f : gmap string Element → gmap string Element) (w : World) : World :=
  mkWorld (build w) (location w) (f (document w)) (heap w) (currentType w)
          (currentResult w) (allSheets w) (localStorage w) (log w).

Definition set_heap (f : gmap nat JsVal → gmap nat JsVal) (w : World) : World :=
  mkWorld (build w) (location w) (document w) (f (heap w)) (currentType w)
          (currentResult w) (allSheets w) (localStorage w) (log w).

Definition set_currentType (t : string) (w : World) : World :=
  mkWorld (build w) (location w) (document w) (heap w) t
          (currentResult w) (allSheets w) (localStorage w) (log w).

Definition set_currentResult (r : option nat) (w : World) : World :=
  mkWorld (build w) (location w) (document w) (heap w) (currentType w)
          r (allSheets w) (localStorage w) (log w).

Definition set_localStorage (f : gmap string string → gmap string string) (w : World) : World :=
  mkWorld (build w) (location w) (document w) (heap w) (currentType w)
          (currentResult w) (allSheets w) (f (localStorage w)) (log w).

Definition add_effect (e : Effect) (w : World) : World :=
  mkWorld (build w) (location w) (document w) (heap w) (currentType w)
          (currentResult w) (allSheets w) (localStorage w) (log w ++ [e]).

(** ** The script monad: state and exceptions *)

Definition M (A : Type) : Type := World → Res A * World.

#[global] Instance M_ret : MRet M := λ A a w, (Ok a, w).

#[global] Instance M_bind : MBind M := λ A B f m w,
  match m w with
  | (Ok a, w') => f a w'
  | (Throw e, w') => (Throw e, w')
  end.

Definition throw {A} (e : Exn) : M A := λ w, (Throw e, w).

Definition lift {A} (r : Res A) : M A := λ w, (r, w).

Definition gets {A} (f : World → A) : M A := λ w, (Ok (f w), w).

Definition modify (f : World → World) : M unit := λ w, (Ok tt, f w).

(** [try { body } catch (error) { handler } finally { fin }]. *)
Definition try_catch_finally {A} (body : M A) (handler : Exn → M A) (fin : M unit) : M A :=
  λ w,
    let '(r, w1) :=
      match body w with
      | (Ok a, w') => (Ok a, w')
      | (Throw e, w') => handler e w'
      end in
    match fin w1 with
    | (Ok _, w2) => (r, w2)
    | (Throw e, w2) => (Throw e, w2)
    end.

(** [try { body } catch { handler }]. *)
Definition try_catch {A} (body : M A) (handler : Exn → M A) : M A :=
  λ w,
    match body w with
    | (Ok a, w') => (Ok a, w')
    | (Throw e, w') => handler e w'
    end.

(** [list.forEach((x, idx) => f x idx)]. *)
Fixpoint forEach_from {A} (idx : Z) (l : list A) (f : A → Z → M unit) : M unit :=
  match l with
  | [] => mret tt
  | x :: rest => f x idx ;; forEach_from (idx + 1)%Z rest f
  end.

Definition forEach {A} (l : list A) (f : A → Z → M unit) : M unit :=
  forEach_from 0%Z l f.

(** ** DOM primitives *)

Definition set_textContent_el (s : string) (e : Element) : Element :=
  mkElement s (classList e) (value e) (disabled e) (attrs e).

Definition set_classList_el (f : list string → list string) (e : Element) : Element :=
  mkElement (textContent e) (f (classList e)) (value e) (disabled e) (attrs e).

Definition set_disabled_el (b : bool) (e : Element) : Element :=
  mkElement (textContent e) (classList e) (value e) b (attrs e).

Definition set_attr_el (k v : string) (e : Element) : Element :=
  mkElement (textContent e) (classList e) (value e) (disabled e) (<[k := v]> (attrs e)).

(** [DOMTokenList.add] and [DOMTokenList.remove]. *)
Definition token_add (c : string) (l : list string) : list string :=
  if bool_decide (c ∈ l) then l else l ++ [c].

Definition token_remove (c : string) (l : list string) : list string :=
  filter (λ x, x ≠ c) l.

(** [x.p] where [x] is the element with handle [id], or [null]. *)
Definition read_el {A} (id prop : string) (f : Element → A) : M A := λ w,
  match document w !! id with
  | Some e => (Ok (f e), w)
  | None => (Throw (TypeError_nullish "null" prop), w)
  end.

(** A write through element [id]: [x.p = ...] or [x.p.m(...)]. *)
Definition update_el (id prop : string) (f : Element → Element) : M unit := λ w,
  match document w !! id with
  | Some _ => (Ok tt, set_document (alter f id) w)
  | None => (Throw (TypeError_nullish "null" prop), w)
  end.

(** [textContent] is a nullable DOMString: [null] and [undefined] are
    stored as the empty string, any other value is converted to a string,
    which may throw. *)
Definition DOMString_checked (v : JsVal) : Res string :=
  match v with
  | VUndef | VNull => Ok ""
  | _ => ToString_checked v
  end.

(** The text stored when the conversion succeeds. *)
Definition DOMString_nullable (v : JsVal) : string :=
  match v with
  | VUndef | VNull => ""
  | _ => ToString v
  end.

(** [x.textContent = v]: the element is looked up, then the value is
    converted, then the text is stored. *)
Definition set_textContent (id : string) (v : JsVal) : M unit :=
  read_el id "textContent" (λ _, tt) ;;
  text ← lift (DOMString_checked v);
  update_el id "textContent" (set_textContent_el text).

Definition classList_add (id c : string) : M unit :=
  update_el id "classList" (set_classList_el (token_add c)).

Definition classList_remove (id c : string) : M unit :=
  update_el id "classList" (set_classList_el (token_remove c)).

Definition set_disabled (id : string) (b : bool) : M unit :=
  update_el id "disabled" (set_disabled_el b).

Definition set_attr (id prop k v : string) : M unit :=
  update_el id prop (set_attr_el k v).

Definition get_value (id : string) : M string := read_el id "value" value.

Definition focus (id : string) : M unit :=
  read_el id "focus" (λ _, tt) ;; modify (add_effect (EFocus id)).

Definition scrollIntoView (id : string) : M unit :=
  read_el id "scrollIntoView" (λ _, tt) ;; modify (add_effect (EScrollIntoView id)).

Definition setTimeout (cb : Callback) (ms : Z) : M unit :=
  modify (add_effect (ESetTimeout ms cb)).

(** The object a reference points to; a reference the heap does not hold
    reads as [undefined]. *)
Definition deref (l : nat) : M JsVal := gets (λ w, default VUndef (heap w !! l)).

(** [data.k] for a reference [data]. *)
Definition prop (data : nat) (k : string) : M JsVal :=
  v ← deref data; lift (get_prop v k).

(** A new object (object literal, or the value a response body parses to). *)
Definition alloc (v : JsVal) : M nat := λ w,
  let l := fresh (dom (heap w)) in (Ok l, set_heap (<[l := v]>) w).

(** ** Strings *)

Definition code (c : ascii) : N := N_of_ascii c.

Definition dquote : ascii := "034"%char.

(** The white space and line terminator code points of ECMAScript
    ([String.prototype.trim], [parseInt]), by their UTF-8 encodings. *)
Definition is_ws1 (c : ascii) : bool :=
  bool_decide (code c ∈ [9; 10; 11; 12; 13; 32]%N).

Definition is_ws2 (c1 c2 : ascii) : bool :=
  bool_decide (code c1 = 194 ∧ code c2 = 160)%N.            (* U+00A0 *)

Definition is_ws3 (c1 c2 c3 : ascii) : bool :=
  bool_decide
    (code c1 = 225 ∧ code c2 = 154 ∧ code c3 = 128             (* U+1680 *)
     ∨ code c1 = 226 ∧ code c2 = 128 ∧ (128 ≤ code c3 ≤ 138)   (* U+2000..U+200A *)
     ∨ code c1 = 226 ∧ code c2 = 128 ∧ code c3 = 168           (* U+2028 *)
     ∨ code c1 = 226 ∧ code c2 = 128 ∧ code c3 = 169           (* U+2029 *)
     ∨ code c1 = 226 ∧ code c2 = 128 ∧ code c3 = 175           (* U+202F *)
     ∨ code c1 = 226 ∧ code c2 = 129 ∧ code c3 = 159           (* U+205F *)
     ∨ code c1 = 227 ∧ code c2 = 128 ∧ code c3 = 128           (* U+3000 *)
     ∨ code c1 = 239 ∧ code c2 = 187 ∧ code c3 = 191)%N.       (* U+FEFF *)

(** [s] is exactly one white space character. *)
Definition is_ws_char (s : string) : bool :=
  match s with
  | String c1 "" => is_ws1 c1
  | String c1 (String c2 "") => is_ws2 c1 c2
  | String c1 (String c2 (String c3 "")) => is_ws3 c1 c2 c3
  | _ => false
  end.

Fixpoint trimStart (s : string) : string :=
  match s with
  | "" => ""
  | String c1 r1 =>
      if is_ws1 c1 then trimStart r1
      else match r1 with
           | String c2 r2 =>
               if is_ws2 c1 c2 then trimStart r2
               else match r2 with
                    | String c3 r3 => if is_ws3 c1 c2 c3 then trimStart r3 else s
                    | "" => s
                    end
           | "" => s
           end
  end.

Fixpoint trimEnd (s : string) : string :=
  match s with
  | "" => ""
  | String c r => let t := String c (trimEnd r) in if is_ws_char t then "" else t
  end.

(** [s.trim()]. *)
Definition trim (s : string) : string := trimEnd (trimStart s).

(** [s] without its prefix [p], when it has it. *)
Fixpoint strip_prefix (p s : string) : option string :=
  match p, s with
  | "", _ => Some s
  | String a p', String b s' => if Ascii.eqb a b then strip_prefix p' s' else None
  | String _ _, "" => None
  end.

(** [s.includes(needle)]. *)
Fixpoint includes (needle s : string) : bool :=
  String.prefix needle s
  || match s with
     | "" => false
     | String _ r => includes needle r
     end.

(** The value of [c] as a digit in the given radix. *)
Definition digit_val (radix : N) (c : ascii) : option N :=
  let n := code c in
  let d := if bool_decide (48 ≤ n ≤ 57)%N then Some (n - 48)%N
           else if bool_decide (97 ≤ n ≤ 122)%N then Some (n - 87)%N
           else if bool_decide (65 ≤ n ≤ 90)%N then Some (n - 55)%N
           else None in
  match d with
  | Some v => if bool_decide (v < radix)%N then Some v else None
  | None => None
  end.

Fixpoint digits_prefix (radix : N) (s : string) : list N :=
  match s with
  | "" => []
  | String c r =>
      match digit_val radix c with
      | Some d => d :: digits_prefix radix r
      | None => []
      end
  end.

Definition digits_value (radix : N) (ds : list N) : Z :=
  fold_left (λ acc d, acc * Z.of_N radix + Z.of_N d)%Z ds 0%Z.

(** The integer [parseInt(s)] reads, with no radix argument: the sign
    and the digits that follow the leading white space; [None] when there
    is no digit to read. *)
Definition parse_integer (s : string) : option Z :=
  let s0 := trimStart s in
  let '(sign, s1) :=
    match s0 with
    | String "-" r => ((-1)%Z, r)
    | String "+" r => (1%Z, r)
    | _ => (1%Z, s0)
    end in
  let '(radix, s2) :=
    match s1 with
    | String "0" (String "x" r) => (16%N, r)
    | String "0" (String "X" r) => (16%N, r)
    | _ => (10%N, s1)
    end in
  match digits_prefix radix s2 with
  | [] => None
  | ds => Some (sign * digits_value radix ds)%Z
  end.

(** [parseInt(s)] with no radix argument. *)
Definition parseInt (s : string) : Number :=
  match parse_integer s with
  | Some n => round_double n
  | None => NaN
  end.

(** [n || d] for a number [n]: NaN and zero are falsy. *)
Definition num_or (n : Number) (d : Z) : Number :=
  match n with
  | NaN | Finite 0 => Finite d
  | _ => n
  end.

(** A number as a property value that [JSON.stringify] serialises: an
    infinity is written [null]. *)
Definition json_number (n : Number) : JsVal :=
  match n with
  | Finite v => VNum v
  | NaN | Infinite _ => VNull
  end.

Definition hex_digit (upper : bool) (n : N) : ascii :=
  if bool_decide (n < 10)%N then ascii_of_N (48 + n)
  else ascii_of_N ((if upper then 55 else 87) + n).

Definition hex2 (upper : bool) (c : ascii) : string :=
  String (hex_digit upper (code c / 16)) (String (hex_digit upper (code c mod 16)) "").

Definition hex_val (c : ascii) : option N := digit_val 16 c.

(** The number of UTF-16 code units of a string ([s.length]). *)
Fixpoint js_length (s : string) : nat :=
  match s with
  | "" => 0
  | String c r =>
      (if bool_decide (code c < 128 ∨ 192 ≤ code c < 240)%N then 1
       else if bool_decide (240 ≤ code c)%N then 2 else 0) + js_length r
  end.

(** [s.substring(0, n)], by UTF-16 code units.  A character outside the
    Basic Multilingual Plane that straddles the cut is dropped whole (the
    script would keep half of it, which is not a representable string). *)
Fixpoint js_substring0 (n : nat) (s : string) : string :=
  match s with
  | "" => ""
  | String c r =>
      if bool_decide (128 ≤ code c < 192)%N then String c (js_substring0 n r)
      else
        let u := if bool_decide (240 ≤ code c)%N then 2 else 1 in
        if bool_decide (u ≤ n)%nat then String c (js_substring0 (n - u) r) else ""
  end.

(** ** URI components *)

Definition uri_unreserved (c : ascii) : bool :=
  let n := code c in
  bool_decide ((65 ≤ n ≤ 90) ∨ (97 ≤ n ≤ 122) ∨ (48 ≤ n ≤ 57))%N
  || bool_decide (n ∈ [45; 95; 46; 33; 126; 42; 39; 40; 41]%N).   (* - _ . ! ~ * ' ( ) *)

(** [encodeURIComponent(s)]: every byte of the UTF-8 encoding outside the
    unreserved set becomes [%XX]. *)
Fixpoint encodeURIComponent (s : string) : string :=
  match s with
  | "" => ""
  | String c r =>
      if uri_unreserved c then String c (encodeURIComponent r)
      else String "%" (hex2 true c +:+ encodeURIComponent r)
  end.

Fixpoint percent_decode (s : string) : option string :=
  match s with
  | "" => Some ""
  | String c r =>
      if Ascii.eqb c "%" then
        match r with
        | String h1 (String h2 r') =>
            match hex_val h1, hex_val h2 with
            | Some a, Some b => String (ascii_of_N (16 * a + b)) <$> percent_decode r'
            | _, _ => None
            end
        | _ => None
        end
      else String c <$> percent_decode r
  end.

Definition is_cont (c : ascii) : bool := bool_decide (128 ≤ code c ≤ 191)%N.

(** Well-formed UTF-8 (Unicode, table 3-7). *)
Fixpoint utf8_valid (s : string) : bool :=
  match s with
  | "" => true
  | String c0 r0 =>
      let b := code c0 in
      if bool_decide (b < 128)%N then utf8_valid r0
      else match r0 with
      | "" => false
      | String c1 r1 =>
          if bool_decide (194 ≤ b ≤ 223)%N then is_cont c1 && utf8_valid r1
          else match r1 with
          | "" => false
          | String c2 r2 =>
              if bool_decide (224 ≤ b ≤ 239)%N then
                bool_decide ((b = 224 → 160 ≤ code c1) ∧ (b = 237 → code c1 ≤ 159))%N
                && is_cont c1 && is_cont c2 && utf8_valid r2
              else match r2 with
              | "" => false
              | String c3 r3 =>
                  bool_decide (240 ≤ b ≤ 244)%N
                  && bool_decide ((b = 240 → 144 ≤ code c1) ∧ (b = 244 → code c1 ≤ 143))%N
                  && is_cont c1 && is_cont c2 && is_cont c3 && utf8_valid r3
              end
          end
      end
  end.

Definition URIError : Exn := Error "URIError" "URI malformed".

(** [decodeURIComponent(s)].  The escapes are decoded and must spell
    well-formed UTF-8; as [s] itself is well-formed, that is the case
    exactly when the decoded bytes are. *)
Definition decodeURIComponent (s : string) : Res string :=
  match percent_decode s with
  | Some t => if utf8_valid t then Ok t else Throw URIError
  | None => Throw URIError
  end.

(** ** Base64 *)

Definition base64_alphabet : string :=
  "ABCDEFGHIJKLMNOPQRSTUVWXYZabcdefghijklmnopqrstuvwxyz0123456789+/".

Definition b64_char (n : N) : ascii :=
  default "A"%char (list_ascii_of_string base64_alphabet !! N.to_nat n).

Definition b64_val (c : ascii) : option N :=
  let n := code c in
  if bool_decide (65 ≤ n ≤ 90)%N then Some (n - 65)%N
  else if bool_decide (97 ≤ n ≤ 122)%N then Some (n - 71)%N
  else if bool_decide (48 ≤ n ≤ 57)%N then Some (n + 4)%N
  else if bool_decide (n = 43)%N then Some 62%N
  else if bool_decide (n = 47)%N then Some 63%N
  else None.

Fixpoint base64_encode (l : list N) : string :=
  match l with
  | [] => ""
  | [a] =>
      String (b64_char (a / 4)) (String (b64_char (a mod 4 * 16)) "==")
  | [a; b] =>
      String (b64_char (a / 4)) (String (b64_char (a mod 4 * 16 + b / 16))
        (String (b64_char (b mod 16 * 4)) "="))
  | a :: b :: c :: r =>
      String (b64_char (a / 4)) (String (b64_char (a mod 4 * 16 + b / 16))
        (String (b64_char (b mod 16 * 4 + c / 64)) (String (b64_char (c mod 64))
          (base64_encode r))))
  end%N.

Fixpoint base64_decode (l : list N) : list N :=
  match l with
  | a :: b :: c :: d :: r =>
      (a * 4 + b / 16) :: (b mod 16 * 16 + c / 4) :: (c mod 4 * 64 + d) :: base64_decode r
  | [a; b; c] => [a * 4 + b / 16; b mod 16 * 16 + c / 4]
  | [a; b] => [a * 4 + b / 16]
  | _ => []
  end%N.

(** The code points of a string all of whose characters are below U+0100
    (a binary string), and back. *)
Fixpoint latin1_of_string (s : string) : option (list N) :=
  match s with
  | "" => Some []
  | String c r =>
      if bool_decide (code c < 128)%N then (code c ::.) <$> latin1_of_string r
      else match r with
           | String c' r' =>
               if bool_decide (code c = 194 ∨ code c = 195)%N && is_cont c' then
                 ((code c' + (code c - 194) * 64)%N ::.) <$> latin1_of_string r'
               else None
           | "" => None
           end
  end.

Fixpoint string_of_latin1 (l : list N) : string :=
  match l with
  | [] => ""
  | n :: r =>
      if bool_decide (n < 128)%N then String (ascii_of_N n) (string_of_latin1 r)
      else String (ascii_of_N (194 + (n - 128) / 64))
             (String (ascii_of_N (128 + n mod 64)) (string_of_latin1 r))
  end.

Definition InvalidCharacterError : Exn :=
  Error "InvalidCharacterError" "The string contains invalid characters.".

(** [btoa(s)]. *)
Definition btoa (s : string) : Res string :=
  match latin1_of_string s with
  | Some l => Ok (base64_encode l)
  | None => Throw InvalidCharacterError
  end.

Definition is_ascii_ws (c : ascii) : bool :=
  bool_decide (code c ∈ [9; 10; 12; 13; 32]%N).

Fixpoint remove_ascii_ws (s : string) : list ascii :=
  match s with
  | "" => []
  | String c r => if is_ascii_ws c then remove_ascii_ws r else c :: remove_ascii_ws r
  end.

(** Removal of the padding, allowed when the length is a multiple of 4. *)
Definition strip_padding (l : list ascii) : list ascii :=
  if bool_decide (length l mod 4 = 0)%nat then
    match reverse l with
    | c1 :: r1 =>
        if Ascii.eqb c1 "=" then
          match r1 with
          | c2 :: r2 => if Ascii.eqb c2 "=" then reverse r2 else reverse r1
          | [] => reverse r1
          end
        else l
    | [] => l
    end
  else l.

(** [atob(s)], the forgiving-base64 decoder of the HTML standard. *)
Definition atob (s : string) : Res string :=
  let l := strip_padding (remove_ascii_ws s) in
  if bool_decide (length l mod 4 = 1)%nat then Throw InvalidCharacterError
  else match mapM b64_val l with
       | Some vs => Ok (string_of_latin1 (base64_decode vs))
       | None => Throw InvalidCharacterError
       end.

(** ** JSON *)

(** [QuoteJSONString]. *)
Definition json_escape (c : ascii) : string :=
  let n := code c in
  if bool_decide (n = 34)%N then String "\" (String dquote "")
  else if bool_decide (n = 92)%N then "\\"
  else if bool_decide (n = 8)%N then "\b"
  else if bool_decide (n = 12)%N then "\f"
  else if bool_decide (n = 10)%N then "\n"
  else if bool_decide (n = 13)%N then "\r"
  else if bool_decide (n = 9)%N then "\t"
  else if bool_decide (n < 32)%N then "\u00" +:+ hex2 false c
  else String c "".

Fixpoint json_escape_all (s : string) : string :=
  match s with
  | "" => ""
  | String c r => json_escape c +:+ json_escape_all r
  end.

Definition QuoteJSONString (s : string) : string :=
  String dquote (json_escape_all s +:+ String dquote "").

(** [JSON.stringify(v)]; [None] is the result [undefined]. *)
Fixpoint JSON_stringify (v : JsVal) : option string :=
  match v with
  | VUndef | VFun _ => None
  | VNull => Some "null"
  | VBool true => Some "true"
  | VBool false => Some "false"
  | VNum n => Some (number_text n)
  | VStr s => Some (QuoteJSONString s)
  | VArr l =>
      Some ("[" +:+ join "," (map (λ x, default "null" (JSON_stringify x)) l) +:+ "]")
  | VObj ps =>
      Some ("{" +:+
            join "," (omap (λ p, (λ t, QuoteJSONString (fst p) +:+ ":" +:+ t)
                                   <$> JSON_stringify (snd p)) ps)
            +:+ "}")
  end.

Definition SyntaxError : Exn := Error "SyntaxError" "Unexpected token in JSON".

Fixpoint skip_ws (s : string) : string :=
  match s with
  | String c r => if bool_decide (code c ∈ [32; 9; 10; 13]%N) then skip_ws r else s
  | "" => ""
  end.

(** UTF-8 encoding of a code point. *)
Definition utf8_encode (n : N) : string :=
  (if bool_decide (n < 128) then String (ascii_of_N n) ""
   else if bool_decide (n < 2048) then
     String (ascii_of_N (192 + n / 64)) (String (ascii_of_N (128 + n mod 64)) "")
   else if bool_decide (n < 65536) then
     String (ascii_of_N (224 + n / 4096))
       (String (ascii_of_N (128 + n / 64 mod 64)) (String (ascii_of_N (128 + n mod 64)) ""))
   else
     String (ascii_of_N (240 + n / 262144))
       (String (ascii_of_N (128 + n / 4096 mod 64))
          (String (ascii_of_N (128 + n / 64 mod 64))
             (String (ascii_of_N (128 + n mod 64)) ""))))%N.

Definition hex4 (h1 h2 h3 h4 : ascii) : option N :=
  match hex_val h1, hex_val h2, hex_val h3, hex_val h4 with
  | Some a, Some b, Some c, Some d => Some (((a * 16 + b) * 16 + c) * 16 + d)%N
  | _, _, _, _ => None
  end.

Definition prepend {A} (t : string) (r : option (string * A)) : option (string * A) :=
  (λ p, (t +:+ fst p, snd p)) <$> r.

(** The characters of a string literal after its opening quote, and what
    follows the closing quote.  A [\u] escape of a surrogate is accepted
    only as half of a pair. *)
Fixpoint parse_string_body (s : string) : option (string * string) :=
  match s with
  | "" => None
  | String "034" r => Some ("", r)
  | String "\" "" => None
  | String "\" (String "034" r) => prepend (String dquote "") (parse_string_body r)
  | String "\" (String "\" r) => prepend "\" (parse_string_body r)
  | String "\" (String "/" r) => prepend "/" (parse_string_body r)
  | String "\" (String "b" r) => prepend (String "008" "") (parse_string_body r)
  | String "\" (String "f" r) => prepend (String "012" "") (parse_string_body r)
  | String "\" (String "n" r) => prepend (String "010" "") (parse_string_body r)
  | String "\" (String "r" r) => prepend (String "013" "") (parse_string_body r)
  | String "\" (String "t" r) => prepend (String "009" "") (parse_string_body r)
  | String "\" (String "u" (String h1 (String h2 (String h3 (String h4 r))))) =>
      match hex4 h1 h2 h3 h4 with
      | None => None
      | Some u =>
          if bool_decide (u < 55296 ∨ 57344 ≤ u)%N then
            prepend (utf8_encode u) (parse_string_body r)
          else if bool_decide (u < 56320)%N then
            match r with
            | String "\" (String "u" (String l1 (String l2 (String l3 (String l4 r'))))) =>
                match hex4 l1 l2 l3 l4 with
                | Some lo =>
                    if bool_decide (56320 ≤ lo < 57344)%N then
                      prepend (utf8_encode (65536 + (u - 55296) * 1024 + (lo - 56320))%N)
                              (parse_string_body r')
                    else None
                | None => None
                end
            | _ => None
            end
          else None
      end
  | String "\" _ => None
  | String c r =>
      if bool_decide (code c < 32)%N then None
      else prepend (String c "") (parse_string_body r)
  end.

Definition is_digit (c : ascii) : bool := bool_decide (48 ≤ code c ≤ 57)%N.

Fixpoint span_digits (s : string) : string * string :=
  match s with
  | String c r =>
      if is_digit c then let '(ds, rest) := span_digits r in (String c ds, rest)
      else ("", s)
  | "" => ("", "")
  end.

(** An integer literal of magnitude at most 2^53.  A fraction part, an
    exponent part and a larger integer, which [JSON.parse] rounds, are
    outside what the model reads: the literal is not accepted. *)
Definition parse_number (s : string) : option (Z * string) :=
  let '(neg, s1) := match s with String "-" r => (true, r) | _ => (false, s) end in
  let '(ds, rest) := span_digits s1 in
  match ds with
  | "" => None
  | String "0" (String _ _) => None
  | _ =>
      match rest with
      | String "." _ | String "e" _ | String "E" _ => None
      | _ =>
          match NilEmpty.uint_of_string ds with
          | Some d =>
              let n := (if neg then - Z.of_uint d else Z.of_uint d)%Z in
              if exact_integer n then Some (n, rest) else None
          | None => None
          end
      end
  end.

(** [obj[k] = v] on a property list: an existing property keeps its place. *)
Fixpoint obj_set (k : string) (v : JsVal) (ps : list (string * JsVal)) : list (string * JsVal) :=
  match ps with
  | [] => [(k, v)]
  | (k', v') :: rest =>
      if String.eqb k k' then (k', v) :: rest else (k', v') :: obj_set k v rest
  end.

Definition obj_of_members (ms : list (string * JsVal)) : list (string * JsVal) :=
  fold_left (λ acc p, obj_set (fst p) (snd p) acc) ms [].

Definition keyword (rest : string) (v : JsVal) (s : string) : option (JsVal * string) :=
  match strip_prefix rest s with
  | Some r => Some (v, r)
  | None => None
  end.

Fixpoint parse_value (fuel : nat) (s : string) : option (JsVal * string) :=
  match fuel with
  | O => None
  | S f =>
      match skip_ws s with
      | "" => None
      | String c r =>
          if Ascii.eqb c dquote then
            match parse_string_body r with
            | Some (t, r') => Some (VStr t, r')
            | None => None
            end
          else if Ascii.eqb c "[" then
            match skip_ws r with
            | "" => None
            | String c' r' =>
                if Ascii.eqb c' "]" then Some (VArr [], r')
                else match parse_elements f r with
                     | Some (l, r'') => Some (VArr l, r'')
                     | None => None
                     end
            end
          else if Ascii.eqb c "{" then
            match skip_ws r with
            | "" => None
            | String c' r' =>
                if Ascii.eqb c' "}" then Some (VObj [], r')
                else match parse_members f r with
                     | Some (ms, r'') => Some (VObj (obj_of_members ms), r'')
                     | None => None
                     end
            end
          else if Ascii.eqb c "n" then keyword "ull" VNull r
          else if Ascii.eqb c "t" then keyword "rue" (VBool true) r
          else if Ascii.eqb c "f" then keyword "alse" (VBool false) r
          else
            match parse_number (String c r) with
            | Some (n, r') => Some (VNum n, r')
            | None => None
            end
      end
  end
with parse_elements (fuel : nat) (s : string) : option (list JsVal * string) :=
  match fuel with
  | O => None
  | S f =>
      match parse_value f s with
      | Some (v, r) =>
          match skip_ws r with
          | "" => None
          | String c r' =>
              if Ascii.eqb c "," then
                match parse_elements f r' with
                | Some (l, r'') => Some (v :: l, r'')
                | None => None
                end
              else if Ascii.eqb c "]" then Some ([v], r')
              else None
          end
      | None => None
      end
  end
with parse_members (fuel : nat) (s : string) : option (list (string * JsVal) * string) :=
  match fuel with
  | O => None
  | S f =>
      match skip_ws s with
      | "" => None
      | String q r =>
          if Ascii.eqb q dquote then
            match parse_string_body r with
            | Some (k, r1) =>
                match skip_ws r1 with
                | "" => None
                | String c r2 =>
                    if Ascii.eqb c ":" then
                      match parse_value f r2 with
                      | Some (v, r3) =>
                          match skip_ws r3 with
                          | "" => None
                          | String c' r4 =>
                              if Ascii.eqb c' "," then
                                match parse_members f r4 with
                                | Some (ms, r5) => Some ((k, v) :: ms, r5)
                                | None => None
                                end
                              else if Ascii.eqb c' "}" then Some ([(k, v)], r4)
                              else None
                          end
                      | None => None
                      end
                    else None
                end
            | None => None
            end
          else None
      end
  end.

(** [JSON.parse(s)].  A text that is read here is read so by the
    browser, and a text that is no JSON text is refused by both; a JSON
    text with a number that [parse_number] does not read is refused here
    though the browser reads it. *)
Definition JSON_parse (s : string) : Res JsVal :=
  match parse_value (S (String.length s)) s with
  | Some (v, r) => if String.eqb (skip_ws r) "" then Ok v else Throw SyntaxError
  | None => Throw SyntaxError
  end.

(** ** The script *)

(** [API_BASE]: a constant in [app.js], the page's origin in the later
    revision. *)
Definition API_BASE (w : World) : string :=
  match build w with
  | AppJs => "http://localhost:8000"
  | Part002 => origin (location w)
  end.

Definition IS_GITHUB_PAGES (w : World) : bool :=
  includes "github.io" (hostname (location w)).

(** What the environment answers to the request. *)
Inductive Body :=
| BodyJson (v : JsVal)        (* [response.json()] resolves to [v] *)
| BodyInvalid (e : Exn).      (* [response.json()] rejects *)

Inductive FetchOutcome :=
| FetchRejected (e : Exn)
| FetchResponse (ok : bool) (body : Body).

Record Env := mkEnv {
  fetch_outcome : FetchOutcome;
  date_now : Z;             (* Date.now() *)
  date_iso : string         (* new Date().toISOString() *)
}.

Definition fetch (url method : string) (headers : list (string * string))
    (body : option string) (o : FetchOutcome) : M (bool * Body) := λ w,
  let w' := add_effect (EFetch url method headers body) w in
  match o with
  | FetchRejected e => (Throw e, w')
  | FetchResponse ok b => (Ok (ok, b), w')
  end.

Definition response_json (b : Body) : M JsVal :=
  match b with
  | BodyJson v => mret v
  | BodyInvalid e => throw e
  end.

Definition delay (ms : Z) : M unit := mret tt.

Definition selectType (type : string) : M unit :=
  modify (set_currentType type) ;;
  modify (set_document (fmap (λ btn,
    if bool_decide ("type-btn" ∈ classList btn) then
      set_classList_el
        (if bool_decide (attrs btn !! "data-type" = Some type)
         then token_add "active" else token_remove "active") btn
    else btn))).

Definition showToast (message : string) : M unit :=
  set_textContent "toast" (VStr message) ;;
  classList_remove "toast" "hidden" ;;
  classList_add "toast" "show" ;;
  setTimeout ToastFadeOut 2500.

(** [x.style.width = `${percent}%`]: a negative width is not a valid
    declaration, and the style object ignores it. *)
Definition set_width (id : string) (percent : Z) : M unit :=
  if (percent <? 0)%Z then read_el id "style" (λ _, tt)
  else set_attr id "style" "style.width" (number_text percent +:+ "%").

Definition showProgress (step percent : Z) : M unit :=
  classList_remove "progress-section" "hidden" ;;
  forEach ["step-download"; "step-analyze"; "step-generate"] (λ id idx,
    classList_remove id "active" ;;
    classList_remove id "done" ;;
    (if (idx <? step)%Z then classList_add id "done" else mret tt) ;;
    (if (idx =? step)%Z then classList_add id "active" else mret tt)) ;;
  set_width "progress-fill" percent.

Definition hideProgress : M unit :=
  classList_add "progress-section" "hidden".

Definition typeLabels : JsVal :=
  VObj [ ("chord_sheet", VStr "🎤 彈唱簡譜");
         ("fingerstyle_tab", VStr "🎸 指彈六線譜");
         ("piano_sheet", VStr "🎹 鋼琴簡譜") ].

Definition displayResult (data : nat) : M unit :=
  classList_remove "result-section" "hidden" ;;
  title ← prop data "title";
  set_textContent "result-title" (js_or title (VStr "未知歌曲")) ;;
  tempo ← prop data "tempo";
  tempo_text ← lift (ToString_checked (js_or tempo (VNum 120)));
  set_textContent "result-tempo" (VStr ("♩ = " +:+ tempo_text)) ;;
  key ← prop data "key";
  key_text ← lift (ToString_checked (js_or key (VStr "C")));
  set_textContent "result-key" (VStr (key_text +:+ " 大調")) ;;
  output_type ← prop data "output_type";
  name ← lift (ToString_checked output_type);
  label ← lift (get_prop typeLabels name);
  set_textContent "result-type" (js_or label (VStr "")) ;;
  content ← prop data "content";
  set_textContent "sheet-content" content ;;
  midi_note ← prop data "midi_note";
  (if truthy midi_note then
     set_textContent "result-note" midi_note ;;
     classList_remove "result-note" "hidden"
   else
     classList_add "result-note" "hidden") ;;
  scrollIntoView "result-section".

Definition TypeError_not_a_function (what : string) : Exn :=
  Error "TypeError" (what +:+ " is not a function").

(** [localStorage.getItem('tab-finder-history') || '[]']. *)
Definition history_text (w : World) : string :=
  match localStorage w !! "tab-finder-history" with
  | Some s => if String.eqb s "" then "[]" else s
  | None => "[]"
  end.

Definition saveToLocalHistory (record : nat) : M unit :=
  text ← gets history_text;
  history ← lift (JSON_parse text);
  match history with
  | VArr h =>
      r ← deref record;
      let h1 := r :: h in
      let h2 := if bool_decide (50 < length h1)%nat then take 50 h1 else h1 in
      modify (set_localStorage
                (<["tab-finder-history" := default "undefined" (JSON_stringify (VArr h2))]>))
  | VNull => throw (TypeError_nullish "null" "unshift")
  | _ => throw (TypeError_not_a_function "history.unshift")
  end.

Definition demoChordSheet : string :=
  "速度: ♩ = 120
調號: C 大調

 [C]          [Am]         [F]          [G]  
  1   3   5    6   1·  5    4   3   2    5   -   -

 [C]          [G]          [Am]         [F]  
  1   1   2    5,  7,  2    6,  1   3    4   3   1

 [F]          [G]          [C]               
  4   4   5    7   2·  1    1   -   -    -   -   -

※ 這是演示模式的範例簡譜。
   啟動後端服務後，將從 YouTube 音訊即時產生真實樂譜。".

Definition demoFingerstyleTab_part002 : string :=
  "速度: ♩ = 120
Tuning: Standard (EADGBE)

e| -  0  -  1  -  0  -  -  3  -  1  -  0  -  -  -|
B| 1  -  1  -  3  -  1  0  -  0  -  3  -  1  0  -|
G| -  0  -  -  -  0  -  -  -  0  -  -  -  0  -  0|
D| 2  -  2  -  -  -  2  -  0  -  0  -  -  -  2  -|
A| 3  -  -  0  -  -  -  -  -  -  -  0  -  -  3  -|
E| -  -  -  -  -  -  -  3  -  -  -  -  3  -  -  -|

※ 這是演示模式的範例指彈譜。".

Definition demoFingerstyleTab_appjs : string :=
  "速度: ♩ = 120
Tuning: Standard (EADGBE)

e| -  0  -  1  -  0  -  -  3  -  1  -  0  -  -  -|
B| 1  -  1  -  3  -  1  0  -  0  -  3  -  1  0  -|
G| -  0  -  -  -  0  -  -  -  0  -  -  -  0  -  0|
D| 2  -  2  -  -  -  2  -  0  -  0  -  -  -  2  -|
A| 3  -  -  0  -  -  -  -  -  -  -  0  -  -  3  -|
E| -  -  -  -  -  -  -  3  -  -  -  -  3  -  -  -|

e| -  0  -  1  -  0  -  -  3  -  1  -  0  -  -  -|
B| 1  -  1  -  3  -  1  0  -  0  -  3  -  1  0  -|
G| -  0  -  -  -  0  -  -  -  0  -  -  -  0  -  0|
D| 2  -  2  -  -  -  2  -  0  -  0  -  -  -  2  -|
A| 3  -  -  0  -  -  -  -  -  -  -  0  -  -  3  -|
E| -  -  -  -  -  -  -  3  -  -  -  -  3  -  -  -|

※ 這是演示模式的範例指彈譜。".

Definition demoPianoSheet : string :=
  "速度: ♩ = 120
調號: C 大調

右手（旋律）：
  1   3   5   1·  6   5   3   1   4   3   2   5   1   -   -   -

左手（伴奏）：
  1,  5,  3,  1,  4,  1,  5,  7,  4,  1,  5,  2,  1,  -   -   -

※ 這是演示模式的範例鋼琴簡譜。".


Definition demoFingerstyleTab (b : Build) : string :=
  match b with
  | AppJs => demoFingerstyleTab_appjs
  | Part002 => demoFingerstyleTab_part002
  end.

Definition demoSheets (b : Build) : JsVal :=
  VObj [ ("chord_sheet", VStr demoChordSheet);
         ("fingerstyle_tab", VStr (demoFingerstyleTab b));
         ("piano_sheet", VStr demoPianoSheet) ].

Definition demo_midi_note : string :=
  "💡 提示：請先啟動後端服務 (cd backend && uv run main.py)，即可進行真實的 YouTube 轉譜。".

(** The object literal [demoData]. *)
Definition demoData (env : Env) (url type : string) (b : Build) : JsVal :=
  VObj [ ("id", VStr ("demo-" +:+ number_text (date_now env)));
         ("youtube_url", VStr url);
         ("title", VStr "🎵 演示範例（後端未啟動）");
         ("output_type", VStr type);
         ("content", js_or (field (demoSheets b) type) (VStr demoChordSheet));
         ("tempo", VNum 120);
         ("key", VStr "C");
         ("created_at", VStr (date_iso env));
         ("midi_note", VStr demo_midi_note) ].

Definition showDemoResult (env : Env) (url : string) : M unit :=
  type ← gets currentType;
  b ← gets build;
  data ← alloc (demoData env url type b);
  displayResult data ;;
  modify (set_currentResult (Some data)) ;;
  saveToLocalHistory data.

(** The body of the request. *)
Definition transcribe_request (url type : string) (keyOffset : Number) : option string :=
  JSON_stringify (VObj [ ("youtube_url", VStr url);
                         ("output_type", VStr type);
                         ("key_offset", json_number keyOffset) ]).

(** The [try] block from the arrival of the response on. *)
Definition handle_response (response : bool * Body) : M unit :=
  showProgress 2 80 ;;
  (if negb (fst response) then
     error ← response_json (snd response);
     detail ← lift (get_prop error "detail");
     message ← lift (ToString_checked (js_or detail (VStr "轉譜失敗")));
     throw (Error "Error" message)
   else mret tt) ;;
  body ← response_json (snd response);
  data ← alloc body;
  showProgress 2 100 ;;
  delay 400 ;;
  hideProgress ;;
  displayResult data ;;
  modify (set_currentResult (Some data)) ;;
  showToast "🎉 轉譜完成！".

Definition fallback_toast (error : Exn) : string :=
  if includes "Failed to fetch" (message error) || includes "NetworkError" (message error)
  then "⚠️ 後端未啟動，顯示演示模式"
  else "⚠️ " +:+ message error +:+ "（已顯示演示模式）".

(** The [catch] block. *)
Definition fallback (env : Env) (url : string) (error : Exn) : M unit :=
  hideProgress ;;
  showDemoResult env url ;;
  showToast (fallback_toast error).

(** The [finally] block. *)
Definition restore_button : M unit :=
  set_disabled "transcribe-btn" false ;;
  classList_remove "transcribe-btn .btn-text" "hidden" ;;
  classList_add "transcribe-btn .btn-loading" "hidden".

Definition startTranscribe (env : Env) : M unit :=
  v ← get_value "youtube-url";
  let url := trim v in
  if String.eqb url "" then
    showToast "請輸入 YouTube 連結" ;;
    focus "youtube-url"
  else if negb (includes "youtube.com" url) && negb (includes "youtu.be" url) then
    showToast "請輸入有效的 YouTube 連結"
  else
    read_el "transcribe-btn" "querySelector" (λ _, tt) ;;
    set_disabled "transcribe-btn" true ;;
    classList_add "transcribe-btn .btn-text" "hidden" ;;
    classList_remove "transcribe-btn .btn-loading" "hidden" ;;
    classList_add "result-section" "hidden" ;;
    try_catch_finally
      (showProgress 0 10 ;;
       delay 500 ;;
       showProgress 0 30 ;;
       k ← get_value "key-select";
       let keyOffset := num_or (parseInt k) 0 in
       showProgress 1 50 ;;
       base ← gets API_BASE;
       type ← gets currentType;
       response ← fetch (base +:+ "/api/transcribe") "POST"
                    [("Content-Type", "application/json")]
                    (transcribe_request url type keyOffset)
                    (fetch_outcome env);
       handle_response response)
      (fallback env url)
      restore_button.

(** *** Sheet library, hash navigation and share links (later revision) *)

Fixpoint has_line_terminator (s : string) : bool :=
  match s with
  | "" => false
  | String c r =>
      bool_decide (code c = 10 ∨ code c = 13)%N
      || match r with
         | String c2 (String c3 _) =>
             bool_decide (code c = 226 ∧ code c2 = 128 ∧ (code c3 = 168 ∨ code c3 = 169))%N
         | _ => false
         end
      || has_line_terminator r
  end.

(** [s.match(/^<p>(.+)$/)]: the captured group, when the pattern matches. *)
Definition match_after (p s : string) : option string :=
  match strip_prefix p s with
  | Some rest =>
      if String.eqb rest "" || has_line_terminator rest then None else Some rest
  | None => None
  end.

(** [s.split('#')[0]]. *)
Fixpoint before_hash (s : string) : string :=
  match s with
  | "" => ""
  | String c r => if Ascii.eqb c "#" then "" else String c (before_hash r)
  end.

Definition set_location (l : Location) (w : World) : World :=
  mkWorld (build w) l (document w) (heap w) (currentType w)
          (currentResult w) (allSheets w) (localStorage w) (log w).

(** The fragment of the URL that the reference [#text] resolves to.  The
    URL parser drops the C0 controls and spaces that end the reference
    and every tab and newline in it, and percent-encodes, byte by byte of
    the UTF-8 encoding, the C0 controls, the space, the double quote,
    [<], [>], the backquote and everything beyond the tilde. *)
Definition fragment_encoded (c : ascii) : bool :=
  bool_decide (code c ≤ 32 ∨ code c = 34 ∨ code c = 60 ∨ code c = 62
               ∨ code c = 96 ∨ 127 ≤ code c)%N.

Fixpoint strip_trailing_c0 (s : string) : string :=
  match s with
  | "" => ""
  | String c r =>
      let t := strip_trailing_c0 r in
      if String.eqb t "" && bool_decide (code c ≤ 32)%N then "" else String c t
  end.

Fixpoint fragment_encode (s : string) : string :=
  match s with
  | "" => ""
  | String c r =>
      if bool_decide (code c ∈ [9; 10; 13]%N) then fragment_encode r
      else if fragment_encoded c then String "%" (hex2 true c +:+ fragment_encode r)
      else String c (fragment_encode r)
  end.

Definition url_fragment (text : string) : string :=
  fragment_encode (strip_trailing_c0 text).

(** [history.pushState(null, '', '#' + text)]: the address of the page
    gets the fragment the reference resolves to, which [location.hash]
    returns behind a [#] unless it is empty. *)
Definition pushState (text : string) : M unit :=
  modify (λ w,
    let l := location w in
    let fragment := url_fragment text in
    add_effect (EPushState ("#" +:+ text))
      (set_location
         (mkLocation (origin l) (hostname l) (pathname l)
                     (before_hash (href l) +:+ "#" +:+ fragment)
                     (if String.eqb fragment "" then "" else "#" +:+ fragment)) w)).

Definition viewSheetFromLibrary (index : nat) : M unit :=
  sheets ← gets allSheets;
  match sheets !! index with
  | None => mret tt
  | Some sheet =>
      v ← deref sheet;
      if negb (truthy v) then mret tt
      else
        modify (set_currentResult (Some sheet)) ;;
        displayResult sheet ;;
        id ← prop sheet "id";
        if truthy id then
          id_text ← lift (ToString_checked id);
          pushState ("sheet-" +:+ id_text)
        else mret tt
  end.

(** [allSheets.findIndex(s => s.id === sheetId)], from position [i]. *)
Fixpoint findIndex_id (sheetId : string) (l : list nat) (i : nat) : M (option nat) :=
  match l with
  | [] => mret None
  | s :: rest =>
      id ← prop s "id";
      match id with
      | VStr t => if String.eqb t sheetId then mret (Some i)
                  else findIndex_id sheetId rest (S i)
      | _ => findIndex_id sheetId rest (S i)
      end
  end.

(** The decoding [handleHashNavigation] applies to the captured group. *)
Definition decode_share (encoded : string) : Res JsVal :=
  match atob encoded with
  | Ok binary =>
      match decodeURIComponent binary with
      | Ok text => JSON_parse text
      | Throw e => Throw e
      end
  | Throw e => Throw e
  end.

Definition handleHashNavigation : M unit :=
  h ← gets (λ w, hash (location w));
  if String.eqb h "" then mret tt
  else
    (match match_after "#sheet-" h with
     | Some sheetId =>
         sheets ← gets allSheets;
         if bool_decide (0 < length sheets)%nat then
           idx ← findIndex_id sheetId sheets 0;
           match idx with
           | Some i => viewSheetFromLibrary i
           | None => mret tt
           end
         else mret tt
     | None => mret tt
     end) ;;
    match match_after "#share-" h with
    | Some encoded =>
        try_catch
          (v ← lift (decode_share encoded);
           data ← alloc v;
           modify (set_currentResult (Some data)) ;;
           displayResult data)
          (λ _, showToast "無法解析分享連結")
    | None => mret tt
    end.

Definition showQRCodeModal (title : JsVal) (url : string) : M unit :=
  modal ← gets (λ w, document w !! "qr-modal");
  match modal with
  | None => mret tt
  | Some _ =>
      set_textContent "qr-title" title ;;
      set_attr "qr-image" "src" "src"
        ("https://api.qrserver.com/v1/create-qr-code/?size=250x250&data="
         +:+ encodeURIComponent url +:+ "&bgcolor=1e293b&color=f1f5f9") ;;
      title_text ← lift (ToString_checked title);
      set_attr "qr-image" "alt" "alt" ("QR Code - " +:+ title_text) ;;
      set_textContent "qr-link"
        (VStr (if bool_decide (60 < js_length url)%nat
               then js_substring0 60 url +:+ "..." else url)) ;;
      set_attr "qr-link" "href" "href" url ;;
      set_attr "qr-link" "dataset" "data-full-url" url ;;
      classList_remove "qr-modal" "hidden"
  end.

(** The object [shareSheet] serialises into the link. *)
Definition shareData (title content tempo key output_type : JsVal) : JsVal :=
  VObj [ ("title", title); ("content", content); ("tempo", tempo);
         ("key", key); ("output_type", output_type) ].

(** [btoa(encodeURIComponent(JSON.stringify(d)))]. *)
Definition encode_share (d : JsVal) : Res string :=
  btoa (encodeURIComponent (default "undefined" (JSON_stringify d))).

(** [shareSheet(index)]; [None] is the call with [undefined]. *)
Definition shareSheet (index : option nat) : M unit :=
  target ← (match index with
            | Some i => gets (λ w, allSheets w !! i)
            | None => gets currentResult
            end);
  match target with
  | None => mret tt
  | Some sheet =>
      v ← deref sheet;
      if negb (truthy v) then mret tt
      else
        title ← prop sheet "title";
        content ← prop sheet "content";
        tempo ← prop sheet "tempo";
        key ← prop sheet "key";
        output_type ← prop sheet "output_type";
        pages ← gets IS_GITHUB_PAGES;
        id ← prop sheet "id";
        loc ← gets location;
        shareUrl ←
          (if pages && truthy id then
             id_text ← lift (ToString_checked id);
             mret (origin loc +:+ pathname loc +:+ "#sheet-" +:+ id_text)
           else
             encoded ← lift (encode_share (shareData title content tempo key output_type));
             let baseUrl := if pages then origin loc +:+ pathname loc
                            else before_hash (href loc) in
             mret (baseUrl +:+ "#share-" +:+ encoded));
        showQRCodeModal (js_or title (VStr "樂譜")) shareUrl
  end.

Definition shareCurrentSheet : M unit :=
  r ← gets currentResult;
  match r with
  | None => mret tt
  | Some l =>
      v ← deref l;
      if negb (truthy v) then mret tt else shareSheet None
  end.

(** ** Observations on a state, and what a run leaves on the page *)

Definition has_el (w : World) (id : string) : Prop := is_Some (document w !! id).

(** [textContent] of an element of the page. *)
Definition text_of (w : World) (id : string) : option string :=
  textContent <$> document w !! id.

(** Whether an element carries the class [hidden]. *)
Definition hidden (w : World) (id : string) : option bool :=
  (λ e, bool_decide ("hidden" ∈ classList e)) <$> document w !! id.

(** The requests sent so far. *)
Definition is_fetch (e : Effect) : bool :=
  match e with EFetch _ _ _ _ => true | _ => false end.

Definition fetches (w : World) : list Effect := filter (λ e, is_fetch e = true) (log w).

(** A run never changes the observation [f]. *)
Definition preserves {A X} (f : World → X) (m : M A) : Prop :=
  ∀ w, f (snd (m w)) = f w.

(** The page after [showToast(msg)]. *)
Definition toast_dom (msg : string) (d : gmap string Element) : gmap string Element :=
  alter (set_classList_el (token_add "show")) "toast"
    (alter (set_classList_el (token_remove "hidden")) "toast"
       (alter (set_textContent_el msg) "toast" d)).

(** The page after [showProgress(step, percent)]. *)
Definition step_dom (el : string) (idx step : Z) (d : gmap string Element) : gmap string Element :=
  (if (idx =? step)%Z then alter (set_classList_el (token_add "active")) el else λ x, x)
    ((if (idx <? step)%Z then alter (set_classList_el (token_add "done")) el else λ x, x)
       (alter (set_classList_el (token_remove "done")) el
          (alter (set_classList_el (token_remove "active")) el d))).

Definition progress_dom (step percent : Z) (d : gmap string Element) : gmap string Element :=
  (if (percent <? 0)%Z then λ x, x
   else alter (set_attr_el "style.width" (number_text percent +:+ "%")) "progress-fill")
    (step_dom "step-generate" 2 step
       (step_dom "step-analyze" 1 step
          (step_dom "step-download" 0 step
             (alter (set_classList_el (token_remove "hidden")) "progress-section" d)))).

(** The page after [displayResult(data)], for the object [v] that [data]
    refers to. *)
Definition display_dom (v : JsVal) (d : gmap string Element) : gmap string Element :=
  (if truthy (field v "midi_note") then
     λ d', alter (set_classList_el (token_remove "hidden")) "result-note"
             (alter (set_textContent_el (DOMString_nullable (field v "midi_note")))
                    "result-note" d')
   else alter (set_classList_el (token_add "hidden")) "result-note")
    (alter (set_textContent_el (DOMString_nullable (field v "content"))) "sheet-content"
       (alter (set_textContent_el
                 (DOMString_nullable
                    (js_or (field typeLabels (ToString (field v "output_type"))) (VStr ""))))
              "result-type"
          (alter (set_textContent_el
                    (ToString (js_or (field v "key") (VStr "C")) +:+ " 大調")) "result-key"
             (alter (set_textContent_el
                       ("♩ = " +:+ ToString (js_or (field v "tempo") (VNum 120))))
                    "result-tempo"
                (alter (set_textContent_el
                          (DOMString_nullable (js_or (field v "title") (VStr "未知歌曲"))))
                       "result-title"
                   (alter (set_classList_el (token_remove "hidden")) "result-section" d)))))).

(** The fields of a result that [displayResult] converts to text. *)
Definition display_keys : list string :=
  ["title"; "tempo"; "key"; "output_type"; "content"; "midi_note"].

(** Each of them converts to a string: it is a primitive value, an array
    of such, or an object without a [toString] property of its own. *)
Definition displayable (v : JsVal) : bool :=
  forallb (λ k, converts (field v k)) display_keys.

(** The elements the procedures refer to. *)
Definition result_ids : list string :=
  [ "result-section"; "result-title"; "result-tempo"; "result-key";
    "result-type"; "sheet-content"; "result-note" ].

Definition progress_ids : list string :=
  [ "progress-section"; "step-download"; "step-analyze"; "step-generate"; "progress-fill" ].

Definition form_ids : list string :=
  [ "youtube-url"; "key-select"; "transcribe-btn";
    "transcribe-btn .btn-text"; "transcribe-btn .btn-loading"; "toast" ].

Definition page_ids : list string := form_ids ++ progress_ids ++ result_ids.

Definition has_els (w : World) (ids : list string) : Prop := Forall (has_el w) ids.

(** A page transformer that neither adds nor removes elements. *)
Definition keeps_els (g : gmap string Element → gmap string Element) : Prop :=
  ∀ d id, is_Some (g d !! id) ↔ is_Some (d !! id).

(** An optional string field: a string, or absent ([undefined], or [null]
    as a JSON body spells it). *)
Definition optional_string (v : JsVal) : Prop :=
  match v with
  | VUndef | VNull | VStr _ => True
  | _ => False
  end.

(** ** Reading a numbered-notation sheet *)

Definition newline : ascii := "010"%char.

(** [content.split('\n')]. *)
Fixpoint lines (s : string) : list string :=
  match s with
  | "" => [""]
  | String c r =>
      if Ascii.eqb c newline then "" :: lines r
      else match lines r with
           | l :: ls => String c l :: ls
           | [] => [String c ""]
           end
  end.

Fixpoint strip_spaces (s : string) : string :=
  match s with
  | String " " r => strip_spaces r
  | _ => s
  end.

(** The melody line of a sheet: the first line that starts, after its
    indentation, with a digit. *)
Definition is_melody_line (l : string) : bool :=
  match strip_spaces l with
  | String c _ => is_digit c
  | "" => false
  end.

Definition melody_line (content : string) : option string :=
  head (filter (λ l, is_melody_line l = true) (lines content)).

(** The line begins with the digit 1 carrying no octave mark: neither the
    raised dot nor the comma follows it. *)
Definition begins_with_plain_1 (l : string) : bool :=
  match strip_spaces l with
  | String "1" r => negb (String.prefix "·" r || String.prefix "," r)
  | _ => false
  end.

(** ** Sample states *)

Definition blank : Element := mkElement "" [] "" false ∅.

Definition sample_document (url key : string) : gmap string Element :=
  <["youtube-url" := mkElement "" [] url false ∅]>
    (<["key-select" := mkElement "" [] key false ∅]>
       (list_to_map ((λ id, (id, blank)) <$> page_ids))).

Definition sample_location : Location :=
  mkLocation "http://localhost:8000" "localhost" "/" "http://localhost:8000/" "".

Definition sample_world (url key type : string) (objects : list JsVal) : World :=
  mkWorld Part002 sample_location (sample_document url key)
          (list_to_map (imap (λ i v, (i, v)) objects)) type None [] ∅ [].

Definition sample_result : JsVal :=
  VObj [ ("title", VStr "Song"); ("tempo", VNum 120); ("key", VStr "C");
         ("output_type", VStr "chord_sheet");
         ("content", VStr "速度: ♩ = 120
調號: C 大調

 [G]          [C]
  5   3   2    1   -   -");
         ("midi_note", VStr "2 notes out of range") ].

(** ** The phases of [startTranscribe] *)

(** The input passes the guard of [startTranscribe]. *)
Definition valid_url (v : string) : bool :=
  negb (String.eqb (trim v) "")
  && (includes "youtube.com" (trim v) || includes "youtu.be" (trim v)).

(** The page once the button is in its loading state. *)
Definition busy_dom (d : gmap string Element) : gmap string Element :=
  alter (set_classList_el (token_add "hidden")) "result-section"
    (alter (set_classList_el (token_remove "hidden")) "transcribe-btn .btn-loading"
       (alter (set_classList_el (token_add "hidden")) "transcribe-btn .btn-text"
          (alter (set_disabled_el true) "transcribe-btn" d))).

(** The page after the [finally] block. *)
Definition idle_dom (d : gmap string Element) : gmap string Element :=
  alter (set_classList_el (token_add "hidden")) "transcribe-btn .btn-loading"
    (alter (set_classList_el (token_remove "hidden")) "transcribe-btn .btn-text"
       (alter (set_disabled_el false) "transcribe-btn" d)).

(** The page at the moment the request leaves. *)
Definition sent_dom (d : gmap string Element) : gmap string Element :=
  progress_dom 1 50 (progress_dom 0 30 (progress_dom 0 10 (busy_dom d))).

(** The request [startTranscribe] sends from state [w], for the trimmed
    address [url] and the value [key] of the key selector. *)
Definition request_of (w : World) (url key : string) : Effect :=
  EFetch (API_BASE w +:+ "/api/transcribe") "POST"
         [("Content-Type", "application/json")]
         (transcribe_request url (currentType w) (num_or (parseInt key) 0)).

(** The error a failing request ends the [try] block with: the rejection
    of [fetch], or what a response that is not ok makes the script throw. *)
Definition failure (o : FetchOutcome) : option Exn :=
  match o with
  | FetchRejected e => Some e
  | FetchResponse false (BodyInvalid e) => Some e
  | FetchResponse false (BodyJson v) =>
      Some (match get_prop v "detail" with
            | Throw e => e
            | Ok d =>
                match ToString_checked (js_or d (VStr "轉譜失敗")) with
                | Ok message => Error "Error" message
                | Throw e => e
                end
            end)
  | FetchResponse true _ => None
  end.

(** An environment in which the back end is down, and one in which it
    answers with [v]. *)
Definition offline : Env :=
  mkEnv (FetchRejected (Error "TypeError" "Failed to fetch"))
        1700000000000 "2023-11-14T22:13:20.000Z".

Definition answering (ok : bool) (v : JsVal) : Env :=
  mkEnv (FetchResponse ok (BodyJson v)) 1700000000000 "2023-11-14T22:13:20.000Z".

(** ** JSON values *)

(** The values that the model of [JSON.parse] produces: no [undefined]
    and no function inside, no object with two properties of the same
    name, and numbers that are integers of magnitude at most 2^53. *)
Fixpoint is_json (v : JsVal) : bool :=
  match v with
  | VUndef | VFun _ => false
  | VNum n => exact_integer n
  | VNull | VBool _ | VStr _ => true
  | VArr l => forallb is_json l
  | VObj ps => bool_decide (NoDup (map fst ps)) && forallb (λ p, is_json (snd p)) ps
  end.

(** Every string of the value, property names included, is well-formed
    (the representation invariant of strings). *)
Fixpoint utf8_json (v : JsVal) : bool :=
  match v with
  | VStr s => utf8_valid s
  | VArr l => forallb utf8_json l
  | VObj ps => forallb (λ p, utf8_valid (fst p) && utf8_json (snd p)) ps
  | _ => true
  end.

(** The text of a value inside an array: [JSON.stringify] writes [null]
    for what it cannot serialise. *)
Definition json_text (v : JsVal) : string := default "null" (JSON_stringify v).

(** What may follow a value in a JSON text. *)
Definition delimited (rest : string) : Prop :=
  match rest with
  | "" => True
  | String c _ => c = ","%char ∨ c = "]"%char ∨ c = "}"%char
  end.

(** ** Encodings *)

(** All characters are ASCII. *)
Fixpoint ascii_only (s : string) : bool :=
  match s with
  | "" => true
  | String c r => bool_decide (code c < 128)%N && ascii_only r
  end.

Definition codes (s : string) : list N := map code (list_ascii_of_string s).

(** The 6-bit groups [base64_encode] writes, and the padding it adds. *)
Fixpoint base64_sextets (l : list N) : list N :=
  match l with
  | [] => []
  | [a] => [a / 4; a mod 4 * 16]
  | [a; b] => [a / 4; a mod 4 * 16 + b / 16; b mod 16 * 4]
  | a :: b :: c :: r =>
      a / 4 :: a mod 4 * 16 + b / 16 :: b mod 16 * 4 + c / 64 :: c mod 64
      :: base64_sextets r
  end%N.

Fixpoint base64_padding (l : list N) : list ascii :=
  match l with
  | [] => []
  | [_] => ["="; "="]%char
  | [_; _] => ["="%char]
  | _ :: _ :: _ :: r => base64_padding r
  end.

(** Properties with [undefined] as value, which [JSON.stringify] leaves
    out. *)
Definition is_undef (v : JsVal) : bool :=
  match v with VUndef => true | _ => false end.

Definition defined_props (ps : list (string * JsVal)) : list (string * JsVal) :=
  filter (λ p, is_undef (snd p) = false) ps.

(** A property value that a share link carries faithfully: a JSON value
    with well-formed strings, or [undefined] for a property the sheet
    lacks. *)
Definition shareable (v : JsVal) : bool :=
  is_undef v || (is_json v && utf8_json v).

(** ** Auxiliary notions of the proofs *)

(** The rest of the text does not go on with a digit. *)
Definition no_digit_start (rest : string) : Prop :=
  match rest with
  | "" => True
  | String c _ => is_digit c = false
  end.

(** What may follow an integer literal: no digit, fraction or exponent. *)
Definition tail_ok (rest : string) : Prop :=
  match rest with
  | String c _ => is_digit c = false ∧ c ≠ "."%char ∧ c ≠ "e"%char ∧ c ≠ "E"%char
  | "" => True
  end.

(** A character that is neither JSON white space nor a closing bracket. *)
Definition value_start (c : ascii) : bool :=
  negb (bool_decide (code c ∈ [32; 9; 10; 13]%N))
  && negb (Ascii.eqb c "]") && negb (Ascii.eqb c "}").

(** The first character of a number literal. *)
Definition number_start (c : ascii) : bool := Ascii.eqb c "-" || is_digit c.

(** [parse_value] reads the text of [v] back, whatever follows it. *)
Definition parses (v : JsVal) : Prop :=
  ∀ rest fuel, delimited rest → (String.length (json_text v) < fuel)%nat →
    parse_value fuel (json_text v +:+ rest) = Some (v, rest).

(** The text of a property: its quoted name, a colon, its value. *)
Definition member_text (p : string * JsVal) : string :=
  QuoteJSONString (fst p) +:+ ":" +:+ json_text (snd p).

(** A character [atob] neither skips nor takes for padding, and that ends
    no line. *)
Definition b64_symbol (c : ascii) : Prop :=
  is_ascii_ws c = false ∧ Ascii.eqb c "=" = false
  ∧ (code c < 128)%N ∧ (code c ≠ 10 ∧ code c ≠ 13)%N.

(** The properties [shareSheet] copies into [shareData]. *)
Definition share_keys : list string :=
  ["title"; "content"; "tempo"; "key"; "output_type"].

(** The [shareData] that [shareSheet] builds from a sheet. *)
Definition shareData_of (sheet : JsVal) : JsVal :=
  shareData (field sheet "title") (field sheet "content") (field sheet "tempo")
            (field sheet "key") (field sheet "output_type").

(** ** Further procedures of the script *)

(** A text that begins no JSON text: it is blank, or the first character
    after its white space is none a JSON value begins with. *)
Definition begins_no_json (s : string) : bool :=
  match skip_ws s with
  | "" => true
  | String c _ =>
      negb (bool_decide (c ∈ [dquote; "["; "{"; "n"; "t"; "f"; "-"]%char) || is_digit c)
  end.

(** The handles of the elements of the page. *)
Definition page_elements (w : World) : gset string := dom (document w).

(** A sequence of calls of [saveToLocalHistory], one per record. *)
Fixpoint saves (records : list nat) : M unit :=
  match records with
  | [] => mret tt
  | r :: rest => saveToLocalHistory r ;; saves rest
  end.

(** The state after [viewSheetFromLibrary] has displayed the sheet [v]
    held at [l]. *)
Definition viewed (l : nat) (v : JsVal) (w : World) : World :=
  let shown := add_effect (EScrollIntoView "result-section")
                 (set_document (display_dom v) (set_currentResult (Some l) w)) in
  if truthy (field v "id") then
    snd (pushState ("sheet-" +:+ ToString (field v "id")) shown)
  else shown.

(** A text the URL parser leaves as it is in a fragment: printable ASCII
    characters other than the space, the double quote, [<], [>] and the
    backquote. *)
Definition fragment_safe (s : string) : bool :=
  forallb (λ c, negb (fragment_encoded c)) (list_ascii_of_string s).

(** A payload that the decoding of [handleHashNavigation] fails on: it
    is not base64, or what it decodes to is not a percent-encoding of a
    text, or that text begins no JSON text. *)
Definition garbled (encoded : string) : bool :=
  match atob encoded with
  | Throw _ => true
  | Ok binary =>
      match decodeURIComponent binary with
      | Throw _ => true
      | Ok text => begins_no_json text
      end
  end.

(** The sheets before position [i] are objects whose [id] is not [sid]. *)
Definition no_sheet_before (w : World) (sheets : list nat) (sid : string) (i : nat) : Prop :=
  ∀ j l, (j < i)%nat → sheets !! j = Some l →
    ∃ v, heap w !! l = Some v ∧ nullish v = false ∧ field v "id" ≠ VStr sid.

Definition qr_ids : list string := ["qr-modal"; "qr-title"; "qr-image"; "qr-link"].

(** The text of the link in the modal: [url], cut after 60 UTF-16 code
    units. *)
Definition link_text (url : string) : string :=
  if bool_decide (60 < js_length url)%nat then js_substring0 60 url +:+ "..." else url.

(** The address of the QR image for [url]. *)
Definition qr_src (url : string) : string :=
  "https://api.qrserver.com/v1/create-qr-code/?size=250x250&data="
  +:+ encodeURIComponent url +:+ "&bgcolor=1e293b&color=f1f5f9".

(** The page after [showQRCodeModal(title, url)]. *)
Definition qr_dom (title : JsVal) (url : string) (d : gmap string Element)
    : gmap string Element :=
  alter (set_classList_el (token_remove "hidden")) "qr-modal"
    (alter (set_attr_el "data-full-url" url) "qr-link"
       (alter (set_attr_el "href" url) "qr-link"
          (alter (set_textContent_el (link_text url)) "qr-link"
             (alter (set_attr_el "alt" ("QR Code - " +:+ ToString title)) "qr-image"
                (alter (set_attr_el "src" (qr_src url)) "qr-image"
                   (alter (set_textContent_el (DOMString_nullable title)) "qr-title" d)))))).

(** [closeQRModal()]. *)
Definition closeQRModal : M unit := classList_add "qr-modal" "hidden".

(** The link [shareSheet] makes for the sheet [v]. *)
Definition share_link (w : World) (v : JsVal) (link : string) : Prop :=
  if IS_GITHUB_PAGES w && truthy (field v "id") then
    link = origin (location w) +:+ pathname (location w) +:+ "#sheet-"
           +:+ ToString (field v "id")
  else
    ∃ encoded, encode_share (shareData_of v) = Ok encoded
      ∧ link = (if IS_GITHUB_PAGES w
                then origin (location w) +:+ pathname (location w)
                else before_hash (href (location w))) +:+ "#share-" +:+ encoded.

(** [a === b], for a value [a] read out of a freshly parsed JSON text: an
    object or an array in it is a new one, identical to no other
    value. *)
Definition strict_equals (a b : JsVal) : bool :=
  match a, b with
  | VUndef, VUndef | VNull, VNull => true
  | VBool x, VBool y => Bool.eqb x y
  | VNum x, VNum y => (x =? y)%Z
  | VStr x, VStr y => String.eqb x y
  | VFun x, VFun y => String.eqb x y
  | _, _ => false
  end.

(** [localStorage.getItem('tab-finder-favorites') || '[]']. *)
Definition favorites_text (w : World) : string :=
  match localStorage w !! "tab-finder-favorites" with
  | Some s => if String.eqb s "" then "[]" else s
  | None => "[]"
  end.

Definition getLocalFavorites : M JsVal :=
  text ← gets favorites_text;
  lift (JSON_parse text).

(** [favorites.find(f => f.id === id)]. *)
Fixpoint find_id (id : JsVal) (l : list JsVal) : Res JsVal :=
  match l with
  | [] => Ok VUndef
  | f :: rest =>
      match get_prop f "id" with
      | Ok x => if strict_equals x id then Ok f else find_id id rest
      | Throw e => Throw e
      end
  end.

(** [favorites.filter(f => f.id !== id)]. *)
Fixpoint filter_not_id (id : JsVal) (l : list JsVal) : Res (list JsVal) :=
  match l with
  | [] => Ok []
  | f :: rest =>
      match get_prop f "id" with
      | Ok x =>
          match filter_not_id id rest with
          | Ok kept => Ok (if strict_equals x id then kept else f :: kept)
          | Throw e => Throw e
          end
      | Throw e => Throw e
      end
  end.

Definition setItem (key : string) (text : option string) : M unit :=
  modify (set_localStorage (<[key := default "undefined" text]>)).

(** [IS_GITHUB_PAGES], which the first revision does not have. *)
Definition static_mode (w : World) : bool :=
  match build w with
  | AppJs => false
  | Part002 => IS_GITHUB_PAGES w
  end.

(** [toggleFavorite()]; [o] is what the environment answers to the
    request that reports the change to the back end. *)
Definition toggleFavorite (o : FetchOutcome) : M unit :=
  r ← gets currentResult;
  match r with
  | None => mret tt
  | Some cur =>
      v ← deref cur;
      if negb (truthy v) then mret tt
      else
        favorites ← getLocalFavorites;
        match favorites with
        | VArr favs =>
            id ← prop cur "id";
            found ← lift (find_id id favs);
            (if truthy found then
               updated ← lift (filter_not_id id favs);
               setItem "tab-finder-favorites" (JSON_stringify (VArr updated)) ;;
               set_textContent "fav-icon" (VStr "☆") ;;
               showToast "已取消收藏"
             else
               setItem "tab-finder-favorites" (JSON_stringify (VArr (v :: favs))) ;;
               set_textContent "fav-icon" (VStr "⭐") ;;
               showToast "⭐ 已加入收藏") ;;
            pages ← gets static_mode;
            if (pages : bool) then mret tt
            else
              try_catch
                (base ← gets API_BASE;
                 if negb (truthy found) then
                   fetch (base +:+ "/api/favorites") "POST"
                     [("Content-Type", "application/json")]
                     (JSON_stringify (VObj [("record_id", id)])) o ;;
                   mret tt
                 else
                   suffix ← lift (ToString_checked id);
                   fetch (base +:+ "/api/favorites/" +:+ suffix) "DELETE" [] None o ;;
                   mret tt)
                (λ _, mret tt)
        | VNull => throw (TypeError_nullish "null" "find")
        | _ => throw (TypeError_not_a_function "favorites.find")
        end
  end.

(** The favorite [f] carries the id [id]. *)
Definition has_id (id f : JsVal) : bool := strict_equals (field f "id") id.

(** The request by which [toggleFavorite] reports a change to the back
    end. *)
Definition favorite_request (w : World) (id : JsVal) (removing : bool) : option Effect :=
  if removing then
    match ToString_checked id with
    | Ok suffix => Some (EFetch (API_BASE w +:+ "/api/favorites/" +:+ suffix) "DELETE" [] None)
    | Throw _ => None
    end
  else
    Some (EFetch (API_BASE w +:+ "/api/favorites") "POST"
                 [("Content-Type", "application/json")]
                 (JSON_stringify (VObj [("record_id", id)]))).

(** The state after [toggleFavorite], for the current result [v] and the
    stored favorites [favs]. *)
Definition toggled (v : JsVal) (favs : list JsVal) (w : World) : World :=
  let id := field v "id" in
  let removing := truthy (default VUndef (List.find (has_id id) favs)) in
  let list := if removing then List.filter (λ f, negb (has_id id f)) favs else v :: favs in
  let shown :=
    add_effect (ESetTimeout 2500 ToastFadeOut)
      (set_document (toast_dom (if removing then "已取消收藏" else "⭐ 已加入收藏"))
         (set_document
            (alter (set_textContent_el (if removing then "☆" else "⭐")) "fav-icon")
            (set_localStorage (<["tab-finder-favorites" := json_text (VArr list)]>) w))) in
  if static_mode w then shown
  else match favorite_request w id removing with
       | Some request => add_effect request shown
       | None => shown
       end.

(** ** Record lists *)

(** [html s] is [s] with every backquote read as a double quote: the
    markup of the script is written below with backquotes where the
    source has double quotes (its templates hold no backquote). *)
Fixpoint html (s : string) : string :=
  match s with
  | "" => ""
  | String c r => String (if Ascii.eqb c "`" then dquote else c) (html r)
  end.

(** What [innerHTML] returns for a text node: [&], [<], [>] and the
    no-break space (U+00A0) are written as entities. *)
Fixpoint escape_text (s : string) : string :=
  match s with
  | "" => ""
  | String c r =>
      if Ascii.eqb c "&" then "&amp;" +:+ escape_text r
      else if Ascii.eqb c "<" then "&lt;" +:+ escape_text r
      else if Ascii.eqb c ">" then "&gt;" +:+ escape_text r
      else match r with
           | String c2 r2 =>
               if bool_decide (code c = 194 ∧ code c2 = 160)%N
               then "&nbsp;" +:+ escape_text r2
               else String c (escape_text r)
           | "" => String c ""
           end
  end.

(** [escapeHtml(str)]: the text is stored in a new element through
    [textContent] and read back through [innerHTML]. *)
Definition escapeHtml (str : JsVal) : Res string :=
  match str with
  | VUndef | VNull => Ok ""
  | _ => match ToString_checked str with
         | Ok text => Ok (escape_text text)
         | Throw e => Throw e
         end
  end.

(** The fields of a date that [formatDate] reads, in local time. *)
Record LocalTime := mkLocalTime {
  getMonth : Z;
  getDate : Z;
  getHours : Z;
  getMinutes : Z
}.

(** What [new Date(v)] comes to in the environment: an exception of the
    conversion of [v], an invalid date ([None]), or a date. *)
Definition Clock : Type := JsVal → Res (option LocalTime).

(** [n.toString().padStart(2, '0')]. *)
Definition pad2 (n : Z) : string :=
  let s := number_text n in
  if bool_decide (String.length s < 2)%nat then "0" +:+ s else s.

Definition formatDate (clock : Clock) (isoStr : JsVal) : Res string :=
  if negb (truthy isoStr) then Ok ""
  else
    match clock isoStr with
    | Throw e => Throw e
    | Ok None => Ok "NaN/NaN NaN:NaN"
    | Ok (Some d) =>
        Ok (pad2 (getMonth d + 1) +:+ "/" +:+ pad2 (getDate d) +:+ " "
            +:+ pad2 (getHours d) +:+ ":" +:+ pad2 (getMinutes d))
    end.

(** [s.replace(/'/g, "&#39;")]. *)
Fixpoint replace_apostrophes (s : string) : string :=
  match s with
  | "" => ""
  | String c r =>
      if Ascii.eqb c "'" then "&#39;" +:+ replace_apostrophes r
      else String c (replace_apostrophes r)
  end.

(** The labels of [renderRecordList]. *)
Definition listLabels : JsVal :=
  VObj [ ("chord_sheet", VStr "🎤 簡譜");
         ("fingerstyle_tab", VStr "🎸 指彈譜");
         ("piano_sheet", VStr "🎹 鋼琴譜") ].

Definition empty_state (isFavorites : bool) : string :=
  html "
      <div class=`empty-state`>
        <span class=`empty-icon`>"
  +:+ (if isFavorites then "⭐" else "🎵") +:+
  "</span>
        <p>"
  +:+ (if isFavorites then "還沒有收藏" else "還沒有轉譜記錄") +:+
  html "</p>
        <p class=`empty-hint`>"
  +:+ (if isFavorites then "點擊樂譜旁的 ☆ 即可收藏" else "試試貼上一個 YouTube 連結吧！") +:+
  "</p>
      </div>".

(** The markup of a card, from the texts of its five substitutions. *)
Definition card_markup (json title date label tempo : string) : string :=
  html "
    <div class=`record-card` onclick='viewRecord("
  +:+ json +:+
  html ")'>
      <div class=`record-card-header`>
        <span class=`record-card-title`>"
  +:+ title +:+
  html "</span>
        <span class=`record-card-date`>"
  +:+ date +:+
  html "</span>
      </div>
      <div class=`record-card-meta`>
        <span class=`record-type-tag`>"
  +:+ label +:+
  html "</span>
        <span class=`meta-tag`>♩ = "
  +:+ tempo +:+
  "</span>
      </div>
    </div>
  ".

(** [records.length], for a value that is neither [null] nor
    [undefined]. *)
Definition length_of (records : JsVal) : JsVal :=
  match records with
  | VArr l => VNum (Z.of_nat (length l))
  | VStr s => VNum (Z.of_nat (js_length s))
  | _ => field records "length"
  end.

(** The card of one record: the callback of [records.map]. *)
Definition record_card (clock : Clock) (record : JsVal) : Res string :=
  match JSON_stringify record with
  | None => Throw (TypeError_nullish "undefined" "replace")
  | Some text =>
      match get_prop record "title" with
      | Throw e => Throw e
      | Ok title =>
      match escapeHtml (js_or title (VStr "未知歌曲")) with
      | Throw e => Throw e
      | Ok shown_title =>
      match formatDate clock (field record "created_at") with
      | Throw e => Throw e
      | Ok date =>
      match ToString_checked (field record "output_type") with
      | Throw e => Throw e
      | Ok type =>
      match ToString_checked (js_or (field listLabels type) (VStr "樂譜")) with
      | Throw e => Throw e
      | Ok label =>
      match ToString_checked (js_or (field record "tempo") (VNum 120)) with
      | Throw e => Throw e
      | Ok tempo =>
          Ok (card_markup (replace_apostrophes text) shown_title date label tempo)
      end end end end end end
  end.

(** [records.map(record => ...)]. *)
Fixpoint record_cards (clock : Clock) (records : list JsVal) : Res (list string) :=
  match records with
  | [] => Ok []
  | record :: rest =>
      match record_card clock record with
      | Throw e => Throw e
      | Ok card =>
          match record_cards clock rest with
          | Throw e => Throw e
          | Ok cards => Ok (card :: cards)
          end
      end
  end.

(** What the browser reads off a markup: the text of the nodes that a
    markup assigned to [innerHTML] is parsed into. *)
Definition Markup : Type := string → string.

(** [x.innerHTML = markup]: the markup is kept, and the content of the
    element, hence its text, is replaced by what the markup is parsed
    into. *)
Definition written (read : Markup) (markup : string) (el : Element) : Element :=
  set_textContent_el (read markup) (set_attr_el "innerHTML" markup el).

Definition set_innerHTML (read : Markup) (id markup : string) : M unit :=
  update_el id "innerHTML" (written read markup).

Definition renderRecordList (clock : Clock) (read : Markup) (containerId : string)
    (records : JsVal) (isFavorites : bool) : M unit :=
  if negb (truthy records) || strict_equals (length_of records) (VNum 0) then
    set_innerHTML read containerId (empty_state isFavorites)
  else
    match records with
    | VArr l =>
        cards ← lift (record_cards clock l);
        set_innerHTML read containerId (join "" cards)
    | _ => throw (TypeError_not_a_function "records.map")
    end.

(** The records a failed request makes [loadHistory] fall back to. *)
Definition local_history : M JsVal :=
  text ← gets history_text;
  lift (JSON_parse text).

(** [fetch(url)] followed by [if (res.ok) records = await res.json()],
    from [records = []]. *)
Definition fetch_records (url : string) (o : FetchOutcome) : M JsVal :=
  res ← fetch url "GET" [] None o;
  if fst (res : bool * Body) then response_json (snd res) else mret (VArr []).

(** [loadHistory()]; [o] is what the environment answers to the
    request. *)
Definition loadHistory (clock : Clock) (read : Markup) (o : FetchOutcome) : M unit :=
  pages ← gets static_mode;
  records ←
    (if (pages : bool) then
       sheets ← gets allSheets;
       objects ← gets heap;
       mret (VArr ((λ l, default VUndef (objects !! l)) <$> sheets))
     else
       try_catch
         (base ← gets API_BASE; fetch_records (base +:+ "/api/history") o)
         (λ _, local_history));
  renderRecordList clock read "history-list" records false.

Definition loadFavorites (clock : Clock) (read : Markup) (o : FetchOutcome) : M unit :=
  pages ← gets static_mode;
  records ←
    (if (pages : bool) then getLocalFavorites
     else
       try_catch
         (base ← gets API_BASE; fetch_records (base +:+ "/api/favorites") o)
         (λ _, getLocalFavorites));
  renderRecordList clock read "favorites-list" records true.

(** [el.id] for the element held under [handle]: an element that has an
    id is held under it, any other one under a selector path, which has a
    space in it. *)
Definition id_of (handle : string) : string :=
  if includes " " handle then "" else handle.

(** [classList.toggle(c, force)]. *)
Definition token_force (c : string) (force : bool) : list string → list string :=
  if force then token_add c else token_remove c.

(** [switchTab(tabName)].  The list it starts loading is not awaited: an
    exception out of [loadHistory] or [loadFavorites] is the rejection of
    a promise nobody handles. *)
Definition switchTab (clock : Clock) (read : Markup) (o : FetchOutcome) (tabName : string)
    : M unit :=
  modify (set_document (fmap (λ btn,
    if bool_decide ("nav-tab" ∈ classList btn) then
      set_classList_el
        (token_force "active" (bool_decide (attrs btn !! "data-tab" = Some tabName))) btn
    else btn))) ;;
  modify (set_document (map_imap (λ handle section,
    Some (if bool_decide ("tab-content" ∈ classList section) then
            set_classList_el
              (token_force "active" (String.eqb (id_of handle) ("tab-" +:+ tabName)))
              section
          else section)))) ;;
  (if String.eqb tabName "history"
   then try_catch (loadHistory clock read o) (λ _, mret tt) else mret tt) ;;
  (if String.eqb tabName "favorites"
   then try_catch (loadFavorites clock read o) (λ _, mret tt) else mret tt).

Definition viewRecord (clock : Clock) (read : Markup) (o : FetchOutcome) (record : nat)
    : M unit :=
  modify (set_currentResult (Some record)) ;;
  displayResult record ;;
  switchTab clock read o "transcribe".

(** [classList.toggle(c)]. *)
Definition token_toggle (c : string) (l : list string) : list string :=
  if bool_decide (c ∈ l) then token_remove c l else l ++ [c].

Definition toggleAdvanced : M unit :=
  update_el "advanced-settings" "classList" (set_classList_el (token_toggle "hidden")) ;;
  update_el "advanced-arrow" "classList" (set_classList_el (token_toggle "rotated")).

(** The text that [escape_text] was applied to, read back from its
    result (at most [fuel] characters of it). *)
Fixpoint unescape_text (fuel : nat) (s : string) : string :=
  match fuel with
  | O => ""
  | S fuel =>
      match strip_prefix "&amp;" s with
      | Some r => String "&" (unescape_text fuel r)
      | None =>
      match strip_prefix "&lt;" s with
      | Some r => String "<" (unescape_text fuel r)
      | None =>
      match strip_prefix "&gt;" s with
      | Some r => String ">" (unescape_text fuel r)
      | None =>
      match strip_prefix "&nbsp;" s with
      | Some r => String "194" (String "160" (unescape_text fuel r))
      | None =>
      match s with
      | "" => ""
      | String c r => String c (unescape_text fuel r)
      end end end end end
  end.

(** The [innerHTML] last written to an element. *)
Definition innerHTML (w : World) (id : string) : option string :=
  document w !! id ≫= λ el, attrs el !! "innerHTML".

(** The records [loadHistory] and [loadFavorites] show when the page is
    not served statically: those of the answer, none when the answer is
    not ok, the stored ones when the request or the reading of the answer
    fails. *)
Definition answered_records (o : FetchOutcome) (stored : Res JsVal) : Res JsVal :=
  match o with
  | FetchResponse true (BodyJson v) => Ok v
  | FetchResponse false _ => Ok (VArr [])
  | FetchRejected _ | FetchResponse true (BodyInvalid _) => stored
  end.

(** The page after the two loops of [switchTab(tabName)]. *)
Definition tab_el (tabName handle : string) (el : Element) : Element :=
  let el1 :=
    if bool_decide ("nav-tab" ∈ classList el) then
      set_classList_el
        (token_force "active" (bool_decide (attrs el !! "data-tab" = Some tabName))) el
    else el in
  if bool_decide ("tab-content" ∈ classList el1) then
    set_classList_el
      (token_force "active" (String.eqb (id_of handle) ("tab-" +:+ tabName))) el1
  else el1.

(** The two containers that record lists are written into. *)
Definition list_ids : list string := ["history-list"; "favorites-list"].

(** What a record list leaves alone: the classes of the elements, the
    texts of those that are not list containers, the objects, the current
    result and the stored data. *)
Definition outside_lists (w : World) :=
  (classList <$> document w,
   textContent <$> filter (λ p, p.1 ∉ list_ids) (document w),
   heap w, currentResult w, localStorage w).

(** * Strings, JSON and encodings *)

(** ** Strings *)

Lemma string_app_cons x (a b : string) : String x a +:+ b = String x (a +:+ b).
Proof. reflexivity. Qed.

Lemma string_app_nil_l (a : string) : "" +:+ a = a.
Proof. reflexivity. Qed.

Lemma string_app_assoc (a b c : string) : (a +:+ b) +:+ c = a +:+ (b +:+ c).
Proof.
  induction a as [|x a IH]; [done|]. rewrite !string_app_cons. f_equal. apply IH.
Qed.

Lemma string_app_nil_r (a : string) : a +:+ "" = a.
Proof. induction a as [|x a IH]; [done|]. rewrite string_app_cons. f_equal. apply IH. Qed.

Lemma prefix_spec n s : String.prefix n s = true ↔ ∃ b, s = n +:+ b.
Proof.
  revert s. induction n as [|x n IH]; intros s; cbn.
  - split; [intros _; by exists s|]. intros _. by destruct s.
  - destruct s as [|y s]; cbn.
    + split; [done|]. intros [b Hb]. by rewrite string_app_cons in Hb.
    + destruct (Ascii.ascii_dec x y) as [->|Hne].
      * rewrite IH. split; intros [b Hb]; exists b.
        -- rewrite string_app_cons. congruence.
        -- rewrite string_app_cons in Hb. congruence.
      * split; [done|]. intros [b Hb]. rewrite string_app_cons in Hb. congruence.
Qed.

Lemma includes_nil n : includes n "" = String.prefix n "" || false.
Proof. reflexivity. Qed.

Lemma includes_cons n y s :
  includes n (String y s) = String.prefix n (String y s) || includes n s.
Proof. reflexivity. Qed.

Lemma includes_spec n s : includes n s = true ↔ ∃ a b, s = a +:+ n +:+ b.
Proof.
  induction s as [|y s IH].
  - rewrite includes_nil, orb_false_r, prefix_spec. split.
    + intros [b Hb]. by exists "", b.
    + intros (a & b & Hab). destruct a; [by exists b|done].
  - rewrite includes_cons, orb_true_iff, IH, prefix_spec. split.
    + intros [[b Hb]|(a & b & Hab)].
      * by exists "", b.
      * exists (String y a), b. rewrite string_app_cons. by rewrite Hab.
    + intros (a & b & Hab). destruct a as [|x a].
      * left. by exists b.
      * right. exists a, b. rewrite string_app_cons in Hab. congruence.
Qed.

Lemma trimStart_suffix_aux n s :
  (String.length s < n)%nat → ∃ a, s = a +:+ trimStart s.
Proof.
  revert s. induction n as [|n IH]; intros s Hlen; [lia|].
  destruct s as [|c1 r1]; [by exists ""|]. cbn in *.
  destruct (is_ws1 c1).
  { destruct (IH r1) as [a Ha]; [lia|]. exists (String c1 a).
    rewrite string_app_cons. by rewrite <- Ha. }
  destruct r1 as [|c2 r2]; [by exists ""|]. cbn in *.
  destruct (is_ws2 c1 c2).
  { destruct (IH r2) as [a Ha]; [lia|].
    exists (String c1 (String c2 a)). rewrite !string_app_cons. by rewrite <- Ha. }
  destruct r2 as [|c3 r3]; [by exists ""|]. cbn in *.
  destruct (is_ws3 c1 c2 c3); [|by exists ""].
  destruct (IH r3) as [a Ha]; [lia|].
  exists (String c1 (String c2 (String c3 a))). rewrite !string_app_cons. by rewrite <- Ha.
Qed.

Lemma trimStart_suffix s : ∃ a, s = a +:+ trimStart s.
Proof. apply (trimStart_suffix_aux (S (String.length s))). lia. Qed.

Lemma trimEnd_prefix s : ∃ b, s = trimEnd s +:+ b.
Proof.
  induction s as [|c r [b Hb]]; [by exists ""|].
  change (trimEnd (String c r))
    with (if is_ws_char (String c (trimEnd r)) then "" else String c (trimEnd r)).
  destruct (is_ws_char _); [by eexists|].
  exists b. rewrite string_app_cons. by rewrite <- Hb.
Qed.

Lemma includes_trim n s : includes n (trim s) = true → includes n s = true.
Proof.
  rewrite !includes_spec. intros (a & b & Hab).
  destruct (trimStart_suffix s) as [x Hx].
  destruct (trimEnd_prefix (trimStart s)) as [y Hy].
  unfold trim in Hab. rewrite Hab in Hy. rewrite Hy in Hx.
  exists (x +:+ a), (b +:+ y). rewrite Hx. by rewrite !string_app_assoc.
Qed.

Lemma includes_trim_false n s : includes n s = false → includes n (trim s) = false.
Proof.
  intros H. destruct (includes n (trim s)) eqn:E; [|done].
  apply includes_trim in E. congruence.
Qed.

(** ** JSON: parsing what [JSON.stringify] writes *)

Lemma JsVal_ind' (P : JsVal → Prop) :
  P VUndef → P VNull → (∀ b, P (VBool b)) → (∀ n, P (VNum n)) → (∀ s, P (VStr s)) →
  (∀ l, Forall P l → P (VArr l)) →
  (∀ ps, Forall (λ p, P (snd p)) ps → P (VObj ps)) →
  (∀ name, P (VFun name)) →
  ∀ v, P v.
Proof.
  intros Hu Hn Hb Hz Hs Ha Ho Hf.
  fix IH 1. intros [| | b | n | s | l | ps | name].
  - exact Hu.
  - exact Hn.
  - apply Hb.
  - apply Hz.
  - apply Hs.
  - apply Ha. induction l as [|x l IHl]; constructor; [apply IH|exact IHl].
  - apply Ho. induction ps as [|[k x] ps IHps]; constructor; [apply IH|exact IHps].
  - apply Hf.
Qed.

Lemma string_length_app (a b : string) :
  String.length (a +:+ b) = (String.length a + String.length b)%nat.
Proof. induction a as [|x a IH]; [done|]. rewrite string_app_cons. cbn. by rewrite IH. Qed.

(** *** String literals *)

Lemma parse_escape c s :
  parse_string_body (json_escape c +:+ s) = prepend (String c "") (parse_string_body s).
Proof.
  destruct c as [[] [] [] [] [] [] [] []]; reflexivity.
Qed.

Lemma prepend_Some {A} t u (r : A) : prepend t (Some (u, r)) = Some (t +:+ u, r).
Proof. reflexivity. Qed.

Lemma parse_quoted s rest :
  parse_string_body (json_escape_all s +:+ String dquote rest) = Some (s, rest).
Proof.
  induction s as [|c s IH]; [done|].
  change (json_escape_all (String c s)) with (json_escape c +:+ json_escape_all s).
  by rewrite string_app_assoc, parse_escape, IH.
Qed.

(** *** Numbers *)


Lemma delimited_no_digit rest : delimited rest → no_digit_start rest.
Proof. destruct rest as [|c r]; [done|]. by intros [->|[->| ->]]. Qed.

Lemma span_digits_uint d rest :
  no_digit_start rest →
  span_digits (NilEmpty.string_of_uint d +:+ rest) = (NilEmpty.string_of_uint d, rest).
Proof.
  intros Hrest. induction d as [|d IH|d IH|d IH|d IH|d IH|d IH|d IH|d IH|d IH|d IH];
    cbn [NilEmpty.string_of_uint];
    rewrite ?string_app_cons, ?string_app_nil_l;
    try (cbn [span_digits]; change (is_digit _) with true; cbv iota; by rewrite IH).
  destruct rest as [|c r]; [done|]. cbn in *. by rewrite Hrest.
Qed.

Lemma unorm_D0 d d' : Decimal.unorm d = Decimal.D0 d' → d' = Decimal.Nil.
Proof.
  induction d; cbn; try discriminate; auto. by intros [= <-].
Qed.

Lemma to_uint_no_leading_zero p d : Pos.to_uint p ≠ Decimal.D0 d.
Proof.
  intros E.
  assert (Hn : Pos.to_uint p = Decimal.unorm (Pos.to_uint p)).
  { rewrite <- (DecimalN.Unsigned.to_of (Pos.to_uint p)).
    unfold N.of_uint. rewrite DecimalPos.Unsigned.of_to. reflexivity. }
  rewrite E in Hn. symmetry in Hn. pose proof (unorm_D0 _ _ Hn) as ->.
  by apply (DecimalPos.Unsigned.to_uint_nonzero p).
Qed.


Lemma delimited_tail_ok rest : delimited rest → tail_ok rest.
Proof. destruct rest as [|c r]; [done|]. by intros [->|[->| ->]]. Qed.

Lemma tail_ok_no_digit rest : tail_ok rest → no_digit_start rest.
Proof. destruct rest; [done|]. by intros [? _]. Qed.

Lemma parse_number_tail {A} rest (a b : A) :
  tail_ok rest →
  match rest with
  | String "." _ | String "e" _ | String "E" _ => a
  | _ => b
  end = b.
Proof.
  destruct rest as [|c r]; [done|]. intros (_ & H1 & H2 & H3).
  destruct c as [[] [] [] [] [] [] [] []]; done.
Qed.

Lemma parse_digits_pos p rest (neg : bool) :
  tail_ok rest → exact_integer (if neg then Z.neg p else Z.pos p) = true →
  (let '(ds, rest') := span_digits (NilEmpty.string_of_uint (Pos.to_uint p) +:+ rest) in
   match ds with
   | "" => None
   | String "0" (String _ _) => None
   | _ =>
       match rest' with
       | String "." _ | String "e" _ | String "E" _ => None
       | _ =>
           match NilEmpty.uint_of_string ds with
           | Some d =>
               let n := (if neg then - Z.of_uint d else Z.of_uint d)%Z in
               if exact_integer n then Some (n, rest') else None
           | None => None
           end
       end
   end) = Some ((if neg then Z.neg p else Z.pos p), rest).
Proof.
  intros Hrest Hexact. rewrite span_digits_uint by by apply tail_ok_no_digit.
  pose proof (DecimalPos.Unsigned.of_to p) as Hof.
  pose proof (DecimalPos.Unsigned.to_uint_nonnil p) as Hnil.
  pose proof (to_uint_no_leading_zero p) as Hzero.
  assert (Hval : Z.of_uint (Pos.to_uint p) = Z.pos p).
  { unfold Z.of_uint. by rewrite Hof. }
  pose proof (NilEmpty.usu (Pos.to_uint p)) as Husu.
  destruct (Pos.to_uint p) as [|d|d|d|d|d|d|d|d|d|d]; try done;
    try (by destruct (Hzero d));
    cbn [NilEmpty.string_of_uint] in *; cbv iota;
    rewrite parse_number_tail by done; rewrite Husu, Hval; lazy zeta;
    destruct neg; change (- Z.pos p)%Z with (Z.neg p); by rewrite Hexact.
Qed.

Lemma parse_number_print n rest :
  tail_ok rest → exact_integer n = true →
  parse_number (string_of_Z n +:+ rest) = Some (n, rest).
Proof.
  intros Hrest Hexact. destruct n as [|p|p].
  - change (string_of_Z 0 +:+ rest) with (String "0" rest).
    unfold parse_number. cbv iota.
    cbn [span_digits]. change (is_digit "0") with true. cbv iota.
    destruct rest as [|c r].
    + reflexivity.
    + destruct Hrest as (Hd & H1 & H2 & H3). cbn [span_digits]. rewrite Hd.
      destruct c as [[] [] [] [] [] [] [] []]; done.
  - pose proof (DecimalPos.Unsigned.to_uint_nonnil p) as Hnil.
    replace (string_of_Z (Z.pos p))
      with (NilEmpty.string_of_uint (Pos.to_uint p))
      by (unfold string_of_Z; cbn; by destruct (Pos.to_uint p)).
    assert (Hhead : ∃ c r, NilEmpty.string_of_uint (Pos.to_uint p) = String c r
                           ∧ is_digit c = true).
    { destruct (Pos.to_uint p); [done|..]; by do 2 eexists. }
    destruct Hhead as (c & r & Hcr & Hc).
    pose proof (parse_digits_pos p rest false Hrest Hexact) as Hparse.
    unfold parse_number.
    rewrite Hcr in *. rewrite string_app_cons in *.
    destruct c as [[] [] [] [] [] [] [] []]; try discriminate Hc; exact Hparse.
  - pose proof (DecimalPos.Unsigned.to_uint_nonnil p) as Hnil.
    replace (string_of_Z (Z.neg p))
      with (String "-" (NilEmpty.string_of_uint (Pos.to_uint p)))
      by (unfold string_of_Z; cbn; by destruct (Pos.to_uint p)).
    rewrite string_app_cons. unfold parse_number. cbv iota.
    exact (parse_digits_pos p rest true Hrest Hexact).
Qed.

(** *** Values *)



Lemma string_of_Z_head n : ∃ c r, string_of_Z n = String c r ∧ number_start c = true.
Proof.
  unfold string_of_Z. destruct n as [|p|p]; cbn.
  - by do 2 eexists.
  - pose proof (DecimalPos.Unsigned.to_uint_nonnil p).
    destruct (Pos.to_uint p); [done|..]; by do 2 eexists.
  - by do 2 eexists.
Qed.

Lemma number_start_value_start c : number_start c = true → value_start c = true.
Proof. destruct c as [[] [] [] [] [] [] [] []]; by vm_compute. Qed.

Lemma number_text_exact n : exact_integer n = true → number_text n = string_of_Z n.
Proof. intros H. unfold number_text. by rewrite H. Qed.

Lemma json_text_head v :
  is_json v = true → ∃ c r, json_text v = String c r ∧ value_start c = true.
Proof.
  destruct v as [| | [] | n | s | l | ps | name]; try discriminate; intros Hj;
    try (by do 2 eexists).
  destruct (string_of_Z_head n) as (c & r & Hcr & Hc).
  exists c, r. split; [|by apply number_start_value_start].
  change (json_text (VNum n)) with (number_text n). by rewrite number_text_exact.
Qed.

Lemma skip_ws_value_start c r : value_start c = true → skip_ws (String c r) = String c r.
Proof.
  unfold value_start. cbn [skip_ws]. intros H.
  apply andb_true_iff in H as [H _]. apply andb_true_iff in H as [H _].
  apply negb_true_iff in H. by rewrite H.
Qed.

Lemma parse_value_number f c r :
  number_start c = true →
  parse_value (S f) (String c r)
  = match parse_number (String c r) with
    | Some (n, r') => Some (VNum n, r')
    | None => None
    end.
Proof.
  intros Hc. destruct c as [[] [] [] [] [] [] [] []]; try discriminate Hc; reflexivity.
Qed.

Lemma skip_ws_delim c r :
  c = ","%char ∨ c = "]"%char ∨ c = "}"%char ∨ c = ":"%char →
  skip_ws (String c r) = String c r.
Proof. by intros [->|[->|[->| ->]]]. Qed.


Lemma json_text_arr l :
  json_text (VArr l) = "[" +:+ join "," (map json_text l) +:+ "]".
Proof. reflexivity. Qed.

Lemma join_cons2 sep x y l : join sep (x :: y :: l) = x +:+ sep +:+ join sep (y :: l).
Proof. reflexivity. Qed.

Lemma parse_elements_print l :
  l ≠ [] →
  Forall parses l → Forall (λ x, is_json x = true) l →
  ∀ rest fuel,
    (String.length (join "," (map json_text l)) + 1 < fuel)%nat →
    parse_elements fuel (join "," (map json_text l) +:+ String "]" rest) = Some (l, rest).
Proof.
  induction l as [|x l IH]; [done|]. intros _ Hp Hj rest fuel Hfuel.
  apply Forall_cons in Hp as [Hx Hp]. apply Forall_cons in Hj as [Hjx Hj].
  destruct (json_text_head x Hjx) as (c & r & Hcr & _).
  destruct fuel as [|f]; [lia|]. cbn [parse_elements].
  destruct l as [|y l].
  - cbn [map join] in *. rewrite Hx; [|by right; left|lia]. reflexivity.
  - change (map json_text (x :: y :: l))
      with (json_text x :: json_text y :: map json_text l) in *.
    rewrite join_cons2 in *. rewrite !string_length_app in Hfuel.
    rewrite !string_app_assoc. rewrite string_app_cons, string_app_nil_l.
    rewrite Hx; [|by left|lia].
    rewrite skip_ws_delim by auto.
    cbv iota. change (Ascii.eqb "," ",") with true. cbv iota.
    rewrite Hcr in Hfuel. cbn [String.length] in Hfuel.
    rewrite IH; [done|done|done|done|]. cbn [map]. lia.
Qed.


Lemma stringify_json v : is_json v = true → JSON_stringify v = Some (json_text v).
Proof. by destruct v as [| | [] | | | | |]. Qed.

Lemma omap_member_texts ps :
  Forall (λ p, is_json (snd p) = true) ps →
  omap (λ p : string * JsVal,
          (λ t, QuoteJSONString (fst p) +:+ ":" +:+ t) <$> JSON_stringify (snd p)) ps
  = map member_text ps.
Proof.
  induction 1 as [|p ps Hp _ IH]; [done|].
  cbn [omap list_omap map]. rewrite (stringify_json _ Hp). cbn [fmap option_fmap option_map].
  f_equal. exact IH.
Qed.

Lemma json_text_obj ps :
  Forall (λ p, is_json (snd p) = true) ps →
  json_text (VObj ps) = "{" +:+ join "," (map member_text ps) +:+ "}".
Proof.
  intros H. unfold json_text. cbn [JSON_stringify default].
  by rewrite omap_member_texts.
Qed.

Lemma member_text_app p rest :
  member_text p +:+ rest
  = String dquote (json_escape_all (fst p)
                   +:+ String dquote (String ":" (json_text (snd p) +:+ rest))).
Proof.
  unfold member_text, QuoteJSONString.
  rewrite !string_app_cons, !string_app_assoc.
  by rewrite !string_app_cons, !string_app_nil_l.
Qed.

Lemma member_text_length p :
  (String.length (json_text (snd p)) + 3 ≤ String.length (member_text p))%nat.
Proof.
  unfold member_text, QuoteJSONString.
  rewrite !string_length_app. cbn [String.length]. rewrite string_length_app.
  cbn [String.length]. lia.
Qed.

Lemma parse_members_print ps :
  ps ≠ [] →
  Forall (λ p, parses (snd p)) ps → Forall (λ p, is_json (snd p) = true) ps →
  ∀ rest fuel,
    (String.length (join "," (map member_text ps)) + 1 < fuel)%nat →
    parse_members fuel (join "," (map member_text ps) +:+ String "}" rest) = Some (ps, rest).
Proof.
  induction ps as [|[k v] ps IH]; [done|]. intros _ Hp Hj rest fuel Hfuel.
  apply Forall_cons in Hp as [Hx Hp]. apply Forall_cons in Hj as [Hjx Hj].
  cbn [snd] in Hx, Hjx.
  pose proof (member_text_length (k, v)) as Hlen. cbn [snd] in Hlen.
  destruct fuel as [|f]; [lia|]. cbn [parse_members].
  destruct ps as [|q ps].
  - cbn [map join] in *. rewrite member_text_app. cbn [fst snd].
    change (skip_ws (String dquote ?r)) with (String dquote r). cbv iota.
    change (Ascii.eqb dquote dquote) with true. cbv iota.
    rewrite parse_quoted. rewrite skip_ws_delim by auto.
    change (Ascii.eqb ":" ":") with true. cbv iota.
    rewrite Hx; [|by right; right|lia]. reflexivity.
  - change (map member_text ((k, v) :: q :: ps))
      with (member_text (k, v) :: member_text q :: map member_text ps) in *.
    rewrite join_cons2 in *. rewrite !string_length_app in Hfuel.
    rewrite !string_app_assoc. rewrite member_text_app. cbn [fst snd].
    change (skip_ws (String dquote ?r)) with (String dquote r). cbv iota.
    change (Ascii.eqb dquote dquote) with true. cbv iota.
    rewrite parse_quoted. rewrite skip_ws_delim by auto.
    change (Ascii.eqb ":" ":") with true. cbv iota.
    rewrite string_app_cons, string_app_nil_l.
    rewrite Hx; [|by left|lia].
    rewrite skip_ws_delim by auto.
    change (Ascii.eqb "," ",") with true. cbv iota.
    rewrite IH; [done|done|done|done|]. cbn [map String.length] in *. lia.
Qed.

Lemma obj_set_fresh k v acc :
  k ∉ map fst acc → obj_set k v acc = (acc ++ [(k, v)])%list.
Proof.
  induction acc as [|[k' v'] acc IH]; [done|]. cbn. intros Hk.
  apply not_elem_of_cons in Hk as [Hne Hk].
  destruct (String.eqb_spec k k'); [done|]. by rewrite IH.
Qed.

Lemma obj_of_members_nodup ps : NoDup (map fst ps) → obj_of_members ps = ps.
Proof.
  unfold obj_of_members.
  enough (∀ acc, NoDup (map fst (acc ++ ps)%list) →
            fold_left (λ acc p, obj_set (fst p) (snd p) acc) ps acc = (acc ++ ps)%list)
    as H by (intros Hnd; by apply (H [])).
  induction ps as [|[k v] ps IH]; intros acc Hnd; cbn.
  - by rewrite app_nil_r.
  - rewrite obj_set_fresh.
    + rewrite IH; rewrite <- app_assoc; done.
    + rewrite map_app in Hnd. apply NoDup_app in Hnd as (_ & Hdisj & _).
      intros Hin. apply (Hdisj k Hin). cbn. left.
Qed.

Lemma forallb_Forall_true {A} (f : A → bool) l :
  forallb f l = true → Forall (λ x, f x = true) l.
Proof.
  induction l as [|x l IH]; cbn; [constructor|].
  intros H. apply andb_true_iff in H as [Hx Hl]. constructor; auto.
Qed.

Lemma is_json_arr l : is_json (VArr l) = true → Forall (λ x, is_json x = true) l.
Proof. apply forallb_Forall_true. Qed.

Lemma is_json_obj ps :
  is_json (VObj ps) = true →
  NoDup (map fst ps) ∧ Forall (λ p, is_json (snd p) = true) ps.
Proof.
  intros H. apply andb_true_iff in H as [Hnd H].
  apply bool_decide_eq_true in Hnd. split; [done|].
  by apply (forallb_Forall_true (λ p, is_json (snd p))).
Qed.

(** Parsing the text of a JSON value gives the value back. *)
Lemma parse_value_print v : is_json v = true → parses v.
Proof.
  induction v as [| | b | n | s | l IH | ps IH | name] using JsVal_ind';
    try discriminate; intros Hj rest fuel Hrest Hfuel;
    (destruct fuel as [|f]; [lia|]).
  - reflexivity.
  - by destruct b.
  - destruct (string_of_Z_head n) as (c & r & Hcr & Hc).
    change (json_text (VNum n)) with (number_text n) in *.
    rewrite (number_text_exact n Hj) in *.
    assert (Hp := parse_number_print n rest (delimited_tail_ok _ Hrest) Hj).
    rewrite Hcr in *. rewrite string_app_cons in *.
    by rewrite parse_value_number, Hp.
  - change (json_text (VStr s)) with (QuoteJSONString s). unfold QuoteJSONString.
    rewrite string_app_cons, string_app_assoc, string_app_cons, string_app_nil_l.
    cbn [parse_value]. change (skip_ws (String dquote ?r)) with (String dquote r).
    cbv iota. change (Ascii.eqb dquote dquote) with true. cbv iota.
    by rewrite parse_quoted.
  - assert (Hjl := is_json_arr l Hj).
    assert (Hpl : Forall parses l).
    { apply Forall_forall. intros x Hx.
      apply (proj1 (Forall_forall _ _) IH x Hx), (proj1 (Forall_forall _ _) Hjl x Hx). }
    rewrite json_text_arr in *. destruct l as [|x l]; [reflexivity|].
    rewrite !string_length_app in Hfuel. cbn [String.length] in Hfuel.
    rewrite !string_app_assoc, string_app_cons, !string_app_nil_l, string_app_cons,
      string_app_nil_l.
    cbn [parse_value]. change (skip_ws (String "[" ?r)) with (String "[" r).
    cbv iota. change (Ascii.eqb "[" dquote) with false.
    change (Ascii.eqb "[" "[") with true. cbv iota.
    rewrite parse_elements_print by (done || lia).
    apply Forall_cons in Hjl as [Hjx _].
    destruct (json_text_head x Hjx) as (c & r & Hcr & Hc).
    destruct l as [|y l].
    + cbn [map join]. rewrite Hcr, string_app_cons, skip_ws_value_start by done.
      unfold value_start in Hc. apply andb_true_iff in Hc as [Hc _].
      apply andb_true_iff in Hc as [_ Hc]. apply negb_true_iff in Hc. by rewrite Hc.
    + change (map json_text (x :: y :: l))
        with (json_text x :: json_text y :: map json_text l).
      rewrite join_cons2, Hcr, !string_app_cons, skip_ws_value_start by done.
      unfold value_start in Hc. apply andb_true_iff in Hc as [Hc _].
      apply andb_true_iff in Hc as [_ Hc]. apply negb_true_iff in Hc. by rewrite Hc.
  - destruct (is_json_obj ps Hj) as [Hnd Hjl].
    assert (Hpl : Forall (λ p, parses (snd p)) ps).
    { apply Forall_forall. intros x Hx.
      apply (proj1 (Forall_forall _ _) IH x Hx), (proj1 (Forall_forall _ _) Hjl x Hx). }
    rewrite json_text_obj in * by done. destruct ps as [|[k x] ps]; [reflexivity|].
    rewrite !string_length_app in Hfuel. cbn [String.length] in Hfuel.
    rewrite !string_app_assoc, string_app_cons, !string_app_nil_l, string_app_cons,
      string_app_nil_l.
    cbn [parse_value]. change (skip_ws (String "{" ?r)) with (String "{" r).
    cbv iota. change (Ascii.eqb "{" dquote) with false.
    change (Ascii.eqb "{" "[") with false.
    change (Ascii.eqb "{" "{") with true. cbv iota.
    rewrite parse_members_print by (done || lia).
    rewrite obj_of_members_nodup by done.
    destruct ps as [|q ps].
    + cbn [map join]. by rewrite member_text_app.
    + change (map member_text ((k, x) :: q :: ps))
        with (member_text (k, x) :: member_text q :: map member_text ps).
      by rewrite join_cons2, !string_app_assoc, member_text_app.
Qed.

Lemma skip_ws_nil : skip_ws "" = "".
Proof. reflexivity. Qed.

(** [JSON.parse(JSON.stringify(v))] is [v], for every JSON value [v]. *)
Lemma JSON_parse_stringify v :
  is_json v = true → JSON_parse (json_text v) = Ok v.
Proof.
  intros Hj. unfold JSON_parse.
  pose proof (parse_value_print v Hj "" (S (String.length (json_text v))) I) as H.
  rewrite string_app_nil_r in H. rewrite H by lia. reflexivity.
Qed.

(** *** What the parser produces is a JSON value *)

Lemma obj_set_keys k v ps :
  map fst (obj_set k v ps)
  = if bool_decide (k ∈ map fst ps) then map fst ps else (map fst ps ++ [k])%list.
Proof.
  induction ps as [|[k' v'] ps IH]; [done|]. cbn.
  destruct (String.eqb_spec k k') as [->|Hne].
  - by rewrite bool_decide_eq_true_2 by left.
  - cbn. rewrite IH. case_bool_decide as Hin.
    + by rewrite bool_decide_eq_true_2 by by right.
    + rewrite bool_decide_eq_false_2; [done|]. by intros [?|?]%elem_of_cons.
Qed.

Lemma obj_set_NoDup k v ps : NoDup (map fst ps) → NoDup (map fst (obj_set k v ps)).
Proof.
  intros H. rewrite obj_set_keys. case_bool_decide as Hin; [done|].
  apply NoDup_app. split; [done|]. split; [|apply NoDup_singleton].
  intros x Hx ->%list_elem_of_singleton. done.
Qed.

Lemma obj_set_values (P : JsVal → Prop) k v ps :
  P v → Forall (λ p, P (snd p)) ps → Forall (λ p, P (snd p)) (obj_set k v ps).
Proof.
  intros Hv. induction 1 as [|[k' v'] ps Hp Hps IH]; cbn.
  - by repeat constructor.
  - destruct (String.eqb k k'); constructor; auto.
Qed.

Lemma obj_of_members_json ms :
  Forall (λ p, is_json (snd p) = true) ms → is_json (VObj (obj_of_members ms)) = true.
Proof.
  intros H. unfold obj_of_members.
  enough (∀ acc, NoDup (map fst acc) → Forall (λ p, is_json (snd p) = true) acc →
            let r := fold_left (λ acc p, obj_set (fst p) (snd p) acc) ms acc in
            NoDup (map fst r) ∧ Forall (λ p, is_json (snd p) = true) r) as Hgen.
  { destruct (Hgen [] (NoDup_nil_2) (Forall_nil_2 _)) as [Hnd Hall].
    cbn [is_json]. apply andb_true_iff. split; [by apply bool_decide_eq_true|].
    apply forallb_forall. intros p Hp.
    apply (proj1 (Forall_forall _ _) Hall). by apply list_elem_of_In. }
  induction H as [|[k v] ms Hv _ IH]; intros acc Hnd Hacc; [done|].
  cbn. apply IH; [by apply obj_set_NoDup|by apply (obj_set_values (λ x, is_json x = true))].
Qed.

Lemma keyword_json rest v s r x :
  is_json v = true → keyword rest v s = Some (x, r) → is_json x = true.
Proof. unfold keyword. intros Hv. destruct (strip_prefix rest s); by intros [= <- _]. Qed.

Lemma parse_number_exact s n t : parse_number s = Some (n, t) → exact_integer n = true.
Proof.
  unfold parse_number.
  destruct (match s with String "-" r => (true, r) | _ => (false, s) end) as [neg s1].
  destruct (span_digits s1) as [ds rest].
  set (read := match rest with
               | String "." _ | String "e" _ | String "E" _ => None
               | _ => match NilEmpty.uint_of_string ds with
                      | Some d =>
                          let n := (if neg then - Z.of_uint d else Z.of_uint d)%Z in
                          if exact_integer n then Some (n, rest) else None
                      | None => None
                      end
               end).
  assert (Hread : read = Some (n, t) → exact_integer n = true).
  { unfold read. intros H.
    assert (Hd : match NilEmpty.uint_of_string ds with
                 | Some d =>
                     let n := (if neg then - Z.of_uint d else Z.of_uint d)%Z in
                     if exact_integer n then Some (n, rest) else None
                 | None => None
                 end = Some (n, t)).
    { destruct rest as [|c r]; [exact H|].
      destruct c as [[] [] [] [] [] [] [] []]; first [exact H | discriminate H]. }
    destruct (NilEmpty.uint_of_string ds) as [d|]; [|done]. lazy zeta in Hd.
    destruct (exact_integer _) eqn:E; [|done]. by injection Hd as <- _. }
  destruct ds as [|c [|c' r]]; [done| |].
  - destruct c as [[] [] [] [] [] [] [] []]; exact Hread.
  - destruct c as [[] [] [] [] [] [] [] []]; first [exact Hread | done].
Qed.

Lemma parser_json fuel :
  (∀ s v r, parse_value fuel s = Some (v, r) → is_json v = true)
  ∧ (∀ s l r, parse_elements fuel s = Some (l, r) → Forall (λ x, is_json x = true) l)
  ∧ (∀ s ms r, parse_members fuel s = Some (ms, r) →
       Forall (λ p, is_json (snd p) = true) ms).
Proof.
  induction fuel as [|f (IHv & IHe & IHm)]; [done|]. repeat split.
  - intros s v r. cbn [parse_value].
    destruct (skip_ws s) as [|c t]; [done|].
    destruct (Ascii.eqb c dquote).
    { destruct (parse_string_body t) as [[u t']|]; by intros [= <- _]. }
    destruct (Ascii.eqb c "[").
    { destruct (skip_ws t) as [|c' t']; [done|].
      destruct (Ascii.eqb c' "]"); [by intros [= <- _]|].
      destruct (parse_elements f t) as [[l t'']|] eqn:E; [|done].
      intros [= <- _]. cbn [is_json]. apply forallb_forall. intros x Hx.
      apply (proj1 (Forall_forall _ _) (IHe _ _ _ E)). by apply list_elem_of_In. }
    destruct (Ascii.eqb c "{").
    { destruct (skip_ws t) as [|c' t']; [done|].
      destruct (Ascii.eqb c' "}"); [by intros [= <- _]|].
      destruct (parse_members f t) as [[ms t'']|] eqn:E; [|done].
      intros [= <- _]. apply obj_of_members_json. eauto. }
    destruct (Ascii.eqb c "n"); [by apply keyword_json|].
    destruct (Ascii.eqb c "t"); [by apply keyword_json|].
    destruct (Ascii.eqb c "f"); [by apply keyword_json|].
    destruct (parse_number _) as [[n t']|] eqn:En; [|done]. intros [= <- _].
    exact (parse_number_exact _ _ _ En).
  - intros s l r. cbn [parse_elements].
    destruct (parse_value f s) as [[v t]|] eqn:Ev; [|done].
    destruct (skip_ws t) as [|c t']; [done|].
    destruct (Ascii.eqb c ",").
    { destruct (parse_elements f t') as [[l' t'']|] eqn:E; [|done].
      intros [= <- _]. constructor; eauto. }
    destruct (Ascii.eqb c "]"); [|done].
    intros [= <- _]. repeat constructor. eauto.
  - intros s ms r. cbn [parse_members].
    destruct (skip_ws s) as [|q t]; [done|].
    destruct (Ascii.eqb q dquote); [|done].
    destruct (parse_string_body t) as [[k t1]|]; [|done].
    destruct (skip_ws t1) as [|c t2]; [done|].
    destruct (Ascii.eqb c ":"); [|done].
    destruct (parse_value f t2) as [[v t3]|] eqn:Ev; [|done].
    destruct (skip_ws t3) as [|c' t4]; [done|].
    destruct (Ascii.eqb c' ",").
    { destruct (parse_members f t4) as [[ms' t5]|] eqn:E; [|done].
      intros [= <- _]. constructor; cbn; eauto. }
    destruct (Ascii.eqb c' "}"); [|done].
    intros [= <- _]. repeat constructor. cbn. eauto.
Qed.

(** [JSON.parse] produces JSON values only. *)
Lemma JSON_parse_json s v : JSON_parse s = Ok v → is_json v = true.
Proof.
  unfold JSON_parse.
  destruct (parse_value _ s) as [[x r]|] eqn:E; [|done].
  destruct (String.eqb _ _); [|done]. intros [= <-].
  eapply (proj1 (parser_json _)), E.
Qed.

(** ** URI components *)

Lemma code_bound c : (code c < 256)%N.
Proof. apply N_ascii_bounded. Qed.

Lemma ascii_of_code c : ascii_of_N (code c) = c.
Proof. apply ascii_N_embedding. Qed.

Lemma hex_val_digit upper n : (n < 16)%N → hex_val (hex_digit upper n) = Some n.
Proof.
  intros Hn.
  assert (Hcases : n ∈ [0;1;2;3;4;5;6;7;8;9;10;11;12;13;14;15]%N).
  { destruct n as [|p]; [set_solver|].
    do 4 (destruct p as [p|p|]; try lia; try set_solver). }
  repeat (apply elem_of_cons in Hcases as [->|Hcases]; [by destruct upper|]).
  by apply elem_of_nil in Hcases.
Qed.

Lemma percent_decode_hex2 c r :
  percent_decode (String "%" (hex2 true c +:+ r)) = String c <$> percent_decode r.
Proof.
  unfold hex2. rewrite !string_app_cons, string_app_nil_l.
  cbn [percent_decode]. change (Ascii.eqb "%" "%") with true. cbv iota.
  pose proof (code_bound c) as Hc.
  rewrite !hex_val_digit.
  - replace (16 * (code c / 16) + code c mod 16)%N with (code c)
      by (rewrite (N.div_mod (code c) 16) at 1; lia).
    by rewrite ascii_of_code.
  - apply N.mod_lt. lia.
  - apply N.Div0.div_lt_upper_bound. lia.
Qed.

Lemma unreserved_not_percent c : uri_unreserved c = true → Ascii.eqb c "%" = false.
Proof. destruct c as [[] [] [] [] [] [] [] []]; by vm_compute. Qed.

Lemma percent_decode_encode s : percent_decode (encodeURIComponent s) = Some s.
Proof.
  induction s as [|c s IH]; [done|]. cbn [encodeURIComponent].
  destruct (uri_unreserved c) eqn:Hc.
  - cbn [percent_decode]. by rewrite (unreserved_not_percent c Hc), IH.
  - by rewrite percent_decode_hex2, IH.
Qed.

(** [decodeURIComponent(encodeURIComponent(s))] is [s]. *)
Lemma decodeURIComponent_encode s :
  utf8_valid s = true → decodeURIComponent (encodeURIComponent s) = Ok s.
Proof. intros Hs. unfold decodeURIComponent. by rewrite percent_decode_encode, Hs. Qed.

Lemma unreserved_ascii c : uri_unreserved c = true → (code c < 128)%N.
Proof. destruct c as [[] [] [] [] [] [] [] []]; by vm_compute. Qed.

Lemma hex_digit_ascii n : (n < 16)%N → (code (hex_digit true n) < 128)%N.
Proof.
  intros Hn.
  assert (Hcases : n ∈ [0;1;2;3;4;5;6;7;8;9;10;11;12;13;14;15]%N).
  { destruct n as [|p]; [set_solver|].
    do 4 (destruct p as [p|p|]; try lia; try set_solver). }
  repeat (apply elem_of_cons in Hcases as [->|Hcases]; [by vm_compute|]).
  by apply elem_of_nil in Hcases.
Qed.

Lemma encodeURIComponent_ascii s : ascii_only (encodeURIComponent s) = true.
Proof.
  induction s as [|c s IH]; [done|]. cbn [encodeURIComponent].
  pose proof (code_bound c) as Hc.
  destruct (uri_unreserved c) eqn:Hu.
  - cbn [ascii_only]. rewrite IH, bool_decide_eq_true_2; [done|].
    by apply unreserved_ascii.
  - unfold hex2. rewrite !string_app_cons, string_app_nil_l. cbn [ascii_only].
    rewrite IH, !bool_decide_eq_true_2; [done|..].
    + apply hex_digit_ascii, N.mod_lt. lia.
    + apply hex_digit_ascii, N.Div0.div_lt_upper_bound. lia.
    + by vm_compute.
Qed.

(** ** Base64 *)

Lemma list_ind3 {A} (P : list A → Prop) :
  P [] → (∀ a, P [a]) → (∀ a b, P [a; b]) →
  (∀ a b c r, P r → P (a :: b :: c :: r)) →
  ∀ l, P l.
Proof.
  intros H0 H1 H2 H3 l.
  enough (P l ∧ (∀ a, P (a :: l)) ∧ (∀ a b, P (a :: b :: l))) by tauto.
  induction l as [|x l (IH0 & IH1 & IH2)]; [by auto|].
  split; [apply IH1|]. split; [intros a; apply IH2|]. intros a b. by apply H3.
Qed.

Lemma list_ascii_cons c s : list_ascii_of_string (String c s) = c :: list_ascii_of_string s.
Proof. reflexivity. Qed.

Lemma base64_encode_chars l :
  list_ascii_of_string (base64_encode l)
  = (map b64_char (base64_sextets l) ++ base64_padding l)%list.
Proof.
  induction l as [|a|a b|a b c r IH] using list_ind3; try reflexivity.
  cbn [base64_encode base64_sextets base64_padding map app].
  rewrite !list_ascii_cons. by rewrite IH.
Qed.


Lemma b64_char_symbol n : b64_symbol (b64_char n).
Proof.
  unfold b64_char.
  assert (Hall : Forall b64_symbol (list_ascii_of_string base64_alphabet)).
  { repeat constructor; by vm_compute. }
  destruct (list_ascii_of_string base64_alphabet !! N.to_nat n) as [c|] eqn:E.
  - cbn. eapply (proj1 (Forall_forall _ _) Hall), list_elem_of_lookup_2, E.
  - cbn. repeat split; by vm_compute.
Qed.

Lemma b64_val_char n : (n < 64)%N → b64_val (b64_char n) = Some n.
Proof.
  intros Hn.
  assert (Hcases : ∃ k, (k < 64)%nat ∧ n = N.of_nat k).
  { exists (N.to_nat n). split; lia. }
  destruct Hcases as (k & Hk & ->).
  do 64 (destruct k as [|k]; [by vm_compute|]). lia.
Qed.

Lemma sextets_bound l :
  Forall (λ a, a < 256)%N l → Forall (λ a, a < 64)%N (base64_sextets l).
Proof.
  induction l as [|a|a b|a b c r IH] using list_ind3; intros H; cbn [base64_sextets].
  - constructor.
  - apply Forall_cons in H as [Ha _]. repeat constructor.
    + apply N.Div0.div_lt_upper_bound. lia.
    + pose proof (N.mod_lt a 4). lia.
  - apply Forall_cons in H as [Ha H]. apply Forall_cons in H as [Hb _].
    assert (b / 16 < 16)%N by (apply N.Div0.div_lt_upper_bound; lia).
    pose proof (N.mod_lt a 4). pose proof (N.mod_lt b 16).
    repeat constructor; try lia. apply N.Div0.div_lt_upper_bound. lia.
  - apply Forall_cons in H as [Ha H]. apply Forall_cons in H as [Hb H].
    apply Forall_cons in H as [Hc H].
    assert (b / 16 < 16)%N by (apply N.Div0.div_lt_upper_bound; lia).
    assert (c / 64 < 4)%N by (apply N.Div0.div_lt_upper_bound; lia).
    pose proof (N.mod_lt a 4). pose proof (N.mod_lt b 16). pose proof (N.mod_lt c 64).
    repeat (constructor; [lia || (apply N.Div0.div_lt_upper_bound; lia)|]).
    by apply IH.
Qed.

Lemma sextet_hi a b : (b < 16 → (a * 16 + b) / 16 = a)%N.
Proof.
  intros Hb. symmetry. apply (N.div_unique _ 16 a b); lia.
Qed.

Lemma sextet_lo a b : (b < 16 → (a * 16 + b) mod 16 = b)%N.
Proof.
  intros Hb. symmetry. apply (N.mod_unique _ 16 a b); lia.
Qed.

Lemma base64_decode_sextets l :
  Forall (λ a, a < 256)%N l → base64_decode (base64_sextets l) = l.
Proof.
  induction l as [|a|a b|a b c r IH] using list_ind3; intros H;
    cbn [base64_sextets base64_decode].
  - done.
  - pose proof (N.div_mod a 4). pose proof (N.mod_lt a 4).
    rewrite N.div_mul by done. f_equal. lia.
  - pose proof (N.div_mod a 4). pose proof (N.mod_lt a 4).
    pose proof (N.div_mod b 16). pose proof (N.mod_lt b 16).
    apply Forall_cons in H as [Ha H]. apply Forall_cons in H as [Hb _].
    assert (b / 16 < 16)%N by (apply N.Div0.div_lt_upper_bound; lia).
    rewrite sextet_hi, sextet_lo by done.
    rewrite N.div_mul by done. f_equal; [lia|]. f_equal. lia.
  - pose proof (N.div_mod a 4). pose proof (N.mod_lt a 4).
    pose proof (N.div_mod b 16). pose proof (N.mod_lt b 16).
    pose proof (N.div_mod c 64). pose proof (N.mod_lt c 64).
    apply Forall_cons in H as [Ha H]. apply Forall_cons in H as [Hb H].
    apply Forall_cons in H as [Hc H].
    assert (b / 16 < 16)%N by (apply N.Div0.div_lt_upper_bound; lia).
    assert (c / 64 < 4)%N by (apply N.Div0.div_lt_upper_bound; lia).
    rewrite sextet_hi, sextet_lo by done.
    replace ((b mod 16 * 4 + c / 64) / 4)%N with (b mod 16)%N
      by (apply (N.div_unique _ 4 _ (c / 64)); lia).
    replace ((b mod 16 * 4 + c / 64) mod 4)%N with (c / 64)%N
      by (apply (N.mod_unique _ 4 (b mod 16) _); lia).
    rewrite IH by done. f_equal; [lia|]. f_equal; [lia|]. f_equal. lia.
Qed.

Lemma latin1_ascii s : ascii_only s = true → latin1_of_string s = Some (codes s).
Proof.
  induction s as [|c s IH]; [done|]. cbn [ascii_only latin1_of_string].
  intros [Hc Hs]%andb_true_iff. rewrite Hc, IH by done. reflexivity.
Qed.

Lemma string_of_latin1_codes s : ascii_only s = true → string_of_latin1 (codes s) = s.
Proof.
  induction s as [|c s IH]; [done|]. cbn [ascii_only].
  intros [Hc Hs]%andb_true_iff. unfold codes in *. cbn [list_ascii_of_string map string_of_latin1].
  rewrite Hc, IH by done. by rewrite ascii_of_code.
Qed.

Lemma codes_bound s : Forall (λ a, a < 256)%N (codes s).
Proof.
  unfold codes. induction s as [|c s IH]; constructor; [apply code_bound|exact IH].
Qed.

Lemma remove_ascii_ws_none s :
  Forall (λ c, is_ascii_ws c = false) (list_ascii_of_string s) →
  remove_ascii_ws s = list_ascii_of_string s.
Proof.
  induction s as [|c s IH]; [done|]. cbn [list_ascii_of_string remove_ascii_ws].
  intros [Hc Hs]%Forall_cons. by rewrite Hc, IH.
Qed.

Lemma padding_cases l :
  base64_padding l = [] ∨ base64_padding l = ["="%char]
  ∨ base64_padding l = ["="; "="]%char.
Proof. induction l using list_ind3; cbn; auto. Qed.

Lemma encode_length l :
  (length (map b64_char (base64_sextets l) ++ base64_padding l) mod 4 = 0)%nat.
Proof.
  induction l as [|a|a b|a b c r IH] using list_ind3; try reflexivity.
  cbn [base64_sextets base64_padding map app length].
  change (S (S (S (S ?n)))) with (4 + n)%nat.
  by rewrite <- Nat.Div0.add_mod_idemp_l.
Qed.

Lemma sextets_length l : (length (base64_sextets l) mod 4 ≠ 1)%nat.
Proof.
  induction l as [|a|a b|a b c r IH] using list_ind3; try (by vm_compute).
  cbn [base64_sextets length].
  change (S (S (S (S ?n)))) with (4 + n)%nat.
  by rewrite <- Nat.Div0.add_mod_idemp_l.
Qed.

Lemma strip_padding_encoded chars pad :
  Forall (λ c, Ascii.eqb c "=" = false) chars →
  pad = [] ∨ pad = ["="%char] ∨ pad = ["="; "="]%char →
  (length (chars ++ pad) mod 4 = 0)%nat →
  strip_padding (chars ++ pad)%list = chars.
Proof.
  intros Hchars Hpad Hlen. unfold strip_padding.
  rewrite bool_decide_eq_true_2 by done. rewrite reverse_app.
  assert (Hrev : ∀ c r, reverse chars = c :: r → Ascii.eqb c "=" = false).
  { intros c r E. apply (proj1 (Forall_forall _ _) Hchars).
    apply elem_of_reverse. rewrite E. left. }
  destruct Hpad as [->|[->| ->]].
  - rewrite app_nil_r. change (reverse [] ++ reverse chars)%list with (reverse chars).
    destruct (reverse chars) as [|c r] eqn:E; [done|].
    by rewrite (Hrev c r).
  - change (reverse ["="%char] ++ reverse chars)%list with ("="%char :: reverse chars).
    cbv iota. change (Ascii.eqb "=" "=") with true. cbv iota.
    destruct (reverse chars) as [|c r] eqn:E.
    + by rewrite <- (reverse_involutive chars), E.
    + rewrite (Hrev c r) by done. by rewrite <- E, reverse_involutive.
  - change (reverse ["="; "="]%char ++ reverse chars)%list
      with ("="%char :: "="%char :: reverse chars).
    cbv iota. change (Ascii.eqb "=" "=") with true. cbv iota.
    apply reverse_involutive.
Qed.

Lemma mapM_b64 xs :
  Forall (λ a, a < 64)%N xs → mapM b64_val (map b64_char xs) = Some xs.
Proof.
  intros H. apply mapM_Some. induction H as [|x xs Hx _ IH]; constructor; [|exact IH].
  by apply b64_val_char.
Qed.

(** [atob] undoes [base64_encode]. *)
Lemma atob_encode l :
  Forall (λ a, a < 256)%N l → atob (base64_encode l) = Ok (string_of_latin1 l).
Proof.
  intros Hl. unfold atob.
  assert (Hsym : Forall b64_symbol (map b64_char (base64_sextets l))).
  { apply Forall_forall. intros c (n & -> & _)%list_elem_of_fmap. apply b64_char_symbol. }
  rewrite remove_ascii_ws_none.
  2:{ rewrite base64_encode_chars. apply Forall_app. split.
      - eapply Forall_impl; [exact Hsym|]. by intros c [? _].
      - destruct (padding_cases l) as [->|[->| ->]]; repeat constructor. }
  rewrite base64_encode_chars.
  rewrite strip_padding_encoded.
  - rewrite bool_decide_eq_false_2 by (rewrite length_map; apply sextets_length).
    rewrite mapM_b64 by by apply sextets_bound.
    by rewrite base64_decode_sextets.
  - eapply Forall_impl; [exact Hsym|]. by intros c (_ & ? & _).
  - apply padding_cases.
  - apply encode_length.
Qed.

(** [atob(btoa(s))] is [s] for an ASCII string. *)
Lemma atob_btoa s :
  ascii_only s = true →
  ∃ e, btoa s = Ok e ∧ atob e = Ok s ∧ e = base64_encode (codes s).
Proof.
  intros Hs. exists (base64_encode (codes s)). unfold btoa.
  rewrite latin1_ascii by done. split; [done|]. split; [|done].
  rewrite atob_encode by apply codes_bound. by rewrite string_of_latin1_codes.
Qed.

(** ** Well-formed strings *)

Lemma utf8_valid_app_aux n a b :
  (String.length a < n)%nat →
  utf8_valid a = true → utf8_valid b = true → utf8_valid (a +:+ b) = true.
Proof.
  revert a. induction n as [|n IH]; intros a Hlen Ha Hb; [lia|].
  destruct a as [|c0 r0]; [done|]. cbn [String.length] in Hlen.
  rewrite string_app_cons. cbn [utf8_valid] in Ha |- *.
  destruct (bool_decide (code c0 < 128)%N); [apply IH; [lia|done..]|].
  destruct r0 as [|c1 r1]; [done|]. cbn [String.length] in Hlen.
  rewrite string_app_cons. cbv iota.
  destruct (bool_decide (194 ≤ code c0 ≤ 223)%N).
  { apply andb_true_iff in Ha as [-> Ha]. apply IH; [lia|done..]. }
  destruct r1 as [|c2 r2]; [done|]. cbn [String.length] in Hlen.
  rewrite string_app_cons. cbv iota.
  destruct (bool_decide (224 ≤ code c0 ≤ 239)%N).
  { apply andb_true_iff in Ha as [-> Ha]. apply IH; [lia|done..]. }
  destruct r2 as [|c3 r3]; [done|]. cbn [String.length] in Hlen.
  rewrite string_app_cons. cbv iota.
  apply andb_true_iff in Ha as [-> Ha]. apply IH; [lia|done..].
Qed.

Lemma utf8_valid_app a b :
  utf8_valid a = true → utf8_valid b = true → utf8_valid (a +:+ b) = true.
Proof. apply (utf8_valid_app_aux (S (String.length a))). lia. Qed.

Lemma ascii_only_valid s : ascii_only s = true → utf8_valid s = true.
Proof.
  induction s as [|c s IH]; [done|]. cbn [ascii_only utf8_valid].
  intros [-> Hs]%andb_true_iff. by apply IH.
Qed.

Lemma json_escape_ascii c : (code c < 128)%N → ascii_only (json_escape c) = true.
Proof. destruct c as [[] [] [] [] [] [] [] []]; by vm_compute. Qed.

Lemma json_escape_high c : (128 ≤ code c)%N → json_escape c = String c "".
Proof.
  destruct c as [[] [] [] [] [] [] [] []]; try reflexivity; vm_compute; intros H; by destruct H.
Qed.

Lemma json_escape_all_valid_aux n s :
  (String.length s < n)%nat →
  utf8_valid s = true → utf8_valid (json_escape_all s) = true.
Proof.
  revert s. induction n as [|n IH]; intros s Hlen Hs; [lia|].
  destruct s as [|c0 r0]; [done|]. cbn [String.length] in Hlen.
  cbn [utf8_valid] in Hs.
  change (json_escape_all (String c0 r0)) with (json_escape c0 +:+ json_escape_all r0).
  case_bool_decide as H0.
  { apply utf8_valid_app; [by apply ascii_only_valid, json_escape_ascii|].
    apply IH; [lia|done]. }
  rewrite json_escape_high by lia. rewrite string_app_cons, string_app_nil_l.
  assert (Hcont : ∀ c r, is_cont c = true →
            json_escape_all (String c r) = String c (json_escape_all r)).
  { intros c r Hc. apply bool_decide_eq_true in Hc.
    change (json_escape_all (String c r)) with (json_escape c +:+ json_escape_all r).
    by rewrite json_escape_high by lia. }
  destruct r0 as [|c1 r1]; [done|]. cbn [String.length] in Hlen.
  destruct (bool_decide (194 ≤ code c0 ≤ 223)%N) eqn:E2.
  { apply andb_true_iff in Hs as [Hc1 Hs]. rewrite Hcont by done.
    cbn [utf8_valid]. rewrite bool_decide_eq_false_2 by done.
    rewrite E2, Hc1. apply IH; [lia|done]. }
  destruct r1 as [|c2 r2]; [done|]. cbn [String.length] in Hlen.
  destruct (bool_decide (224 ≤ code c0 ≤ 239)%N) eqn:E3.
  { apply andb_true_iff in Hs as [Hs Hr]. apply andb_true_iff in Hs as [Hs Hc2].
    apply andb_true_iff in Hs as [Hrange Hc1].
    rewrite !Hcont by done.
    cbn [utf8_valid]. rewrite bool_decide_eq_false_2 by done.
    rewrite E2, E3, Hrange, Hc1, Hc2. apply IH; [lia|done]. }
  destruct r2 as [|c3 r3]; [done|]. cbn [String.length] in Hlen.
  apply andb_true_iff in Hs as [Hs Hr]. apply andb_true_iff in Hs as [Hs Hc3].
  apply andb_true_iff in Hs as [Hs Hc2]. apply andb_true_iff in Hs as [Hs Hc1].
  apply andb_true_iff in Hs as [Hlead Hrange].
  rewrite !Hcont by done.
  cbn [utf8_valid]. rewrite bool_decide_eq_false_2 by done.
  rewrite E2, E3, Hlead, Hrange, Hc1, Hc2, Hc3.
  apply IH; [lia|done].
Qed.

Lemma QuoteJSONString_valid s : utf8_valid s = true → utf8_valid (QuoteJSONString s) = true.
Proof.
  intros Hs. unfold QuoteJSONString.
  change (String dquote ?r) with (String dquote "" +:+ r).
  apply utf8_valid_app; [done|]. apply utf8_valid_app; [|done].
  by apply (json_escape_all_valid_aux (S (String.length s))); [lia|].
Qed.

Lemma string_of_uint_ascii d : ascii_only (NilEmpty.string_of_uint d) = true.
Proof. induction d; cbn; done. Qed.

Lemma string_of_Z_valid n : utf8_valid (string_of_Z n) = true.
Proof.
  apply ascii_only_valid. unfold string_of_Z.
  destruct n as [|p|p]; cbn [Z.to_int NilZero.string_of_int]; [done|..];
    unfold NilZero.string_of_uint.
  - destruct (Pos.to_uint p) eqn:E; [done|..]; rewrite <- E; apply string_of_uint_ascii.
  - cbn [ascii_only]. rewrite bool_decide_eq_true_2 by by vm_compute. cbn [andb].
    destruct (Pos.to_uint p) eqn:E; [done|..]; rewrite <- E; apply string_of_uint_ascii.
Qed.

Lemma join_valid l :
  Forall (λ s, utf8_valid s = true) l → utf8_valid (join "," l) = true.
Proof.
  induction 1 as [|x l Hx Hl IH]; [done|].
  destruct l as [|y l]; [done|]. rewrite join_cons2.
  apply utf8_valid_app; [done|]. by apply utf8_valid_app.
Qed.

(** The text [JSON.stringify] writes for a value with well-formed strings
    is well-formed. *)
Lemma json_text_valid v :
  is_json v = true → utf8_json v = true → utf8_valid (json_text v) = true.
Proof.
  induction v as [| | b | n | s | l IH | ps IH | name] using JsVal_ind';
    try discriminate; intros Hj Hu.
  - done.
  - by destruct b.
  - change (json_text (VNum n)) with (number_text n).
    rewrite number_text_exact by done. apply string_of_Z_valid.
  - by apply QuoteJSONString_valid.
  - rewrite json_text_arr. apply utf8_valid_app; [done|]. apply utf8_valid_app; [|done].
    apply join_valid, Forall_fmap.
    pose proof (is_json_arr l Hj) as Hjl.
    pose proof (forallb_Forall_true utf8_json l Hu) as Hul.
    apply Forall_forall. intros x Hx. cbn.
    apply (proj1 (Forall_forall _ _) IH x Hx).
    + apply (proj1 (Forall_forall _ _) Hjl x Hx).
    + apply (proj1 (Forall_forall _ _) Hul x Hx).
  - destruct (is_json_obj ps Hj) as [_ Hjl].
    pose proof (forallb_Forall_true (λ p, utf8_valid (fst p) && utf8_json (snd p)) ps Hu)
      as Hul.
    rewrite json_text_obj by done.
    apply utf8_valid_app; [done|]. apply utf8_valid_app; [|done].
    apply join_valid, Forall_fmap.
    apply Forall_forall. intros p Hp. cbn.
    pose proof (proj1 (Forall_forall _ _) Hul p Hp) as [Hk Hv]%andb_true_iff.
    unfold member_text. apply utf8_valid_app; [by apply QuoteJSONString_valid|].
    apply utf8_valid_app; [done|].
    apply (proj1 (Forall_forall _ _) IH p Hp); [|done].
    apply (proj1 (Forall_forall _ _) Hjl p Hp).
Qed.

(** * The script *)

(** ** Conversions to strings *)

Lemma ToString_checked_converts v :
  converts v = true → ToString_checked v = Ok (ToString v).
Proof.
  unfold converts. induction v as [| | | | |l IH|ps IH|] using JsVal_ind'; try done.
  - cbn [ToString_checked ToString].
    set (texts := fix texts (l : list JsVal) : Res (list string) := _).
    assert (Htexts : ∀ ss, texts l = Ok ss →
              ss = map (λ x, match x with
                             | VUndef | VNull => ""
                             | _ => ToString x
                             end) l).
    { induction IH as [|x l Hx Hl IHl]; intros ss; cbn [texts map]; [by intros [= <-]|].
      destruct (match x with VUndef | VNull => Ok "" | _ => ToString_checked x end)
        as [t|] eqn:Ht; [|done].
      destruct (texts l) as [tt|] eqn:Htt; [|done].
      intros [= <-]. f_equal; [|by apply IHl].
      destruct x; try (by injection Ht as <-);
        (rewrite Hx in Ht by (by rewrite Ht); by injection Ht as <-). }
    destruct (texts l) as [ss|]; [|done]. intros _. by rewrite (Htexts ss).
  - cbn [ToString_checked ToString]. by destruct (assoc "toString" ps).
Qed.

Lemma DOMString_checked_converts v :
  converts v = true → DOMString_checked v = Ok (DOMString_nullable v).
Proof.
  intros H. destruct v; try reflexivity; by apply ToString_checked_converts.
Qed.

Lemma converts_falsy v : truthy v = false → converts v = true.
Proof. by destruct v as [| |[]| | | | |]. Qed.

Lemma converts_js_or a b :
  converts a = true → converts b = true → converts (js_or a b) = true.
Proof. unfold js_or. by destruct (truthy a). Qed.

Lemma displayable_field v k :
  displayable v = true → k ∈ display_keys → converts (field v k) = true.
Proof.
  unfold displayable. rewrite forallb_forall. intros H Hk.
  apply H. by apply list_elem_of_In.
Qed.

Lemma converts_label name : converts (js_or (field typeLabels name) (VStr "")) = true.
Proof.
  unfold field, typeLabels, get_prop, assoc, proto_lookup.
  repeat (destruct (String.eqb name _); [reflexivity|]).
  by destruct (bool_decide _).
Qed.

(** ** Running the monad *)

Lemma run_bind {A B} (m : M A) (k : A → M B) w :
  (m ≫= k) w = match m w with
               | (Ok a, w') => k a w'
               | (Throw e, w') => (Throw e, w')
               end.
Proof. reflexivity. Qed.

Lemma run_assoc {A B C} (m : M A) (k1 : A → M B) (k2 : B → M C) w :
  ((m ≫= k1) ≫= k2) w = (m ≫= (λ a, k1 a ≫= k2)) w.
Proof. rewrite !run_bind. by destruct (m w) as [[a|e] w']. Qed.

Lemma run_ret_bind {A B} (a : A) (k : A → M B) w : (mret a ≫= k) w = k a w.
Proof. reflexivity. Qed.

Lemma run_ret {A} (a : A) w : (mret a : M A) w = (Ok a, w).
Proof. reflexivity. Qed.

Lemma keeps_els_alter f i : keeps_els (alter f i).
Proof. intros d j. apply lookup_alter_is_Some. Qed.

Lemma keeps_els_id : keeps_els (λ x, x).
Proof. done. Qed.

Lemma keeps_els_compose g h : keeps_els g → keeps_els h → keeps_els (λ d, g (h d)).
Proof. intros Hg Hh d j. etrans; [apply Hg | apply Hh]. Qed.

Lemma keeps_els_toast msg : keeps_els (toast_dom msg).
Proof. intros d j. unfold toast_dom. by rewrite !lookup_alter_is_Some. Qed.

Lemma step_dom_is_Some el idx step d j :
  is_Some (step_dom el idx step d !! j) ↔ is_Some (d !! j).
Proof.
  unfold step_dom.
  destruct (idx =? step)%Z, (idx <? step)%Z; by rewrite !lookup_alter_is_Some.
Qed.

Lemma keeps_els_step el idx step : keeps_els (step_dom el idx step).
Proof. intros d j. apply step_dom_is_Some. Qed.

Lemma keeps_els_progress step percent : keeps_els (progress_dom step percent).
Proof.
  intros d j. unfold progress_dom.
  destruct (percent <? 0)%Z;
    by rewrite ?lookup_alter_is_Some, !step_dom_is_Some, lookup_alter_is_Some.
Qed.

Lemma keeps_els_display v : keeps_els (display_dom v).
Proof.
  intros d j. unfold display_dom.
  destruct (truthy (field v "midi_note")); by rewrite !lookup_alter_is_Some.
Qed.

Create HintDb page.
#[local] Hint Resolve keeps_els_alter keeps_els_id keeps_els_toast keeps_els_step
  keeps_els_progress keeps_els_display : page.

Lemma has_el_set_document g w id :
  keeps_els g → has_el (set_document g w) id ↔ has_el w id.
Proof. intros Hg. apply Hg. Qed.

Lemma has_el_add_effect e w id : has_el (add_effect e w) id ↔ has_el w id.
Proof. done. Qed.

Lemma has_el_set_heap g w id : has_el (set_heap g w) id ↔ has_el w id.
Proof. done. Qed.

Lemma has_el_set_currentResult r w id : has_el (set_currentResult r w) id ↔ has_el w id.
Proof. done. Qed.

Lemma has_el_set_localStorage g w id : has_el (set_localStorage g w) id ↔ has_el w id.
Proof. done. Qed.

Lemma update_el_run id p f w :
  has_el w id → update_el id p f w = (Ok tt, set_document (alter f id) w).
Proof. intros [e He]. unfold update_el. by rewrite He. Qed.

Lemma read_el_run {A} id p (f : Element → A) w e :
  document w !! id = Some e → read_el id p f w = (Ok (f e), w).
Proof. intros He. unfold read_el. by rewrite He. Qed.

Lemma read_el_unit_run id p w :
  has_el w id → read_el id p (λ _, tt) w = (Ok tt, w).
Proof. intros [e He]. by rewrite (read_el_run _ _ _ _ e). Qed.

Ltac split_els :=
  repeat match goal with
         | H : has_els _ _ |- _ => unfold has_els in H
         | H : Forall _ (_ ++ _) |- _ => apply Forall_app in H as [? ?]
         | H : Forall _ (_ :: _) |- _ => apply Forall_cons in H as [? H]
         | H : Forall _ [] |- _ => clear H
         end.

Lemma has_els_set_document g w ids :
  keeps_els g → has_els w ids → has_els (set_document g w) ids.
Proof.
  intros Hg H. unfold has_els in *. eapply Forall_impl; [exact H|].
  intros id. by apply has_el_set_document.
Qed.

Lemma has_els_same_document w w' ids :
  document w' = document w → has_els w ids → has_els w' ids.
Proof. intros Hd. unfold has_els, has_el. by rewrite Hd. Qed.

Ltac solve_has :=
  repeat first
    [ assumption
    | apply has_els_set_document; [solve [auto with page]|]
    | apply (has_els_same_document _ (add_effect _ _)); [reflexivity|]
    | apply (has_els_same_document _ (set_heap _ _)); [reflexivity|]
    | apply (has_els_same_document _ (set_currentResult _ _)); [reflexivity|]
    | apply (has_els_same_document _ (set_localStorage _ _)); [reflexivity|]
    | rewrite has_el_add_effect
    | rewrite has_el_set_heap
    | rewrite has_el_set_currentResult
    | rewrite has_el_set_localStorage
    | rewrite has_el_set_document by auto with page ].

(** One step of a run: the first action is a write through an element
    that is on the page. *)
Ltac step_with tac :=
  repeat rewrite run_assoc;
  first [ rewrite run_ret_bind
        | rewrite run_bind; tac ];
  lazy beta iota.

Lemma classList_remove_run id c w :
  has_el w id →
  classList_remove id c w = (Ok tt, set_document (alter (set_classList_el (token_remove c)) id) w).
Proof. apply update_el_run. Qed.

Lemma classList_add_run id c w :
  has_el w id →
  classList_add id c w = (Ok tt, set_document (alter (set_classList_el (token_add c)) id) w).
Proof. apply update_el_run. Qed.

Lemma set_textContent_run id v w :
  has_el w id → converts v = true →
  set_textContent id v w =
    (Ok tt, set_document (alter (set_textContent_el (DOMString_nullable v)) id) w).
Proof.
  intros Hel Hv. unfold set_textContent.
  rewrite run_bind, read_el_unit_run by done. lazy beta iota.
  rewrite run_bind. unfold lift at 1. rewrite DOMString_checked_converts by done.
  lazy beta iota. by apply update_el_run.
Qed.

Lemma set_width_run id percent w :
  has_el w id →
  set_width id percent w
  = (Ok tt, set_document
              (if (percent <? 0)%Z then λ x, x
               else alter (set_attr_el "style.width" (number_text percent +:+ "%")) id) w).
Proof.
  intros Hel. unfold set_width. destruct (percent <? 0)%Z.
  - rewrite read_el_unit_run by done. by destruct w.
  - by apply update_el_run.
Qed.

Lemma set_disabled_run id b w :
  has_el w id →
  set_disabled id b w = (Ok tt, set_document (alter (set_disabled_el b) id) w).
Proof. apply update_el_run. Qed.

Lemma set_attr_run id p k v w :
  has_el w id →
  set_attr id p k v w = (Ok tt, set_document (alter (set_attr_el k v) id) w).
Proof. apply update_el_run. Qed.

Ltac prim :=
  first [ rewrite update_el_run by solve_has
        | rewrite classList_remove_run by solve_has
        | rewrite classList_add_run by solve_has
        | rewrite set_textContent_run by (solve_has; first [assumption | reflexivity])
        | rewrite set_disabled_run by solve_has
        | rewrite set_attr_run by solve_has
        | rewrite read_el_unit_run by solve_has ].

Ltac step := step_with prim.

Lemma showToast_run msg w :
  has_el w "toast" →
  showToast msg w =
    (Ok tt, add_effect (ESetTimeout 2500 ToastFadeOut) (set_document (toast_dom msg) w)).
Proof.
  intros H. unfold showToast, classList_remove, classList_add, setTimeout.
  do 3 step. reflexivity.
Qed.

Lemma hideProgress_run w :
  has_el w "progress-section" →
  hideProgress w =
    (Ok tt, set_document (alter (set_classList_el (token_add "hidden")) "progress-section") w).
Proof. intros H. unfold hideProgress, classList_add. by rewrite update_el_run. Qed.

Lemma step_run el idx step w :
  has_el w el →
  (classList_remove el "active" ;;
   classList_remove el "done" ;;
   (if (idx <? step)%Z then classList_add el "done" else mret tt) ;;
   (if (idx =? step)%Z then classList_add el "active" else mret tt)) w
  = (Ok tt, set_document (step_dom el idx step) w).
Proof.
  intros H. unfold step_dom.
  do 2 step.
  destruct (idx <? step)%Z, (idx =? step)%Z; repeat step;
    rewrite ?classList_add_run by solve_has; reflexivity.
Qed.

Lemma showProgress_run step percent w :
  has_els w progress_ids →
  showProgress step percent w = (Ok tt, set_document (progress_dom step percent) w).
Proof.
  intros H. unfold progress_ids in H. split_els.
  unfold showProgress, forEach, forEach_from.
  cbv beta. simpl Z.add.
  step.
  rewrite run_assoc, run_bind, step_run by solve_has. lazy beta iota.
  rewrite run_assoc, run_bind, step_run by solve_has. lazy beta iota.
  rewrite run_assoc, run_bind, step_run by solve_has. lazy beta iota.
  rewrite run_ret_bind.
  rewrite set_width_run by solve_has. reflexivity.
Qed.

Lemma prop_run data k w v :
  heap w !! data = Some v → nullish v = false →
  prop data k w = (Ok (field v k), w).
Proof.
  intros Hv Hn. unfold prop, deref, gets, lift, field. rewrite run_bind. cbn.
  rewrite Hv. cbn. by destruct v.
Qed.

Lemma lift_get_prop_run o k w :
  nullish o = false → lift (get_prop o k) w = (Ok (field o k), w).
Proof. intros Hn. unfold lift, field. by destruct o. Qed.

Lemma scrollIntoView_run id w :
  has_el w id → scrollIntoView id w = (Ok tt, add_effect (EScrollIntoView id) w).
Proof. intros H. unfold scrollIntoView. step. reflexivity. Qed.

Lemma lift_ToString_run v w :
  converts v = true → lift (ToString_checked v) w = (Ok (ToString v), w).
Proof. intros H. unfold lift. by rewrite ToString_checked_converts. Qed.

Lemma displayResult_run data v w :
  has_els w result_ids →
  heap w !! data = Some v → nullish v = false → displayable v = true →
  displayResult data w =
    (Ok tt, add_effect (EScrollIntoView "result-section") (set_document (display_dom v) w)).
Proof.
  intros H Hv Hn Hd. unfold result_ids in H. split_els.
  assert (Htitle : converts (js_or (field v "title") (VStr "未知歌曲")) = true)
    by (apply converts_js_or; [apply displayable_field; [done|compute_done]|done]).
  assert (Htempo : converts (js_or (field v "tempo") (VNum 120)) = true)
    by (apply converts_js_or; [apply displayable_field; [done|compute_done]|done]).
  assert (Hkey : converts (js_or (field v "key") (VStr "C")) = true)
    by (apply converts_js_or; [apply displayable_field; [done|compute_done]|done]).
  assert (Htype : converts (field v "output_type") = true)
    by (apply displayable_field; [done|compute_done]).
  assert (Hcontent : converts (field v "content") = true)
    by (apply displayable_field; [done|compute_done]).
  assert (Hnote : converts (field v "midi_note") = true)
    by (apply displayable_field; [done|compute_done]).
  pose proof (converts_label (ToString (field v "output_type"))) as Hlabel.
  unfold displayResult, display_dom.
  repeat step_with ltac:(first
    [ prim
    | rewrite (prop_run _ _ _ v) by (first [exact Hv | exact Hn])
    | rewrite lift_ToString_run by assumption
    | rewrite lift_get_prop_run by reflexivity ]).
  destruct (truthy (field v "midi_note"));
    repeat step_with prim; by rewrite scrollIntoView_run by solve_has.
Qed.

(** ** Observations a run never changes *)

Section Preserves.
Context {X : Type} (f : World → X).

Lemma preserves_ret {A} (a : A) : preserves f (mret a : M A).
Proof. done. Qed.

Lemma preserves_throw {A} e : preserves f (throw e : M A).
Proof. done. Qed.

Lemma preserves_lift {A} (r : Res A) : preserves f (lift r).
Proof. done. Qed.

Lemma preserves_gets {A} (g : World → A) : preserves f (gets g).
Proof. done. Qed.

Lemma preserves_bind {A B} (m : M A) (k : A → M B) :
  preserves f m → (∀ a, preserves f (k a)) → preserves f (m ≫= k).
Proof.
  intros Hm Hk w. rewrite run_bind. specialize (Hm w).
  destruct (m w) as [[a|e] w']; cbn in *; [|done].
  by rewrite Hk.
Qed.

Lemma preserves_modify (g : World → World) :
  (∀ w, f (g w) = f w) → preserves f (modify g).
Proof. intros Hg w. apply Hg. Qed.

Lemma preserves_try_catch_finally {A} (body : M A) handler fin :
  preserves f body → (∀ e, preserves f (handler e)) → preserves f fin →
  preserves f (try_catch_finally body handler fin).
Proof.
  intros Hb Hh Hf w. unfold try_catch_finally. specialize (Hb w).
  destruct (body w) as [[a|e] w1]; cbn in *.
  - specialize (Hf w1). destruct (fin w1) as [[[]|e] w2]; cbn in *; congruence.
  - specialize (Hh e w1). destruct (handler e w1) as [r w2]; cbn in *.
    specialize (Hf w2). destruct (fin w2) as [[[]|e'] w3]; cbn in *; congruence.
Qed.

Lemma preserves_try_catch {A} (body : M A) handler :
  preserves f body → (∀ e, preserves f (handler e)) →
  preserves f (try_catch body handler).
Proof.
  intros Hb Hh w. unfold try_catch. specialize (Hb w).
  destruct (body w) as [[a|e] w1]; cbn in *; [done|].
  by rewrite Hh.
Qed.

Lemma preserves_forEach_from {A} (l : list A) (g : A → Z → M unit) idx :
  (∀ x i, preserves f (g x i)) → preserves f (forEach_from idx l g).
Proof.
  intros Hg. revert idx. induction l as [|x l IH]; intros idx; cbn.
  - apply preserves_ret.
  - apply preserves_bind; auto.
Qed.

(** Observations that do not depend on the page, the log, ... *)
Hypothesis f_document : ∀ g w, f (set_document g w) = f w.

Lemma preserves_update_el id p g : preserves f (update_el id p g).
Proof. intros w. unfold update_el. destruct (document w !! id); cbn; auto. Qed.

Lemma preserves_read_el {A} id p (g : Element → A) : preserves f (read_el id p g).
Proof. intros w. unfold read_el. by destruct (document w !! id). Qed.
End Preserves.

Lemma fetches_add_effect e w :
  is_fetch e = false → fetches (add_effect e w) = fetches w.
Proof.
  intros He. unfold fetches. cbn. rewrite filter_app, filter_cons_False, filter_nil.
  - apply app_nil_r.
  - by rewrite He.
Qed.

Lemma preserves_alloc {X} (f : World → X) v :
  (∀ g w, f (set_heap g w) = f w) → preserves f (alloc v).
Proof. intros Hf w. apply Hf. Qed.

Ltac side :=
  first [ done
        | intros; reflexivity
        | intros; apply fetches_add_effect; reflexivity ].

(** Proves [preserves f m] by following the structure of [m]. *)
Ltac pres :=
  repeat first
    [ apply preserves_ret
    | apply preserves_throw
    | apply preserves_lift
    | apply preserves_gets
    | apply preserves_read_el
    | apply preserves_update_el; [side]
    | apply preserves_modify; [side]
    | apply preserves_alloc; [side]
    | apply preserves_bind; [|intros ?]
    | apply preserves_try_catch_finally; [|intros ?|]
    | apply preserves_try_catch; [|intros ?]
    | apply preserves_forEach_from; intros ? ?
    | match goal with
      | |- preserves _ (if ?c then _ else _) => destruct c
      | |- preserves _ (match ?x with _ => _ end) => destruct x
      end
    | progress unfold set_textContent, classList_add, classList_remove, set_disabled,
        set_width, set_attr, get_value, focus, scrollIntoView, setTimeout, deref, prop, delay,
        response_json, forEach ].

Lemma showToast_preserves {X} (f : World → X) msg :
  (∀ g w, f (set_document g w) = f w) →
  (∀ w, f (add_effect (ESetTimeout 2500 ToastFadeOut) w) = f w) →
  preserves f (showToast msg).
Proof. intros H1 H2. unfold showToast. pres. Qed.

Lemma showProgress_preserves {X} (f : World → X) step percent :
  (∀ g w, f (set_document g w) = f w) → preserves f (showProgress step percent).
Proof. intros H1. unfold showProgress. pres. Qed.

Lemma hideProgress_preserves {X} (f : World → X) :
  (∀ g w, f (set_document g w) = f w) → preserves f hideProgress.
Proof. intros H1. unfold hideProgress. pres. Qed.

Lemma displayResult_preserves {X} (f : World → X) data :
  (∀ g w, f (set_document g w) = f w) →
  (∀ w, f (add_effect (EScrollIntoView "result-section") w) = f w) →
  preserves f (displayResult data).
Proof. intros H1 H2. unfold displayResult. pres. Qed.

Lemma saveToLocalHistory_preserves {X} (f : World → X) record :
  (∀ g w, f (set_localStorage g w) = f w) → preserves f (saveToLocalHistory record).
Proof. intros H1. unfold saveToLocalHistory. pres. Qed.

Lemma showDemoResult_preserves {X} (f : World → X) env url :
  (∀ g w, f (set_document g w) = f w) →
  (∀ g w, f (set_heap g w) = f w) →
  (∀ g w, f (set_localStorage g w) = f w) →
  (∀ r w, f (set_currentResult r w) = f w) →
  (∀ w, f (add_effect (EScrollIntoView "result-section") w) = f w) →
  preserves f (showDemoResult env url).
Proof.
  intros H1 H2 H3 H4 H5. unfold showDemoResult. pres.
Qed.

(** ** What [displayResult] shows *)

Lemma hidden_token_remove l : bool_decide ("hidden" ∈ token_remove "hidden" l) = false.
Proof.
  apply bool_decide_eq_false. unfold token_remove. rewrite list_elem_of_filter. tauto.
Qed.

Lemma hidden_token_add l : bool_decide ("hidden" ∈ token_add "hidden" l) = true.
Proof.
  apply bool_decide_eq_true. unfold token_add. case_bool_decide; set_solver.
Qed.

Lemma display_dom_note v d e :
  d !! "result-note" = Some e →
  ∃ e', display_dom v d !! "result-note" = Some e'
        ∧ bool_decide ("hidden" ∈ classList e') = negb (truthy (field v "midi_note"))
        ∧ (truthy (field v "midi_note") = true →
           textContent e' = DOMString_nullable (field v "midi_note")).
Proof.
  intros He. unfold display_dom.
  destruct (truthy (field v "midi_note")); eexists;
    (split; [simplify_map_eq; reflexivity|]); cbn.
  - split; [apply hidden_token_remove | done].
  - split; [apply hidden_token_add | done].
Qed.

Lemma display_dom_text v d id e :
  d !! id = Some e →
  id ∈ ["result-title"; "result-tempo"; "result-key"; "result-type"; "sheet-content"] →
  textContent <$> display_dom v d !! id =
    Some (if String.eqb id "result-title" then
            DOMString_nullable (js_or (field v "title") (VStr "未知歌曲"))
          else if String.eqb id "result-tempo" then
            "♩ = " +:+ ToString (js_or (field v "tempo") (VNum 120))
          else if String.eqb id "result-key" then
            ToString (js_or (field v "key") (VStr "C")) +:+ " 大調"
          else if String.eqb id "result-type" then
            DOMString_nullable
              (js_or (field typeLabels (ToString (field v "output_type"))) (VStr ""))
          else DOMString_nullable (field v "content")).
Proof.
  intros He Hid. unfold display_dom.
  repeat (apply elem_of_cons in Hid as [->|Hid]);
    [..|by apply elem_of_nil in Hid];
    destruct (truthy (field v "midi_note")); by simplify_map_eq.
Qed.

Lemma display_dom_section v d e :
  d !! "result-section" = Some e →
  (λ e, bool_decide ("hidden" ∈ classList e)) <$> display_dom v d !! "result-section"
  = Some false.
Proof.
  intros He. unfold display_dom.
  destruct (truthy (field v "midi_note")); simplify_map_eq; cbn;
    f_equal; apply hidden_token_remove.
Qed.

Lemma display_dom_other v d id :
  id ∉ result_ids → display_dom v d !! id = d !! id.
Proof.
  intros Hid. unfold display_dom, result_ids in *.
  repeat (apply not_elem_of_cons in Hid as [? Hid]).
  destruct (truthy (field v "midi_note")); by simplify_map_eq.
Qed.

(** ** [saveToLocalHistory] and [showDemoResult] *)

Lemma saveToLocalHistory_run record h w :
  JSON_parse (history_text w) = Ok (VArr h) →
  saveToLocalHistory record w =
    (Ok tt,
     set_localStorage
       (<["tab-finder-history" :=
            default "undefined"
              (JSON_stringify (VArr (take 50 (default VUndef (heap w !! record) :: h))))]>)
       w).
Proof.
  intros Hp. unfold saveToLocalHistory.
  rewrite run_bind. unfold gets at 1. lazy beta iota.
  rewrite run_bind. unfold lift at 1. rewrite Hp. lazy beta iota.
  rewrite run_bind. unfold deref, gets. lazy beta iota.
  unfold modify. do 4 f_equal.
  case_bool_decide as Hlen; [done|].
  rewrite take_ge; [done|]. cbn in *. lia.
Qed.

Lemma converts_demo_content b type :
  converts (js_or (field (demoSheets b) type) (VStr demoChordSheet)) = true.
Proof.
  apply converts_js_or; [|done].
  unfold field, demoSheets, get_prop, assoc, proto_lookup.
  repeat (destruct (String.eqb type _); [reflexivity|]).
  by destruct (bool_decide _).
Qed.

Lemma demoData_displayable env url type b : displayable (demoData env url type b) = true.
Proof.
  unfold displayable, display_keys. cbn [forallb].
  change (field (demoData env url type b) "content")
    with (js_or (field (demoSheets b) type) (VStr demoChordSheet)).
  by rewrite converts_demo_content.
Qed.

Lemma showDemoResult_shown env url w :
  has_els w result_ids →
  let l := fresh (dom (heap w)) in
  let v := demoData env url (currentType w) (build w) in
  showDemoResult env url w =
    saveToLocalHistory l
      (set_currentResult (Some l)
         (add_effect (EScrollIntoView "result-section")
            (set_document (display_dom v) (set_heap (<[l := v]>) w)))).
Proof.
  intros H l v. unfold showDemoResult.
  rewrite run_bind. unfold gets at 1. lazy beta iota.
  rewrite run_bind. unfold gets at 1. lazy beta iota.
  rewrite run_bind. unfold alloc. lazy beta iota zeta.
  rewrite run_bind.
  rewrite (displayResult_run _ v);
    [| solve_has | apply lookup_insert_eq | done | apply demoData_displayable].
  lazy beta iota. rewrite run_bind. reflexivity.
Qed.

(** ** The phases of [startTranscribe] *)

Lemma get_value_run id w e :
  document w !! id = Some e → get_value id w = (Ok (value e), w).
Proof. apply read_el_run. Qed.

Lemma document_alter_ne f i w id (e : Element) :
  i ≠ id → document w !! id = Some e →
  document (set_document (alter f i) w) !! id = Some e.
Proof. intros Hne He. cbn. by rewrite lookup_alter_ne. Qed.

Lemma toast_dom_ne msg d id : id ≠ "toast" → toast_dom msg d !! id = d !! id.
Proof. intros. unfold toast_dom. by rewrite !lookup_alter_ne. Qed.

Lemma step_dom_ne el idx step d id : el ≠ id → step_dom el idx step d !! id = d !! id.
Proof.
  intros. unfold step_dom.
  destruct (idx =? step)%Z, (idx <? step)%Z; by rewrite !lookup_alter_ne.
Qed.

Lemma progress_dom_ne step percent d id :
  id ∉ progress_ids → progress_dom step percent d !! id = d !! id.
Proof.
  intros Hid. unfold progress_ids in Hid.
  repeat (apply not_elem_of_cons in Hid as [? Hid]).
  unfold progress_dom.
  destruct (percent <? 0)%Z; by rewrite ?lookup_alter_ne, !step_dom_ne, lookup_alter_ne.
Qed.

Lemma busy_dom_ne d id :
  id ∉ ["transcribe-btn"; "transcribe-btn .btn-text"; "transcribe-btn .btn-loading";
        "result-section"] →
  busy_dom d !! id = d !! id.
Proof.
  intros Hid. repeat (apply not_elem_of_cons in Hid as [? Hid]).
  unfold busy_dom. by rewrite !lookup_alter_ne.
Qed.

Lemma idle_dom_ne d id :
  id ∉ ["transcribe-btn"; "transcribe-btn .btn-text"; "transcribe-btn .btn-loading"] →
  idle_dom d !! id = d !! id.
Proof.
  intros Hid. repeat (apply not_elem_of_cons in Hid as [? Hid]).
  unfold idle_dom. by rewrite !lookup_alter_ne.
Qed.

Lemma sent_dom_ne d id :
  id ∉ progress_ids →
  id ∉ ["transcribe-btn"; "transcribe-btn .btn-text"; "transcribe-btn .btn-loading";
        "result-section"] →
  sent_dom d !! id = d !! id.
Proof. intros. unfold sent_dom. by rewrite !progress_dom_ne, busy_dom_ne. Qed.

Lemma keeps_els_busy : keeps_els busy_dom.
Proof. intros d j. unfold busy_dom. by rewrite !lookup_alter_is_Some. Qed.

Lemma keeps_els_idle : keeps_els idle_dom.
Proof. intros d j. unfold idle_dom. by rewrite !lookup_alter_is_Some. Qed.

Lemma keeps_els_sent : keeps_els sent_dom.
Proof.
  intros d j. unfold sent_dom.
  rewrite !(keeps_els_progress _ _ _ j). apply keeps_els_busy.
Qed.

#[local] Hint Resolve keeps_els_busy keeps_els_idle keeps_els_sent : page.

Lemma startTranscribe_guard env w e :
  document w !! "youtube-url" = Some e → has_el w "toast" →
  valid_url (value e) = false →
  startTranscribe env w =
    (Ok tt,
     if String.eqb (trim (value e)) "" then
       add_effect (EFocus "youtube-url")
         (add_effect (ESetTimeout 2500 ToastFadeOut)
            (set_document (toast_dom "請輸入 YouTube 連結") w))
     else
       add_effect (ESetTimeout 2500 ToastFadeOut)
         (set_document (toast_dom "請輸入有效的 YouTube 連結") w)).
Proof.
  intros He Ht Hv. unfold startTranscribe, valid_url in *.
  rewrite run_bind, (get_value_run _ _ e He). lazy beta iota zeta.
  destruct (String.eqb (trim (value e)) "") eqn:Hempty.
  - rewrite run_bind, showToast_run by done. lazy beta iota.
    assert (has_el w "youtube-url") by (by exists e).
    unfold focus. rewrite run_bind, read_el_unit_run by solve_has. reflexivity.
  - cbn in Hv. apply orb_false_iff in Hv as [-> ->]. cbn.
    by rewrite showToast_run.
Qed.

Lemma startTranscribe_sent env w e k :
  has_els w page_ids →
  document w !! "youtube-url" = Some e → document w !! "key-select" = Some k →
  valid_url (value e) = true →
  startTranscribe env w =
    try_catch_finally
      (λ _,
         let w' := add_effect (request_of w (trim (value e)) (value k))
                              (set_document sent_dom w) in
         match fetch_outcome env with
         | FetchRejected err => (Throw err, w')
         | FetchResponse ok b => handle_response (ok, b) w'
         end)
      (fallback env (trim (value e))) restore_button w.
Proof.
  intros H He Hk Hv. unfold page_ids, form_ids, progress_ids, result_ids in H. split_els.
  assert (Hp : ∀ w', (∀ id, has_el w' id ↔ has_el w id) → has_els w' progress_ids).
  { intros w' Hw'. unfold progress_ids. repeat constructor; by apply Hw'. }
  unfold startTranscribe, valid_url in *.
  rewrite run_bind, (get_value_run _ _ e He). lazy beta iota zeta.
  apply andb_true_iff in Hv as [Hne Hinc].
  apply negb_true_iff in Hne. rewrite Hne.
  replace (negb (includes "youtube.com" (trim (value e)))
           && negb (includes "youtu.be" (trim (value e)))) with false
    by (rewrite <- negb_orb, Hinc; done).
  do 5 step.
  unfold try_catch_finally. f_equal.
  rewrite run_bind, showProgress_run
    by (apply Hp; intros; by rewrite !has_el_set_document by auto with page).
  lazy beta iota. unfold delay. rewrite run_ret_bind.
  rewrite run_bind, showProgress_run
    by (apply Hp; intros; by rewrite !has_el_set_document by auto with page).
  lazy beta iota.
  rewrite run_bind, (get_value_run _ _ k)
    by (cbn [document set_document];
        rewrite !progress_dom_ne, !lookup_alter_ne by compute_done; done).
  lazy beta iota zeta.
  rewrite run_bind, showProgress_run
    by (apply Hp; intros; by rewrite !has_el_set_document by auto with page).
  lazy beta iota.
  rewrite run_bind. unfold gets at 1. lazy beta iota.
  rewrite run_bind. unfold gets at 1. lazy beta iota.
  rewrite run_bind. unfold fetch. by destruct (fetch_outcome env).
Qed.

Lemma handle_response_preserves {X} (f : World → X) r :
  (∀ g w, f (set_document g w) = f w) →
  (∀ g w, f (set_heap g w) = f w) →
  (∀ r w, f (set_currentResult r w) = f w) →
  (∀ w, f (add_effect (EScrollIntoView "result-section") w) = f w) →
  (∀ w, f (add_effect (ESetTimeout 2500 ToastFadeOut) w) = f w) →
  preserves f (handle_response r).
Proof.
  intros H1 H2 H3 H4 H5. unfold handle_response.
  apply preserves_bind; [by apply showProgress_preserves|intros _].
  apply preserves_bind; [pres|intros _].
  apply preserves_bind; [pres|intros body].
  apply preserves_bind; [pres|intros data].
  apply preserves_bind; [by apply showProgress_preserves|intros _].
  apply preserves_bind; [pres|intros _].
  apply preserves_bind; [by apply hideProgress_preserves|intros _].
  apply preserves_bind; [by apply displayResult_preserves|intros _].
  apply preserves_bind; [pres|intros _].
  by apply showToast_preserves.
Qed.

Lemma fallback_preserves {X} (f : World → X) env url err :
  (∀ g w, f (set_document g w) = f w) →
  (∀ g w, f (set_heap g w) = f w) →
  (∀ g w, f (set_localStorage g w) = f w) →
  (∀ r w, f (set_currentResult r w) = f w) →
  (∀ w, f (add_effect (EScrollIntoView "result-section") w) = f w) →
  (∀ w, f (add_effect (ESetTimeout 2500 ToastFadeOut) w) = f w) →
  preserves f (fallback env url err).
Proof.
  intros H1 H2 H3 H4 H5 H6. unfold fallback.
  apply preserves_bind; [by apply hideProgress_preserves|intros _].
  apply preserves_bind; [by apply showDemoResult_preserves|intros _].
  by apply showToast_preserves.
Qed.

Lemma restore_button_preserves {X} (f : World → X) :
  (∀ g w, f (set_document g w) = f w) → preserves f restore_button.
Proof. intros H1. unfold restore_button. pres. Qed.

(** After the request has left, nothing else is sent. *)
Lemma startTranscribe_fetches env w e k :
  has_els w page_ids →
  document w !! "youtube-url" = Some e → document w !! "key-select" = Some k →
  valid_url (value e) = true →
  fetches (snd (startTranscribe env w))
  = (fetches w ++ [request_of w (trim (value e)) (value k)])%list.
Proof.
  intros H He Hk Hv. rewrite (startTranscribe_sent env w e k) by done.
  set (w' := add_effect _ _).
  assert (Hw' : fetches w' = (fetches w ++ [request_of w (trim (value e)) (value k)])%list).
  { unfold w', fetches. cbn. by rewrite filter_app. }
  rewrite <- Hw'.
  set (f := fetches).
  assert (Hfin : ∀ w0, f (snd (restore_button w0)) = f w0).
  { apply restore_button_preserves. done. }
  assert (Hfb : ∀ err w0, f (snd (fallback env (trim (value e)) err w0)) = f w0).
  { intros err. apply fallback_preserves; try done; intros; by apply fetches_add_effect. }
  assert (Hhr : ∀ r w0, f (snd (handle_response r w0)) = f w0).
  { intros r. apply handle_response_preserves; try done;
      intros; by apply fetches_add_effect. }
  unfold try_catch_finally. lazy zeta.
  destruct (fetch_outcome env) as [err|ok b].
  - specialize (Hfb err w'). destruct (fallback _ _ _ _) as [r1 w1]. cbn in Hfb.
    specialize (Hfin w1). destruct (restore_button w1) as [[[]|e2] w2]; cbn in *; congruence.
  - specialize (Hhr (ok, b) w'). destruct (handle_response _ _) as [[[]|err] w0]; cbn in Hhr.
    + specialize (Hfin w0). destruct (restore_button w0) as [[[]|e2] w2]; cbn in *; congruence.
    + specialize (Hfb err w0). destruct (fallback _ _ _ _) as [r1 w1]. cbn in Hfb.
      specialize (Hfin w1). destruct (restore_button w1) as [[[]|e2] w2]; cbn in *; congruence.
Qed.

(** ** A failing request *)

Lemma handle_response_fails b err w :
  has_els w progress_ids →
  failure (FetchResponse false b) = Some err →
  handle_response (false, b) w = (Throw err, set_document (progress_dom 2 80) w).
Proof.
  intros H Hf. unfold handle_response.
  rewrite run_bind, showProgress_run by done. lazy beta iota.
  cbn [fst snd negb]. rewrite run_bind.
  destruct b as [v|e]; cbn in Hf; injection Hf as <-.
  - unfold response_json. rewrite run_bind, run_ret. lazy beta iota.
    rewrite run_bind. unfold lift at 1.
    destruct (get_prop v "detail") as [d|]; [|done]. lazy beta iota.
    rewrite run_bind. unfold lift at 1. by destruct (ToString_checked _).
  - reflexivity.
Qed.

Lemma restore_button_run w :
  has_els w form_ids → restore_button w = (Ok tt, set_document idle_dom w).
Proof.
  intros H. unfold form_ids in H. split_els. unfold restore_button.
  do 2 step. by rewrite classList_add_run by solve_has.
Qed.

Lemma fallback_run env url err h w :
  has_els w page_ids →
  JSON_parse (history_text w) = Ok (VArr h) →
  let l := fresh (dom (heap w)) in
  let v := demoData env url (currentType w) (build w) in
  fallback env url err w =
    (Ok tt,
     add_effect (ESetTimeout 2500 ToastFadeOut)
       (set_document (toast_dom (fallback_toast err))
          (set_localStorage
             (<["tab-finder-history" :=
                  default "undefined" (JSON_stringify (VArr (take 50 (v :: h))))]>)
             (set_currentResult (Some l)
                (add_effect (EScrollIntoView "result-section")
                   (set_document (display_dom v)
                      (set_heap (<[l := v]>)
                         (set_document
                            (alter (set_classList_el (token_add "hidden")) "progress-section")
                            w)))))))).
Proof.
  intros H Hp l v. unfold page_ids in H. apply Forall_app in H as [Hform H].
  apply Forall_app in H as [Hprog Hres].
  unfold fallback.
  rewrite run_bind, hideProgress_run
    by (unfold progress_ids in Hprog; by split_els).
  lazy beta iota.
  rewrite run_bind, showDemoResult_shown by solve_has.
  lazy zeta. rewrite (saveToLocalHistory_run _ h) by exact Hp.
  lazy beta iota. cbn [heap set_currentResult add_effect set_document set_heap].
  rewrite lookup_insert_eq. cbn [default].
  rewrite showToast_run; [done|].
  unfold form_ids in Hform. split_els. solve_has.
Qed.

Lemma toast_dom_toast msg d e :
  d !! "toast" = Some e →
  ∃ e', toast_dom msg d !! "toast" = Some e'
        ∧ textContent e' = msg
        ∧ bool_decide ("hidden" ∈ classList e') = false.
Proof.
  intros He. unfold toast_dom. eexists. split; [by simplify_map_eq|]. split; [done|].
  cbn. apply bool_decide_eq_false. unfold token_add, token_remove.
  case_bool_decide; rewrite ?elem_of_app, list_elem_of_filter, ?list_elem_of_singleton;
    intros Hin; [tauto|]. by destruct Hin as [[? _]|?].
Qed.

(** What the [catch] and [finally] blocks leave behind, from the state
    [wX] in which the [try] block threw. *)
Lemma fallback_outcome env url err h wX w0 :
  has_els wX page_ids →
  JSON_parse (history_text wX) = Ok (VArr h) →
  let l := fresh (dom (heap wX)) in
  let v := demoData env url (currentType wX) (build wX) in
  ∃ w', try_catch_finally (λ _, (Throw err, wX)) (fallback env url) restore_button w0
        = (Ok tt, w')
    ∧ text_of w' "toast" = Some (fallback_toast err)
    ∧ hidden w' "toast" = Some false
    ∧ hidden w' "result-section" = Some false
    ∧ text_of w' "sheet-content" = Some (DOMString_nullable (field v "content"))
    ∧ currentResult w' = Some l
    ∧ heap w' = <[l := v]> (heap wX)
    ∧ localStorage w' =
        <["tab-finder-history" :=
            default "undefined" (JSON_stringify (VArr (take 50 (v :: h))))]>
          (localStorage wX).
Proof.
  intros H Hp l v. unfold try_catch_finally.
  rewrite (fallback_run env url err h) by done. lazy zeta.
  pose proof H as H'. unfold page_ids, form_ids, progress_ids, result_ids in H'. split_els.
  rewrite restore_button_run
    by (unfold form_ids; repeat constructor; solve_has).
  eexists. split; [reflexivity|].
  unfold text_of, hidden.
  cbn [document heap currentResult localStorage set_document set_heap set_currentResult
       set_localStorage add_effect].
  repeat match goal with H : has_el _ _ |- _ => destruct H as [? ?] end.
  rewrite !idle_dom_ne by compute_done.
  edestruct (toast_dom_toast (fallback_toast err)) as (e' & -> & He1 & He2).
  { rewrite display_dom_other, lookup_alter_ne by compute_done. eassumption. }
  rewrite !toast_dom_ne by done. cbn [fmap option_fmap option_map].
  rewrite He1, He2.
  erewrite (display_dom_text v _ "sheet-content");
    [| rewrite lookup_alter_ne by done; eassumption | compute_done ].
  erewrite display_dom_section by (rewrite lookup_alter_ne by done; eassumption).
  done.
Qed.

(** A request that fails leaves the [try] block by an exception, thrown
    in a state [wX] that differs from the initial one by the page and the
    log only. *)
Lemma startTranscribe_failed env w e k err :
  has_els w page_ids →
  document w !! "youtube-url" = Some e → document w !! "key-select" = Some k →
  valid_url (value e) = true →
  failure (fetch_outcome env) = Some err →
  ∃ wX, startTranscribe env w
        = try_catch_finally (λ _, (Throw err, wX)) (fallback env (trim (value e)))
            restore_button w
    ∧ has_els wX page_ids
    ∧ heap wX = heap w ∧ currentType wX = currentType w ∧ build wX = build w
    ∧ localStorage wX = localStorage w.
Proof.
  intros H He Hk Hv Hfail.
  rewrite (startTranscribe_sent env w e k) by done. lazy zeta.
  destruct (fetch_outcome env) as [err'|[] b]; cbn in Hfail; [| done |].
  - injection Hfail as ->. eexists. split; [reflexivity|].
    split; [unfold has_els; solve_has|]. done.
  - rewrite handle_response_fails with (err := err);
      [| unfold page_ids in H; apply Forall_app in H as [_ H];
         apply Forall_app in H as [H _]; solve_has
       | exact Hfail ].
    eexists. split; [reflexivity|].
    split; [unfold has_els; solve_has|]. done.
Qed.

(** ** Share links *)

Lemma assoc_None k ps : k ∉ map fst ps → assoc k ps = None.
Proof.
  induction ps as [|[k' v] ps IH]; [done|]. cbn [map fst assoc].
  intros [Hne Hk]%not_elem_of_cons.
  rewrite (proj2 (String.eqb_neq k k')) by done. by apply IH.
Qed.

Lemma defined_props_cons k v ps :
  defined_props ((k, v) :: ps)
  = if is_undef v then defined_props ps else (k, v) :: defined_props ps.
Proof.
  unfold defined_props. rewrite filter_cons. cbn [snd].
  destruct (is_undef v); by case_decide.
Qed.

Lemma defined_props_keys ps : map fst (defined_props ps) ⊆ map fst ps.
Proof.
  induction ps as [|[k v] ps IH]; [done|]. rewrite defined_props_cons.
  intros x Hx. cbn [map fst]. destruct (is_undef v).
  - apply elem_of_cons. right. by apply IH.
  - cbn [map fst] in Hx. apply elem_of_cons in Hx as [->|Hx]; apply elem_of_cons; [by left|].
    right. by apply IH.
Qed.

Lemma defined_props_NoDup ps : NoDup (map fst ps) → NoDup (map fst (defined_props ps)).
Proof.
  induction ps as [|[k v] ps IH]; [done|]. rewrite defined_props_cons.
  cbn [map fst]. intros [Hk Hnd]%NoDup_cons. destruct (is_undef v); [by apply IH|].
  cbn [map fst]. apply NoDup_cons. split; [|by apply IH].
  intros Hin. by apply Hk, defined_props_keys.
Qed.

(** Reading a property of the object without its [undefined] properties. *)
Lemma assoc_defined_props k ps :
  NoDup (map fst ps) →
  assoc k (defined_props ps)
  = match assoc k ps with
    | Some v => if is_undef v then None else Some v
    | None => None
    end.
Proof.
  induction ps as [|[k' v] ps IH]; [done|]. rewrite defined_props_cons.
  cbn [map fst]. intros [Hk Hnd]%NoDup_cons. cbn [assoc].
  destruct (String.eqb_spec k k') as [->|Hne].
  - destruct (is_undef v) eqn:Hv.
    + rewrite IH by done. by rewrite assoc_None.
    + cbn [assoc]. by rewrite String.eqb_refl.
  - destruct (is_undef v); [by apply IH|].
    cbn [assoc]. rewrite (proj2 (String.eqb_neq k k')) by done. by apply IH.
Qed.

Lemma field_defined_props k ps :
  NoDup (map fst ps) → proto_lookup k = VUndef →
  field (VObj (defined_props ps)) k = field (VObj ps) k.
Proof.
  intros Hnd Hk. unfold field, get_prop. rewrite assoc_defined_props by done.
  destruct (assoc k ps) as [v|]; [|done].
  destruct v; cbn [is_undef]; done.
Qed.

Lemma defined_props_all ps :
  existsb (λ p, is_undef (snd p)) ps = false → defined_props ps = ps.
Proof.
  induction ps as [|[k v] ps IH]; [done|].
  cbn [existsb snd]. intros [Hv Hps]%orb_false_iff.
  rewrite defined_props_cons, Hv. f_equal. by apply IH.
Qed.

(** [JSON.stringify] leaves the [undefined] properties out. *)
Lemma omap_defined_props ps :
  omap (λ p : string * JsVal,
          (λ t, QuoteJSONString (fst p) +:+ ":" +:+ t) <$> JSON_stringify (snd p)) ps
  = omap (λ p : string * JsVal,
          (λ t, QuoteJSONString (fst p) +:+ ":" +:+ t) <$> JSON_stringify (snd p))
      (defined_props ps).
Proof.
  induction ps as [|[k v] ps IH]; [done|]. rewrite defined_props_cons.
  destruct (is_undef v) eqn:Hv.
  - destruct v; try discriminate. cbn [omap list_omap snd JSON_stringify fmap option_fmap option_map].
    exact IH.
  - cbn [omap list_omap]. by rewrite IH.
Qed.

Lemma stringify_defined_props ps :
  JSON_stringify (VObj ps) = JSON_stringify (VObj (defined_props ps)).
Proof. cbn [JSON_stringify]. by rewrite omap_defined_props. Qed.

Lemma shareable_props ps :
  forallb (λ p, shareable (snd p)) ps = true →
  Forall (λ p, is_json (snd p) = true ∧ utf8_json (snd p) = true) (defined_props ps).
Proof.
  induction ps as [|[k v] ps IH]; [constructor|]. rewrite defined_props_cons.
  cbn [forallb snd]. intros [Hv Hps]%andb_true_iff.
  destruct (is_undef v) eqn:Hu; [by apply IH|].
  constructor; [|by apply IH]. cbn [snd].
  unfold shareable in Hv. rewrite Hu in Hv. by apply andb_true_iff in Hv.
Qed.

Lemma Forall_forallb_true {A} (f : A → bool) l :
  Forall (λ x, f x = true) l → forallb f l = true.
Proof. induction 1 as [|x l Hx _ IH]; [done|]. cbn. by rewrite Hx, IH. Qed.

(** What [shareSheet] serialises parses back to the object without its
    [undefined] properties. *)
Lemma shared_object_json ps :
  NoDup (map fst ps) → Forall (λ k, utf8_valid k = true) (map fst ps) →
  forallb (λ p, shareable (snd p)) ps = true →
  is_json (VObj (defined_props ps)) = true ∧ utf8_json (VObj (defined_props ps)) = true.
Proof.
  intros Hnd Hkeys Hps. pose proof (shareable_props ps Hps) as Hall. split.
  - cbn [is_json]. apply andb_true_iff. split.
    + apply bool_decide_eq_true. by apply defined_props_NoDup.
    + apply Forall_forallb_true. eapply Forall_impl; [exact Hall|]. by intros p [? ?].
  - cbn [utf8_json]. apply Forall_forallb_true.
    apply Forall_forall. intros p Hp.
    pose proof (proj1 (Forall_forall _ _) Hall p Hp) as [_ Hu]. rewrite Hu, andb_true_r.
    apply (proj1 (Forall_forall _ _) Hkeys), defined_props_keys.
    apply list_elem_of_fmap. by exists p.
Qed.

Lemma no_line_terminator s :
  Forall (λ c, (code c < 128)%N ∧ (code c ≠ 10 ∧ code c ≠ 13)%N) (list_ascii_of_string s) →
  has_line_terminator s = false.
Proof.
  induction s as [|c r IH]; [done|]. cbn [list_ascii_of_string].
  intros [[Hc [H10 H13]] Hr]%Forall_cons. cbn [has_line_terminator].
  rewrite IH, orb_false_r by done.
  rewrite bool_decide_eq_false_2 by lia. cbn [orb].
  destruct r as [|c2 [|c3 r]]; [done..|].
  apply bool_decide_eq_false_2. lia.
Qed.

Lemma base64_padding_chars l : Forall (λ c, c = "="%char) (base64_padding l).
Proof.
  induction l as [|a|a b|a b c r IH] using list_ind3; cbn [base64_padding];
    repeat constructor; done.
Qed.

Lemma base64_encode_no_line_terminator l :
  has_line_terminator (base64_encode l) = false.
Proof.
  apply no_line_terminator. rewrite base64_encode_chars. apply Forall_app. split.
  - apply Forall_forall. intros c [n [-> _]]%list_elem_of_fmap.
    by destruct (b64_char_symbol n) as (_ & _ & ? & ?).
  - eapply Forall_impl; [apply base64_padding_chars|]. intros c ->. by vm_compute.
Qed.

Lemma base64_encode_nonempty a l : base64_encode (a :: l) ≠ "".
Proof. by destruct l as [|b [|c r]]. Qed.

Lemma strip_prefix_app p s : strip_prefix p (p +:+ s) = Some s.
Proof.
  induction p as [|c p IH]; [by rewrite string_app_nil_l|].
  rewrite string_app_cons. cbn [strip_prefix]. by rewrite Ascii.eqb_refl.
Qed.

Lemma encoded_object_nonempty ps :
  Forall (λ p, is_json (snd p) = true) ps →
  ∃ a l, codes (encodeURIComponent (json_text (VObj ps))) = a :: l.
Proof.
  intros H. rewrite json_text_obj by done. rewrite string_app_cons.
  cbn [encodeURIComponent]. change (uri_unreserved "{") with false. cbv iota.
  unfold codes. cbn [list_ascii_of_string map]. eauto.
Qed.

(** The encoding of [shareSheet] followed by the decoding of
    [handleHashNavigation], for an object literal [{k1: v1, ...}]. *)
Lemma encode_decode_share ps :
  NoDup (map fst ps) → Forall (λ k, utf8_valid k = true) (map fst ps) →
  forallb (λ p, shareable (snd p)) ps = true →
  ∃ encoded,
    encode_share (VObj ps) = Ok encoded
    ∧ match_after "#share-" ("#share-" +:+ encoded) = Some encoded
    ∧ decode_share encoded = Ok (VObj (defined_props ps)).
Proof.
  intros Hnd Hkeys Hps.
  destruct (shared_object_json ps Hnd Hkeys Hps) as [Hj Hu].
  set (text := json_text (VObj (defined_props ps))).
  destruct (atob_btoa (encodeURIComponent text) (encodeURIComponent_ascii text))
    as (e & Hbtoa & Hatob & He).
  exists e. split; [|split].
  - unfold encode_share. rewrite stringify_defined_props, (stringify_json _ Hj).
    exact Hbtoa.
  - unfold match_after. rewrite strip_prefix_app.
    destruct (is_json_obj _ Hj) as [_ Hall].
    destruct (encoded_object_nonempty _ Hall) as (a & l & Hcodes).
    fold text in Hcodes. rewrite He, Hcodes.
    rewrite base64_encode_no_line_terminator, orb_false_r.
    destruct (String.eqb_spec (base64_encode (a :: l)) "") as [Heq|_]; [|done].
    by apply base64_encode_nonempty in Heq.
  - unfold decode_share. rewrite Hatob.
    rewrite decodeURIComponent_encode by by apply json_text_valid.
    by apply JSON_parse_stringify.
Qed.

(** [handleHashNavigation] on a ["#share-"] fragment: the decoded object
    becomes the current result. *)
Lemma handleHashNavigation_share w encoded decoded :
  hash (location w) = "#share-" +:+ encoded →
  match_after "#share-" ("#share-" +:+ encoded) = Some encoded →
  decode_share encoded = Ok decoded →
  ∃ data, currentResult (snd (handleHashNavigation w)) = Some data
          ∧ heap (snd (handleHashNavigation w)) !! data = Some decoded.
Proof.
  intros Hh Hm Hd. exists (fresh (dom (heap w))).
  unfold handleHashNavigation. rewrite run_bind. cbn [gets]. rewrite Hh.
  rewrite string_app_cons. cbn [String.eqb]. rewrite <- string_app_cons.
  assert (match_after "#sheet-" ("#share-" +:+ encoded) = None) as ->.
  { unfold match_after. rewrite !string_app_cons. reflexivity. }
  rewrite run_ret_bind, Hm.
  set (l := fresh (dom (heap w))).
  set (w2 := set_currentResult (Some l) (set_heap (<[l := decoded]>) w)).
  assert (Hrun : ∀ (h : Exn → M unit),
            try_catch (v ← lift (decode_share encoded);
                       data ← alloc v;
                       modify (set_currentResult (Some data)) ;; displayResult data) h w
            = try_catch (displayResult l) h w2).
  { intros h. unfold try_catch. rewrite run_bind. unfold lift at 1. by rewrite Hd. }
  rewrite Hrun.
  pose (obs := λ x : World, (currentResult x, heap x)).
  assert (Hobs : obs (snd (try_catch (displayResult l) (λ _, showToast "無法解析分享連結") w2))
                 = obs w2).
  { apply preserves_try_catch; [|intros _]; [apply displayResult_preserves|apply showToast_preserves];
      by intros. }
  unfold obs in Hobs. injection Hobs as -> ->.
  split; [done|]. unfold w2. cbn [heap set_currentResult set_heap].
  by rewrite lookup_insert_eq.
Qed.

(** [shareSheet()] for the current result, when the link carries the
    sheet itself: the modal shows the link made of the encoded
    [shareData]. *)
Lemma shareSheet_link w sheet v encoded :
  currentResult w = Some sheet → heap w !! sheet = Some v → truthy v = true →
  IS_GITHUB_PAGES w && truthy (field v "id") = false →
  encode_share (shareData (field v "title") (field v "content") (field v "tempo")
                          (field v "key") (field v "output_type")) = Ok encoded →
  shareSheet None w
  = showQRCodeModal (js_or (field v "title") (VStr "樂譜"))
      ((if IS_GITHUB_PAGES w then origin (location w) +:+ pathname (location w)
        else before_hash (href (location w))) +:+ "#share-" +:+ encoded) w.
Proof.
  intros Hc Hv Ht Hp He.
  assert (Hn : nullish v = false) by by destruct v.
  unfold shareSheet. rewrite run_bind. cbn [gets]. rewrite Hc.
  assert (Hderef : deref sheet w = (Ok v, w)) by (unfold deref, gets; by rewrite Hv).
  rewrite run_bind, Hderef, Ht. cbn [negb].
  do 5 (rewrite run_bind, (prop_run _ _ _ _ Hv Hn)).
  rewrite run_bind. cbn [gets].
  rewrite run_bind, (prop_run _ _ _ _ Hv Hn).
  rewrite run_bind. cbn [gets].
  rewrite Hp, run_assoc, run_bind. unfold lift at 1. rewrite He.
  by rewrite run_ret_bind.
Qed.

(** * The claims *)

(** C1.  For every result object passed to [displayResult], its fields
    being values that convert to strings (as the strings and numbers of a
    result do) and [midi_note] a string when present, the advisory note
    element shows the text of [midi_note] and is made visible exactly
    when [midi_note] is present and non-empty; when it is absent the
    element is hidden.  In both cases the title, the tempo, the key, the
    label of the output type and the content are rendered. *)
Theorem displayResult_advisory_note data v w :
  has_els w result_ids →
  heap w !! data = Some v → nullish v = false → displayable v = true →
  optional_string (field v "midi_note") →
  ∃ w', displayResult data w = (Ok tt, w')
    ∧ (hidden w' "result-note" = Some false
       ↔ ∃ s, field v "midi_note" = VStr s ∧ s ≠ "")
    ∧ (∀ s, field v "midi_note" = VStr s → s ≠ "" →
         text_of w' "result-note" = Some s)
    ∧ ((¬ ∃ s, field v "midi_note" = VStr s ∧ s ≠ "") →
         hidden w' "result-note" = Some true)
    ∧ text_of w' "result-title"
      = Some (DOMString_nullable (js_or (field v "title") (VStr "未知歌曲")))
    ∧ text_of w' "result-tempo"
      = Some ("♩ = " +:+ ToString (js_or (field v "tempo") (VNum 120)))
    ∧ text_of w' "result-key"
      = Some (ToString (js_or (field v "key") (VStr "C")) +:+ " 大調")
    ∧ text_of w' "result-type"
      = Some (DOMString_nullable
                (js_or (field typeLabels (ToString (field v "output_type"))) (VStr "")))
    ∧ text_of w' "sheet-content" = Some (DOMString_nullable (field v "content")).
Proof.
  intros H Hv Hn Hd Hopt. rewrite (displayResult_run data v) by done.
  eexists. split; [reflexivity|].
  unfold result_ids in H. split_els.
  repeat match goal with H : has_el _ _ |- _ => destruct H as [? ?] end.
  unfold text_of, hidden. cbn [document add_effect set_document].
  edestruct (display_dom_note v) as (e' & -> & Hh & Ht); [eassumption|].
  cbn [fmap option_fmap option_map]. rewrite Hh.
  assert (Htruthy : truthy (field v "midi_note") = true
                    ↔ ∃ s, field v "midi_note" = VStr s ∧ s ≠ "").
  { destruct (field v "midi_note") as [| | | |s| | |]; cbn in *; try done;
      try (split; [done|by intros (? & ? & ?)]).
    rewrite negb_true_iff. split.
    - intros Hs. exists s. split; [done|]. intros ->. done.
    - intros (s' & [= <-] & Hs). by apply String.eqb_neq. }
  split; [|split; [|split]].
  - rewrite <- Htruthy. destruct (truthy _); cbn; split; intros; congruence.
  - intros s Hs Hne. rewrite Ht by (apply Htruthy; eauto). by rewrite Hs.
  - intros Hno. rewrite <- Htruthy in Hno. by destruct (truthy _).
  - repeat split;
      (erewrite display_dom_text; [reflexivity | eassumption | compute_done]).
Qed.

Lemma displayResult_advisory_note_witness :
  ∃ w', displayResult 0 (sample_world "" "" "chord_sheet" [sample_result]) = (Ok tt, w')
        ∧ text_of w' "result-note" = Some "2 notes out of range".
Proof.
  destruct (displayResult_advisory_note 0 sample_result
              (sample_world "" "" "chord_sheet" [sample_result]))
    as (w' & Hrun & _ & Htext & _).
  - unfold has_els. compute_done.
  - reflexivity.
  - reflexivity.
  - reflexivity.
  - exact I.
  - exists w'. split; [exact Hrun|]. by apply Htext.
Defined.

(** C7.  [displayResult] only reads the result object: whatever the state
    and whatever the outcome of the call, every object of the store, and
    with it every field of the result, is the same after rendering as
    before; so are the references [currentResult] and [allSheets] to it. *)
Theorem displayResult_leaves_result_unchanged data w :
  heap (snd (displayResult data w)) = heap w
  ∧ currentResult (snd (displayResult data w)) = currentResult w
  ∧ allSheets (snd (displayResult data w)) = allSheets w.
Proof.
  repeat split.
  - by apply (displayResult_preserves heap).
  - by apply (displayResult_preserves currentResult).
  - by apply (displayResult_preserves allSheets).
Qed.

Lemma field_demoData_content env url type b :
  field (demoData env url type b) "content"
  = js_or (field (demoSheets b) type) (VStr demoChordSheet).
Proof. reflexivity. Qed.

Lemma showDemoResult_document env url w :
  has_els w result_ids →
  document (snd (showDemoResult env url w))
  = display_dom (demoData env url (currentType w) (build w)) (document w).
Proof.
  intros H. rewrite showDemoResult_shown by done. lazy zeta.
  by rewrite (saveToLocalHistory_preserves document).
Qed.

(** C6.  Rendering is deterministic and depends on nothing but its input:
    whatever the two states it runs in, [displayResult] shows the same
    text (content, title, tempo, key and type label) for the same result
    object, the fields of which convert to strings, and [showDemoResult]
    shows the same content for the same selected type, whatever the
    address, the clock and the stored history. *)
Theorem rendering_deterministic env1 env2 url1 url2 w1 w2 d1 d2 v :
  has_els w1 result_ids → has_els w2 result_ids →
  (heap w1 !! d1 = Some v → heap w2 !! d2 = Some v → nullish v = false →
   displayable v = true →
   ∃ w1' w2', displayResult d1 w1 = (Ok tt, w1') ∧ displayResult d2 w2 = (Ok tt, w2')
     ∧ text_of w1' "sheet-content" = text_of w2' "sheet-content"
     ∧ text_of w1' "sheet-content" = Some (DOMString_nullable (field v "content"))
     ∧ ∀ id, id ∈ ["result-title"; "result-tempo"; "result-key"; "result-type"] →
             text_of w1' id = text_of w2' id)
  ∧ (currentType w1 = currentType w2 → build w1 = build w2 →
     text_of (snd (showDemoResult env1 url1 w1)) "sheet-content"
     = text_of (snd (showDemoResult env2 url2 w2)) "sheet-content").
Proof.
  intros H1 H2. split.
  - intros Hv1 Hv2 Hn Hd.
    rewrite (displayResult_run d1 v), (displayResult_run d2 v) by done.
    do 2 eexists. do 2 (split; [reflexivity|]).
    unfold text_of. cbn [document add_effect set_document].
    assert (Hall : ∀ id, id ∈ result_ids →
              id ∈ ["result-title"; "result-tempo"; "result-key"; "result-type";
                    "sheet-content"] →
              textContent <$> display_dom v (document w1) !! id
              = textContent <$> display_dom v (document w2) !! id).
    { intros id Hid Hin.
      destruct (proj1 (Forall_forall _ _) H1 id Hid) as [e1 He1].
      destruct (proj1 (Forall_forall _ _) H2 id Hid) as [e2 He2].
      by rewrite (display_dom_text v _ id e1), (display_dom_text v _ id e2). }
    split; [apply Hall; compute_done|]. split.
    + destruct (proj1 (Forall_forall _ _) H1 "sheet-content") as [e1 He1]; [compute_done|].
      by erewrite display_dom_text; [|eassumption|compute_done].
    + intros id Hid. unfold result_ids in Hall.
      repeat (apply elem_of_cons in Hid as [->|Hid]);
        [apply Hall; compute_done..|by apply elem_of_nil in Hid].
  - intros Ht Hb. unfold text_of. rewrite !showDemoResult_document by done.
    destruct (proj1 (Forall_forall _ _) H1 "sheet-content") as [e1 He1]; [compute_done|].
    destruct (proj1 (Forall_forall _ _) H2 "sheet-content") as [e2 He2]; [compute_done|].
    erewrite !display_dom_text; [|eassumption|compute_done|eassumption|compute_done].
    cbn [String.eqb Ascii.eqb Bool.eqb]. rewrite !field_demoData_content.
    by rewrite Ht, Hb.
Qed.

Lemma rendering_deterministic_witness :
  let w1 := sample_world "https://youtu.be/a" "0" "chord_sheet" [sample_result] in
  let w2 := sample_world "https://youtu.be/b" "3" "chord_sheet" [VNull; sample_result] in
  (∃ w1' w2', displayResult 0 w1 = (Ok tt, w1') ∧ displayResult 1 w2 = (Ok tt, w2')
     ∧ text_of w1' "sheet-content" = text_of w2' "sheet-content")
  ∧ text_of (snd (showDemoResult offline "https://youtu.be/a" w1)) "sheet-content"
    = text_of (snd (showDemoResult (answering true VNull) "https://youtu.be/b" w2))
        "sheet-content".
Proof.
  intros w1 w2.
  destruct (rendering_deterministic offline (answering true VNull)
              "https://youtu.be/a" "https://youtu.be/b" w1 w2 0 1 sample_result)
    as [Hdisplay Hdemo].
  - unfold has_els. compute_done.
  - unfold has_els. compute_done.
  - split.
    + destruct Hdisplay as (w1' & w2' & H1 & H2 & Heq & _); [reflexivity..|].
      exists w1', w2'. split; [exact H1|]. split; [exact H2|exact Heq].
    + apply Hdemo; reflexivity.
Defined.

Lemma demoChordSheet_melody :
  ∃ l, melody_line demoChordSheet = Some l ∧ begins_with_plain_1 l = true.
Proof. eexists. split; [vm_compute; reflexivity | reflexivity]. Qed.

(** C5 (amended).  For every rendered result with tempo 120, key C and
    output type [chord_sheet] (its title, content and note converting to
    strings), the header shows the tempo as [♩ = 120] and
    the key label as [C] with the major-mode label; the content shown is
    the content text of the result, as it is.  For the demo result that
    [showDemoResult] renders when [chord_sheet] is selected, the melody
    line of the content begins with the digit 1 with no octave mark. *)
Theorem rendered_header_and_content env url data v w :
  has_els w result_ids →
  (heap w !! data = Some v → nullish v = false → displayable v = true →
   field v "tempo" = VNum 120 → field v "key" = VStr "C" →
   field v "output_type" = VStr "chord_sheet" →
   ∃ w', displayResult data w = (Ok tt, w')
     ∧ text_of w' "result-tempo" = Some "♩ = 120"
     ∧ text_of w' "result-key" = Some "C 大調"
     ∧ text_of w' "result-type" = Some "🎤 彈唱簡譜"
     ∧ text_of w' "sheet-content" = Some (DOMString_nullable (field v "content")))
  ∧ (currentType w = "chord_sheet" →
     let w' := snd (showDemoResult env url w) in
     text_of w' "result-tempo" = Some "♩ = 120"
     ∧ text_of w' "result-key" = Some "C 大調"
     ∧ text_of w' "sheet-content" = Some demoChordSheet
     ∧ ∃ l, melody_line demoChordSheet = Some l ∧ begins_with_plain_1 l = true).
Proof.
  intros H.
  assert (Hel : ∀ id, id ∈ result_ids → ∃ e, document w !! id = Some e).
  { intros id Hid. exact (proj1 (Forall_forall _ _) H id Hid). }
  split.
  - intros Hv Hn Hd Htempo Hkey Htype.
    rewrite (displayResult_run data v) by done.
    eexists. split; [reflexivity|].
    unfold text_of. cbn [document add_effect set_document].
    destruct (Hel "result-tempo") as [e1 He1]; [compute_done|].
    destruct (Hel "result-key") as [e2 He2]; [compute_done|].
    destruct (Hel "result-type") as [e3 He3]; [compute_done|].
    destruct (Hel "sheet-content") as [e4 He4]; [compute_done|].
    erewrite !display_dom_text;
      [|eassumption|compute_done|eassumption|compute_done
       |eassumption|compute_done|eassumption|compute_done].
    rewrite Htempo, Hkey, Htype. repeat split; reflexivity.
  - intros Ht w'. unfold w', text_of. rewrite showDemoResult_document by done.
    destruct (Hel "result-tempo") as [e1 He1]; [compute_done|].
    destruct (Hel "result-key") as [e2 He2]; [compute_done|].
    destruct (Hel "sheet-content") as [e4 He4]; [compute_done|].
    erewrite !display_dom_text;
      [|eassumption|compute_done|eassumption|compute_done|eassumption|compute_done].
    rewrite Ht. repeat split; try reflexivity.
    exact demoChordSheet_melody.
Qed.

Lemma rendered_header_and_content_witness :
  let w := sample_world "" "" "chord_sheet" [sample_result] in
  text_of (snd (displayResult 0 w)) "result-tempo" = Some "♩ = 120"
  ∧ text_of (snd (showDemoResult offline "https://youtu.be/x" w)) "sheet-content"
    = Some demoChordSheet.
Proof.
  intros w.
  destruct (rendered_header_and_content offline "https://youtu.be/x" 0 sample_result w)
    as [Hshown Hdemo].
  - unfold has_els. compute_done.
  - split.
    + destruct Hshown as (w' & Hrun & Htempo & _); [reflexivity..|].
      by rewrite Hrun.
    + by apply Hdemo.
Defined.

(** C5, as stated, fails: a result with tempo 120, key C and output type
    [chord_sheet] whose melody starts on the fifth degree is displayed with
    its own content, and the melody line shown begins with 5. *)
Lemma rendered_melody_counterexample :
  let r := displayResult 0 (sample_world "" "" "chord_sheet" [sample_result]) in
  fst r = Ok tt
  ∧ field sample_result "tempo" = VNum 120
  ∧ field sample_result "key" = VStr "C"
  ∧ field sample_result "output_type" = VStr "chord_sheet"
  ∧ text_of (snd r) "result-tempo" = Some "♩ = 120"
  ∧ text_of (snd r) "result-key" = Some "C 大調"
  ∧ (text_of (snd r) "sheet-content" ≫= melody_line) = Some "  5   3   2    1   -   -"
  ∧ begins_with_plain_1 "  5   3   2    1   -   -" = false.
Proof. vm_compute. repeat split. Qed.

(** C10.  When the address typed is empty after trimming, or contains
    neither [youtube.com] nor [youtu.be], [startTranscribe] shows a toast
    and returns: no request is sent, and the result that is displayed, the
    current result and the stored data are what they were. *)
Theorem startTranscribe_rejects_input env w e :
  document w !! "youtube-url" = Some e → has_el w "toast" →
  trim (value e) = ""
  ∨ (includes "youtube.com" (value e) = false ∧ includes "youtu.be" (value e) = false) →
  ∃ w', startTranscribe env w = (Ok tt, w')
    ∧ fetches w' = fetches w
    ∧ (∃ msg, text_of w' "toast" = Some msg ∧ msg ≠ "" ∧ hidden w' "toast" = Some false)
    ∧ (∀ id, id ≠ "toast" → document w' !! id = document w !! id)
    ∧ currentResult w' = currentResult w
    ∧ heap w' = heap w
    ∧ localStorage w' = localStorage w.
Proof.
  intros He Ht Hbad.
  assert (Hv : valid_url (value e) = false).
  { unfold valid_url. destruct Hbad as [->|[H1 H2]]; [done|].
    rewrite (includes_trim_false _ _ H1), (includes_trim_false _ _ H2).
    apply andb_false_r. }
  rewrite (startTranscribe_guard env w e) by done.
  eexists. split; [reflexivity|].
  destruct Ht as [t Ht].
  destruct (String.eqb (trim (value e)) "");
    (split; [by rewrite ?fetches_add_effect by done|]);
    (split; [|split; [intros id Hid; cbn; by rewrite toast_dom_ne|done]]);
    unfold text_of, hidden; cbn [document add_effect set_document];
    edestruct toast_dom_toast as (e' & -> & He1 & He2); try eassumption;
    eexists; cbn; rewrite He1, He2; done.
Qed.

Lemma startTranscribe_rejects_input_witness :
  ∃ w', startTranscribe offline
                        (sample_world "  https://example.com/video " "0" "chord_sheet" [])
        = (Ok tt, w')
        ∧ fetches w' = [].
Proof.
  destruct (startTranscribe_rejects_input offline
              (sample_world "  https://example.com/video " "0" "chord_sheet" [])
              (mkElement "" [] "  https://example.com/video " false ∅))
    as (w' & Hrun & Hfetch & _).
  - reflexivity.
  - unfold has_el. compute_done.
  - right. split; reflexivity.
  - exists w'. split; [exact Hrun|exact Hfetch].
Defined.

Lemma round_double_safe n : (- 2 ^ 53 ≤ n ≤ 2 ^ 53)%Z → round_double n = Finite n.
Proof.
  change (2 ^ 53)%Z with 9007199254740992%Z. intros Hn. unfold round_double.
  change (2 ^ 53)%Z with 9007199254740992%Z.
  destruct (Z.ltb_spec (Z.abs n) 9007199254740992) as [|Hge]; [done|].
  assert (n = 9007199254740992 ∨ n = -9007199254740992)%Z as [-> | ->] by lia;
    vm_compute; reflexivity.
Qed.

Lemma key_offset_safe s n :
  parse_integer s = Some n → (- 2 ^ 53 ≤ n ≤ 2 ^ 53)%Z →
  json_number (num_or (parseInt s) 0) = VNum n.
Proof.
  intros Hs Hn. unfold parseInt. rewrite Hs, round_double_safe by done.
  by destruct n.
Qed.

(** C4 (amended).  [startTranscribe] sends one request; its [key_offset]
    is 0 when the value of the key selector does not parse as an integer,
    and is the integer it parses to when that integer lies between -2^53
    and 2^53, with no check against a range of keys. *)
Theorem startTranscribe_key_offset env w e k :
  has_els w page_ids →
  document w !! "youtube-url" = Some e → document w !! "key-select" = Some k →
  valid_url (value e) = true →
  ∃ offset,
    fetches (snd (startTranscribe env w))
    = (fetches w ++
       [EFetch (API_BASE w +:+ "/api/transcribe") "POST"
               [("Content-Type", "application/json")]
               (JSON_stringify (VObj [ ("youtube_url", VStr (trim (value e)));
                                       ("output_type", VStr (currentType w));
                                       ("key_offset", offset) ]))])%list
    ∧ (parse_integer (value k) = None → offset = VNum 0)
    ∧ (∀ n, parse_integer (value k) = Some n → (- 2 ^ 53 ≤ n ≤ 2 ^ 53)%Z →
         offset = VNum n).
Proof.
  intros H He Hk Hv. exists (json_number (num_or (parseInt (value k)) 0)). split.
  - by rewrite (startTranscribe_fetches env w e k).
  - split.
    + intros Hnone. unfold parseInt. by rewrite Hnone.
    + intros n Hn Hsafe. by apply key_offset_safe.
Qed.

Lemma startTranscribe_key_offset_witness :
  fetches (snd (startTranscribe offline
                  (sample_world "https://youtu.be/x" "-9" "piano_sheet" [])))
  = [EFetch "http://localhost:8000/api/transcribe" "POST"
            [("Content-Type", "application/json")]
            (JSON_stringify (VObj [ ("youtube_url", VStr "https://youtu.be/x");
                                    ("output_type", VStr "piano_sheet");
                                    ("key_offset", VNum (-9)) ]))].
Proof.
  destruct (startTranscribe_key_offset offline
              (sample_world "https://youtu.be/x" "-9" "piano_sheet" [])
              (mkElement "" [] "https://youtu.be/x" false ∅)
              (mkElement "" [] "-9" false ∅))
    as (offset & Hsent & _ & Hn).
  - unfold has_els. compute_done.
  - reflexivity.
  - reflexivity.
  - reflexivity.
  - rewrite Hsent. rewrite (Hn (-9)%Z); [reflexivity | reflexivity | lia].
Defined.

(** C4, as stated, fails: the integer 2^53 + 1, typed as the value of
    the key selector, parses as an integer and is not sent as it is; the
    request carries 2^53, the double nearest to it. *)
Lemma key_offset_counterexample :
  let w := sample_world "https://youtu.be/x" "9007199254740993" "chord_sheet" [] in
  parse_integer "9007199254740993" = Some 9007199254740993%Z
  ∧ fetches (snd (startTranscribe offline w))
    = [EFetch "http://localhost:8000/api/transcribe" "POST"
              [("Content-Type", "application/json")]
              (JSON_stringify (VObj [ ("youtube_url", VStr "https://youtu.be/x");
                                      ("output_type", VStr "chord_sheet");
                                      ("key_offset", VNum 9007199254740992) ]))].
Proof. vm_compute. split; reflexivity. Qed.





(** C2 (amended).  When the request fails ([fetch] rejects, or the
    response is not ok) and the stored local history is absent, empty or
    a JSON array, the failure is caught: the toast shows a warning that
    carries the error message, or the fixed text for a back end that
    cannot be reached, and the demo sheet of the selected type is
    displayed in the result section, becomes the current result and is
    saved at the head of the local history.  Nothing of the failed
    response is displayed. *)
Theorem failed_request_shows_demo env w e k err h :
  has_els w page_ids →
  document w !! "youtube-url" = Some e → document w !! "key-select" = Some k →
  valid_url (value e) = true →
  failure (fetch_outcome env) = Some err →
  JSON_parse (history_text w) = Ok (VArr h) →
  let l := fresh (dom (heap w)) in
  let demo := demoData env (trim (value e)) (currentType w) (build w) in
  ∃ w', startTranscribe env w = (Ok tt, w')
    ∧ text_of w' "toast" = Some (fallback_toast err)
    ∧ hidden w' "toast" = Some false
    ∧ hidden w' "result-section" = Some false
    ∧ text_of w' "sheet-content" = Some (DOMString_nullable (field demo "content"))
    ∧ currentResult w' = Some l
    ∧ heap w' = <[l := demo]> (heap w)
    ∧ localStorage w' =
        <["tab-finder-history" :=
            default "undefined" (JSON_stringify (VArr (take 50 (demo :: h))))]>
          (localStorage w).
Proof.
  intros H He Hk Hv Hfail Hp l demo. unfold l, demo.
  destruct (startTranscribe_failed env w e k err H He Hk Hv Hfail)
    as (wX & -> & HX & Hheap & Htype & Hbuild & Hstore).
  assert (HpX : JSON_parse (history_text wX) = Ok (VArr h))
    by (unfold history_text; by rewrite Hstore).
  pose proof (fallback_outcome env (trim (value e)) err h wX w HX HpX) as Hout.
  cbv zeta in Hout. rewrite Hheap, Htype, Hbuild, Hstore in Hout. exact Hout.
Qed.

Lemma failed_request_shows_demo_witness :
  ∃ w', startTranscribe (answering false (VObj [("detail", VStr "Video unavailable")]))
                        (sample_world "https://youtu.be/x" "2" "piano_sheet" [])
        = (Ok tt, w')
        ∧ text_of w' "toast" = Some "⚠️ Video unavailable（已顯示演示模式）"
        ∧ text_of w' "sheet-content" = Some demoPianoSheet.
Proof.
  destruct (failed_request_shows_demo
              (answering false (VObj [("detail", VStr "Video unavailable")]))
              (sample_world "https://youtu.be/x" "2" "piano_sheet" [])
              (mkElement "" [] "https://youtu.be/x" false ∅) (mkElement "" [] "2" false ∅)
              (Error "Error" "Video unavailable") [])
    as (w' & Hrun & Htoast & _ & _ & Hcontent & _).
  - unfold has_els. compute_done.
  - reflexivity.
  - reflexivity.
  - reflexivity.
  - reflexivity.
  - reflexivity.
  - exists w'. split; [exact Hrun|]. split; [exact Htoast|exact Hcontent].
Defined.

(** C2, as stated, fails: when the back end cannot be reached, the demo
    sheet is produced and displayed for that request. *)
Lemma failed_request_counterexample :
  let r := startTranscribe offline (sample_world "https://youtu.be/x" "0" "chord_sheet" []) in
  fst r = Ok tt
  ∧ failure (fetch_outcome offline) = Some (Error "TypeError" "Failed to fetch")
  ∧ hidden (snd r) "result-section" = Some false
  ∧ text_of (snd r) "sheet-content" = Some demoChordSheet
  ∧ text_of (snd r) "toast" = Some "⚠️ 後端未啟動，顯示演示模式".
Proof. vm_compute. repeat split. Qed.

(** C9 (amended).  After [saveToLocalHistory], when the stored history
    is absent, empty or a JSON array, whatever list it holds, the stored
    history is the list with the new record at index 0, cut to its first
    50 records: it never holds more than 50, and when the list already
    held 50 the oldest one is dropped. *)
Theorem saveToLocalHistory_keeps_recent record v h w :
  heap w !! record = Some v →
  JSON_parse (history_text w) = Ok (VArr h) →
  ∃ w' stored,
    saveToLocalHistory record w = (Ok tt, w')
    ∧ localStorage w' !! "tab-finder-history" = Some (json_text (VArr stored))
    ∧ (is_json v = true → JSON_parse (json_text (VArr stored)) = Ok (VArr stored))
    ∧ stored !! 0%nat = Some v
    ∧ (length stored ≤ 50)%nat
    ∧ stored = take 50 (v :: h)
    ∧ (length h = 50%nat →
       ∃ kept oldest, h = (kept ++ [oldest])%list ∧ stored = v :: kept).
Proof.
  intros Hv Hp. rewrite (saveToLocalHistory_run record h) by done.
  rewrite Hv. cbn [default].
  exists (set_localStorage
            (<["tab-finder-history" := json_text (VArr (take 50 (v :: h)))]>) w),
         (take 50 (v :: h)).
  split; [reflexivity|]. split; [apply lookup_insert_eq|]. split; [|split; [|split; [|split]]].
  - intros Hj. apply JSON_parse_stringify. cbn [is_json].
    apply forallb_forall. intros x Hx%list_elem_of_In.
    apply elem_of_take in Hx as (i & Hi & _).
    destruct i as [|i]; cbn in Hi; [by injection Hi as <-|].
    apply JSON_parse_json in Hp. apply is_json_arr in Hp.
    apply (proj1 (Forall_forall _ _) Hp). by eapply list_elem_of_lookup_2.
  - reflexivity.
  - rewrite length_take. lia.
  - reflexivity.
  - intros Hlen. exists (take 49 h), (default VUndef (last h)).
    split; [|reflexivity].
    rewrite <- (take_drop 49 h) at 1. f_equal.
    destruct (drop 49 h) as [|x [|y t]] eqn:E.
    + apply (f_equal length) in E. rewrite length_drop in E. cbn in E. lia.
    + rewrite <- (take_drop 49 h), E, last_snoc. reflexivity.
    + apply (f_equal length) in E. rewrite length_drop in E. cbn in E. lia.
Qed.

Lemma saveToLocalHistory_keeps_recent_witness :
  let w := set_localStorage (<["tab-finder-history" := "[1,2]"]>)
             (sample_world "" "" "chord_sheet" [sample_result]) in
  ∃ w', saveToLocalHistory 0 w = (Ok tt, w')
        ∧ localStorage w' !! "tab-finder-history"
          = Some (json_text (VArr [sample_result; VNum 1; VNum 2])).
Proof.
  intros w.
  destruct (saveToLocalHistory_keeps_recent 0 sample_result [VNum 1; VNum 2] w)
    as (w' & stored & Hrun & Hstored & _ & _ & _ & -> & _).
  - reflexivity.
  - vm_compute. reflexivity.
  - exists w'. split; [exact Hrun|exact Hstored].
Defined.

(** C9, as stated, fails: with the text [{}] stored as the history, a
    JSON text that is no list, [saveToLocalHistory] throws a TypeError
    and stores nothing; the stored text is still [{}], with no record at
    index 0. *)
Lemma saveToLocalHistory_counterexample :
  let w := set_localStorage (<["tab-finder-history" := "{}"]>)
             (sample_world "" "" "chord_sheet" [sample_result]) in
  JSON_parse "{}" = Ok (VObj [])
  ∧ (∃ msg, saveToLocalHistory 0 w = (Throw (Error "TypeError" msg), w))
  ∧ localStorage (snd (saveToLocalHistory 0 w)) !! "tab-finder-history" = Some "{}".
Proof. vm_compute. split; [reflexivity|]. split; [by eexists|reflexivity]. Qed.

(** C8.  Share-link round trip.  For every sheet whose five shared
    properties are JSON values with well-formed strings (or are missing),
    the encoding of [shareSheet] (btoa of encodeURIComponent of
    JSON.stringify) succeeds; the fragment ["#share-" + encoded] is one
    that [handleHashNavigation] recognises, capturing [encoded]; the
    decoding of [handleHashNavigation] (JSON.parse of decodeURIComponent
    of atob) succeeds on it, and the decoded object has the same title,
    content, tempo, key and output_type as the encoded [shareData].  When
    the sheet has all five properties the decoded object is the encoded
    [shareData] itself.  [shareSheet], when the link is to carry the
    sheet, shows the link made of that fragment, and
    [handleHashNavigation], run on a page whose fragment is that link's,
    makes the decoded object the current result. *)
Theorem share_link_round_trip (sheet : JsVal) :
  forallb (λ k, shareable (field sheet k)) share_keys = true →
  ∃ encoded decoded,
    encode_share (shareData_of sheet) = Ok encoded
    ∧ match_after "#share-" ("#share-" +:+ encoded) = Some encoded
    ∧ decode_share encoded = Ok decoded
    ∧ (∀ k, k ∈ share_keys → field decoded k = field (shareData_of sheet) k)
    ∧ (existsb (λ k, is_undef (field sheet k)) share_keys = false →
       decoded = shareData_of sheet)
    ∧ (∀ w l, currentResult w = Some l → heap w !! l = Some sheet →
         truthy sheet = true →
         IS_GITHUB_PAGES w && truthy (field sheet "id") = false →
         shareSheet None w
         = showQRCodeModal (js_or (field sheet "title") (VStr "樂譜"))
             ((if IS_GITHUB_PAGES w
               then origin (location w) +:+ pathname (location w)
               else before_hash (href (location w))) +:+ "#share-" +:+ encoded) w)
    ∧ (∀ w, hash (location w) = "#share-" +:+ encoded →
         ∃ data, currentResult (snd (handleHashNavigation w)) = Some data
                 ∧ heap (snd (handleHashNavigation w)) !! data = Some decoded).
Proof.
  intros Hs. unfold shareData_of, shareData.
  set (ps := [("title", field sheet "title"); ("content", field sheet "content");
              ("tempo", field sheet "tempo"); ("key", field sheet "key");
              ("output_type", field sheet "output_type")]).
  assert (Hnd : NoDup (map fst ps)) by (apply (bool_decide_unpack _); by vm_compute).
  assert (Hkeys : Forall (λ k, utf8_valid k = true) (map fst ps))
    by (repeat constructor).
  assert (Hps : forallb (λ p, shareable (snd p)) ps = true) by exact Hs.
  destruct (encode_decode_share ps Hnd Hkeys Hps) as (encoded & Henc & Hmatch & Hdec).
  exists encoded, (VObj (defined_props ps)).
  split; [exact Henc|]. split; [exact Hmatch|]. split; [exact Hdec|].
  split; [|split; [|split]].
  - intros k Hk. apply field_defined_props; [done|].
    unfold share_keys in Hk. rewrite !elem_of_cons, elem_of_nil in Hk.
    destruct Hk as [->|[->|[->|[->|[->|[]]]]]]; reflexivity.
  - intros Hdef. f_equal. apply defined_props_all. exact Hdef.
  - intros w l Hcur Hl Ht Hpages. by apply (shareSheet_link w l sheet encoded).
  - intros w Hw. by apply (handleHashNavigation_share w encoded).
Qed.

Lemma share_link_round_trip_witness :
  ∃ encoded,
    encode_share (shareData_of sample_result) = Ok encoded
    ∧ match_after "#share-" ("#share-" +:+ encoded) = Some encoded
    ∧ decode_share encoded = Ok (shareData_of sample_result).
Proof.
  destruct (share_link_round_trip sample_result)
    as (encoded & decoded & Henc & Hmatch & Hdec & _ & Hall & _).
  - vm_compute. reflexivity.
  - exists encoded. split; [exact Henc|]. split; [exact Hmatch|].
    rewrite Hdec. f_equal. apply Hall. reflexivity.
Defined.

(** * Further properties of the script *)

(** ** The elements of the page *)

Lemma has_el_elements w id : has_el w id ↔ id ∈ page_elements w.
Proof. unfold has_el, page_elements. by rewrite elem_of_dom. Qed.

Lemma has_els_elements w w' ids :
  page_elements w' = page_elements w → has_els w ids → has_els w' ids.
Proof.
  intros He H. unfold has_els in *. eapply Forall_impl; [exact H|].
  intros id. by rewrite !has_el_elements, He.
Qed.

Lemma elements_set_document g w :
  keeps_els g → page_elements (set_document g w) = page_elements w.
Proof.
  intros Hg. unfold page_elements. apply set_eq. intros id.
  rewrite !elem_of_dom. apply Hg.
Qed.

Lemma elements_update_el id p g : preserves page_elements (update_el id p g).
Proof.
  intros w. unfold update_el. destruct (document w !! id); [|done].
  cbn [snd]. apply elements_set_document, keeps_els_alter.
Qed.

(** Proves that a run neither adds nor removes elements. *)
Ltac keeps_page :=
  repeat first
    [ apply preserves_ret
    | apply preserves_throw
    | apply preserves_lift
    | apply preserves_gets
    | apply preserves_read_el
    | apply elements_update_el
    | apply preserves_modify; [intros; reflexivity]
    | apply preserves_alloc; [intros; reflexivity]
    | apply preserves_bind; [|intros ?]
    | apply preserves_try_catch_finally; [|intros ?|]
    | apply preserves_try_catch; [|intros ?]
    | apply preserves_forEach_from; intros ? ?
    | match goal with
      | |- preserves _ (if ?c then _ else _) => destruct c
      | |- preserves _ (match ?x with _ => _ end) => destruct x
      end
    | progress unfold set_textContent, classList_add, classList_remove, set_disabled,
        set_width, set_attr, get_value, focus, scrollIntoView, setTimeout, deref, prop, delay,
        response_json, forEach ].

Lemma showToast_elements msg : preserves page_elements (showToast msg).
Proof. unfold showToast. keeps_page. Qed.

Lemma showProgress_elements step percent : preserves page_elements (showProgress step percent).
Proof. unfold showProgress. keeps_page. Qed.

Lemma hideProgress_elements : preserves page_elements hideProgress.
Proof. unfold hideProgress. keeps_page. Qed.

Lemma displayResult_elements data : preserves page_elements (displayResult data).
Proof. unfold displayResult. keeps_page. Qed.

Lemma saveToLocalHistory_elements record : preserves page_elements (saveToLocalHistory record).
Proof. unfold saveToLocalHistory. keeps_page. Qed.

Lemma showDemoResult_elements env url : preserves page_elements (showDemoResult env url).
Proof. unfold showDemoResult. keeps_page. Qed.

Lemma handle_response_elements r : preserves page_elements (handle_response r).
Proof. unfold handle_response. keeps_page. Qed.

Lemma fallback_elements env url err : preserves page_elements (fallback env url err).
Proof. unfold fallback. keeps_page. Qed.

Lemma restore_button_elements : preserves page_elements restore_button.
Proof. unfold restore_button. keeps_page. Qed.

(** ** [startTranscribe]: the button *)

Lemma idle_dom_button d b t l :
  d !! "transcribe-btn" = Some b →
  d !! "transcribe-btn .btn-text" = Some t →
  d !! "transcribe-btn .btn-loading" = Some l →
  disabled <$> idle_dom d !! "transcribe-btn" = Some false
  ∧ (λ e, bool_decide ("hidden" ∈ classList e)) <$> idle_dom d !! "transcribe-btn .btn-text"
    = Some false
  ∧ (λ e, bool_decide ("hidden" ∈ classList e)) <$> idle_dom d !! "transcribe-btn .btn-loading"
    = Some true.
Proof.
  intros Hb Ht Hl. unfold idle_dom. repeat split.
  - rewrite !lookup_alter_ne by done. by rewrite lookup_alter_eq, Hb.
  - rewrite lookup_alter_ne by done. rewrite lookup_alter_eq, lookup_alter_ne by done.
    rewrite Ht. cbn. f_equal. apply hidden_token_remove.
  - rewrite lookup_alter_eq, !lookup_alter_ne by done.
    rewrite Hl. cbn. f_equal. apply hidden_token_add.
Qed.

(** X1.  Whatever the request and the rest of the handler come to (a result,
    a failure, an exception out of the [catch] block), [startTranscribe]
    ends with the button enabled, its label shown and its spinner hidden. *)
Theorem startTranscribe_restores_button env w e k :
  has_els w page_ids →
  document w !! "youtube-url" = Some e → document w !! "key-select" = Some k →
  valid_url (value e) = true →
  let w' := snd (startTranscribe env w) in
  disabled <$> document w' !! "transcribe-btn" = Some false
  ∧ hidden w' "transcribe-btn .btn-text" = Some false
  ∧ hidden w' "transcribe-btn .btn-loading" = Some true
  ∧ page_elements w' = page_elements w.
Proof.
  intros H He Hk Hv w'. unfold w'. clear w'.
  rewrite (startTranscribe_sent env w e k) by done. lazy zeta.
  set (ws := add_effect (request_of w (trim (value e)) (value k)) (set_document sent_dom w)).
  assert (Hs : page_elements ws = page_elements w)
    by (unfold ws; apply (elements_set_document sent_dom), keeps_els_sent).
  unfold try_catch_finally.
  set (r1 := match match fetch_outcome env with
                   | FetchRejected err => (Throw err, ws)
                   | FetchResponse ok b => handle_response (ok, b) ws
                   end with
             | (Ok a, w1) => (Ok a, w1)
             | (Throw err, w1) => fallback env (trim (value e)) err w1
             end).
  assert (H1 : page_elements (snd r1) = page_elements w).
  { unfold r1. destruct (fetch_outcome env) as [err|ok b].
    - by rewrite fallback_elements.
    - pose proof (handle_response_elements (ok, b) ws) as Hh.
      destruct (handle_response (ok, b) ws) as [[[]|err] w1]; cbn [snd] in *.
      + congruence.
      + rewrite fallback_elements. congruence. }
  destruct r1 as [r w1]. cbn [snd] in H1.
  assert (Hform : has_els w1 form_ids).
  { apply (has_els_elements w); [done|]. unfold page_ids in H.
    by apply Forall_app in H as [H _]. }
  rewrite restore_button_run by done. cbn [snd].
  pose proof Hform as Hform'. unfold form_ids in Hform'. split_els.
  repeat match goal with Hx : has_el _ _ |- _ => destruct Hx as [? ?] end.
  unfold hidden. cbn [document set_document].
  edestruct idle_dom_button as (Hd & Ht & Hl); [eassumption..|].
  split; [exact Hd|]. split; [exact Ht|]. split; [exact Hl|].
  rewrite elements_set_document by apply keeps_els_idle. exact H1.
Qed.

Lemma startTranscribe_restores_button_witness :
  disabled <$> document (snd (startTranscribe offline
                                (sample_world "https://youtu.be/x" "0" "chord_sheet" [])))
               !! "transcribe-btn" = Some false.
Proof.
  destruct (startTranscribe_restores_button offline
              (sample_world "https://youtu.be/x" "0" "chord_sheet" [])
              (mkElement "" [] "https://youtu.be/x" false ∅) (mkElement "" [] "0" false ∅))
    as (Hd & _).
  - unfold has_els. compute_done.
  - reflexivity.
  - reflexivity.
  - reflexivity.
  - exact Hd.
Defined.

(** ** [startTranscribe]: a request that succeeds *)

Lemma handle_response_ok v w :
  has_els w page_ids → nullish v = false → displayable v = true →
  let l := fresh (dom (heap w)) in
  handle_response (true, BodyJson v) w =
    (Ok tt,
     add_effect (ESetTimeout 2500 ToastFadeOut)
       (set_document (toast_dom "🎉 轉譜完成！")
          (set_currentResult (Some l)
             (add_effect (EScrollIntoView "result-section")
                (set_document (display_dom v)
                   (set_document
                      (alter (set_classList_el (token_add "hidden")) "progress-section")
                      (set_document (progress_dom 2 100)
                         (set_heap (<[l := v]>)
                            (set_document (progress_dom 2 80) w))))))))).
Proof.
  intros H Hn Hd l. unfold page_ids in H. apply Forall_app in H as [Hform H].
  apply Forall_app in H as [Hprog Hres].
  unfold handle_response.
  rewrite run_bind, showProgress_run by done. lazy beta iota.
  cbn [fst snd negb]. rewrite run_ret_bind. unfold response_json. rewrite run_ret_bind.
  rewrite run_bind. unfold alloc at 1. lazy beta iota zeta.
  cbn [heap set_document]. fold l.
  rewrite run_bind, showProgress_run by solve_has. lazy beta iota.
  unfold delay. rewrite run_ret_bind.
  rewrite run_bind, hideProgress_run
    by (unfold progress_ids in Hprog; split_els; solve_has).
  lazy beta iota.
  rewrite run_bind, (displayResult_run l v);
    [| solve_has | cbn [heap set_document set_heap]; apply lookup_insert_eq | exact Hn
     | exact Hd].
  lazy beta iota. rewrite run_bind. unfold modify at 1. lazy beta iota.
  rewrite showToast_run; [reflexivity|].
  unfold form_ids in Hform. split_els. solve_has.
Qed.

(** X2.  When the back end answers the request with a result, the fields
    of which convert to strings, that result is displayed and becomes the
    current result, the progress bar is hidden again, the toast reports
    success and the button is restored.  One request is sent, and the
    stored data are left as they were. *)
Theorem startTranscribe_success env w e k v :
  has_els w page_ids →
  document w !! "youtube-url" = Some e → document w !! "key-select" = Some k →
  valid_url (value e) = true →
  fetch_outcome env = FetchResponse true (BodyJson v) → nullish v = false →
  displayable v = true →
  ∃ w' l, startTranscribe env w = (Ok tt, w')
    ∧ heap w !! l = None ∧ heap w' = <[l := v]> (heap w)
    ∧ currentResult w' = Some l
    ∧ text_of w' "sheet-content" = Some (DOMString_nullable (field v "content"))
    ∧ text_of w' "result-title"
      = Some (DOMString_nullable (js_or (field v "title") (VStr "未知歌曲")))
    ∧ hidden w' "result-section" = Some false
    ∧ hidden w' "progress-section" = Some true
    ∧ text_of w' "toast" = Some "🎉 轉譜完成！"
    ∧ disabled <$> document w' !! "transcribe-btn" = Some false
    ∧ fetches w' = (fetches w ++ [request_of w (trim (value e)) (value k)])%list
    ∧ localStorage w' = localStorage w.
Proof.
  intros H He Hk Hv Hfetch Hn Hconv.
  pose proof (startTranscribe_fetches env w e k H He Hk Hv) as Hsent.
  rewrite (startTranscribe_sent env w e k) in Hsent |- * by done. lazy zeta in Hsent |- *.
  rewrite Hfetch in Hsent |- *. unfold try_catch_finally in Hsent |- *.
  rewrite handle_response_ok in Hsent |- * by (first [exact Hn | exact Hconv | solve_has]).
  lazy zeta in Hsent |- *. cbn [heap add_effect set_document] in Hsent |- *.
  set (l := fresh (dom (heap w))) in *.
  pose proof H as H'. unfold page_ids, form_ids, progress_ids, result_ids in H'. split_els.
  rewrite restore_button_run in Hsent |- *
    by (unfold form_ids; repeat constructor; solve_has).
  eexists. exists l. split; [reflexivity|].
  split; [apply not_elem_of_dom, is_fresh|]. split; [reflexivity|]. split; [reflexivity|].
  repeat match goal with Hx : has_el _ _ |- _ => destruct Hx as [? ?] end.
  unfold text_of, hidden.
  cbn [document heap currentResult localStorage set_document set_heap set_currentResult
       add_effect].
  rewrite !idle_dom_ne, !toast_dom_ne by compute_done.
  assert (Hlook : ∀ id el, document w !! id = Some el → id ∉ progress_ids →
            id ∉ ["transcribe-btn"; "transcribe-btn .btn-text";
                  "transcribe-btn .btn-loading"; "result-section"] →
            alter (set_classList_el (token_add "hidden")) "progress-section"
              (progress_dom 2 100 (progress_dom 2 80 (sent_dom (document w)))) !! id
            = Some el).
  { intros id el Hel Hp Hb.
    assert (id ≠ "progress-section")
      by (intros ->; apply Hp; unfold progress_ids; set_solver).
    rewrite lookup_alter_ne by done.
    by rewrite !progress_dom_ne, sent_dom_ne. }
  split; [by erewrite display_dom_text; [|apply Hlook; [eassumption|compute_done..]|compute_done]|].
  split; [by erewrite display_dom_text; [|apply Hlook; [eassumption|compute_done..]|compute_done]|].
  split.
  { assert (is_Some (sent_dom (document w) !! "result-section")) as [el Hel]
      by (apply keeps_els_sent; eauto).
    erewrite display_dom_section; [done|].
    rewrite lookup_alter_ne, !progress_dom_ne by compute_done. exact Hel. }
  split.
  { rewrite display_dom_other, lookup_alter_eq by compute_done.
    assert (is_Some (progress_dom 2 100 (progress_dom 2 80 (sent_dom (document w)))
                     !! "progress-section")) as [el ->].
    { apply keeps_els_progress, keeps_els_progress, keeps_els_sent. eauto. }
    cbn. f_equal. apply hidden_token_add. }
  split.
  { edestruct (toast_dom_toast "🎉 轉譜完成！") as (t' & -> & Ht1 & _); [|by rewrite <- Ht1].
    rewrite display_dom_other by compute_done. apply Hlook; [eassumption|compute_done..]. }
  split.
  { match goal with
    | |- disabled <$> idle_dom ?d !! _ = _ =>
        assert (∀ id, is_Some (document w !! id) → is_Some (d !! id)) as Hkeep
    end.
    { intros id Hid. apply keeps_els_toast, keeps_els_display, keeps_els_alter,
        keeps_els_progress, keeps_els_progress, keeps_els_sent. exact Hid. }
    destruct (Hkeep "transcribe-btn") as [? ?]; [eauto|].
    destruct (Hkeep "transcribe-btn .btn-text") as [? ?]; [eauto|].
    destruct (Hkeep "transcribe-btn .btn-loading") as [? ?]; [eauto|].
    by edestruct idle_dom_button as (Hd & _); [eassumption..|]. }
  split; [exact Hsent|reflexivity].
Qed.

Lemma startTranscribe_success_witness :
  ∃ w', startTranscribe (answering true sample_result)
          (sample_world "https://youtu.be/x" "0" "chord_sheet" []) = (Ok tt, w')
        ∧ text_of w' "result-title" = Some "Song"
        ∧ localStorage w' = ∅.
Proof.
  destruct (startTranscribe_success (answering true sample_result)
              (sample_world "https://youtu.be/x" "0" "chord_sheet" [])
              (mkElement "" [] "https://youtu.be/x" false ∅) (mkElement "" [] "0" false ∅)
              sample_result)
    as (w' & l & Hrun & _ & _ & _ & _ & Htitle & _ & _ & _ & _ & _ & Hstore).
  - unfold has_els. compute_done.
  - reflexivity.
  - reflexivity.
  - reflexivity.
  - reflexivity.
  - reflexivity.
  - reflexivity.
  - exists w'. split; [exact Hrun|]. split; [exact Htitle|exact Hstore].
Defined.

(** ** The local history *)

Lemma parse_number_no_start c r :
  Ascii.eqb c "-" = false → is_digit c = false → parse_number (String c r) = None.
Proof.
  intros Hminus Hdigit.
  destruct c as [[] [] [] [] [] [] [] []];
    vm_compute in Hminus, Hdigit; try discriminate; reflexivity.
Qed.

Lemma JSON_parse_begins_no_json s :
  begins_no_json s = true → JSON_parse s = Throw SyntaxError.
Proof.
  unfold begins_no_json, JSON_parse. cbn [parse_value].
  destruct (skip_ws s) as [|c r]; [done|].
  rewrite negb_true_iff, orb_false_iff, bool_decide_eq_false.
  intros [Hc Hd].
  repeat (apply not_elem_of_cons in Hc as [? Hc]).
  rewrite !(proj2 (Ascii.eqb_neq _ _)) by done.
  by rewrite parse_number_no_start; [| apply Ascii.eqb_neq | ].
Qed.

(** X3.  A stored history that is a JSON text but no list (an object, a
    string, a number, [null]) makes [saveToLocalHistory] throw a
    [TypeError]; one that begins no JSON text makes it throw a
    [SyntaxError].  Either way nothing is stored and the state is left as
    it was. *)
Theorem saveToLocalHistory_corrupt record w :
  (∀ v, JSON_parse (history_text w) = Ok v → (∀ h, v ≠ VArr h) →
     ∃ msg, saveToLocalHistory record w = (Throw (Error "TypeError" msg), w))
  ∧ (begins_no_json (history_text w) = true →
     ∃ msg, saveToLocalHistory record w = (Throw (Error "SyntaxError" msg), w)).
Proof.
  split.
  - intros v Hp Hv. unfold saveToLocalHistory.
    rewrite run_bind. unfold gets at 1. lazy beta iota.
    rewrite run_bind. unfold lift at 1. rewrite Hp. lazy beta iota.
    destruct v as [| | | | |h| |]; first [by destruct (Hv h) | by eexists].
  - intros Hbad. unfold saveToLocalHistory.
    rewrite run_bind. unfold gets at 1. lazy beta iota.
    rewrite run_bind. unfold lift at 1.
    rewrite (JSON_parse_begins_no_json _ Hbad). by eexists.
Qed.

Lemma saveToLocalHistory_corrupt_witness :
  let w := set_localStorage (<["tab-finder-history" := "null"]>)
             (sample_world "" "" "chord_sheet" [sample_result]) in
  let w2 := set_localStorage (<["tab-finder-history" := "<html>"]>)
              (sample_world "" "" "chord_sheet" [sample_result]) in
  (∃ msg, saveToLocalHistory 0 w = (Throw (Error "TypeError" msg), w))
  ∧ (∃ msg, saveToLocalHistory 0 w2 = (Throw (Error "SyntaxError" msg), w2)).
Proof.
  intros w w2. split.
  - destruct (saveToLocalHistory_corrupt 0 w) as [Htype _].
    apply (Htype VNull); [reflexivity|discriminate].
  - destruct (saveToLocalHistory_corrupt 0 w2) as [_ Hsyntax].
    apply Hsyntax. reflexivity.
Defined.

Lemma take_app_take_le {A} n m (l k : list A) :
  (n ≤ m)%nat → take n (l ++ take m k) = take n (l ++ k).
Proof.
  revert n m. induction l as [|x l IH]; intros n m Hle; cbn.
  - rewrite take_take. f_equal. lia.
  - destruct n as [|n]; [done|]. cbn. f_equal. apply IH. lia.
Qed.

Lemma history_text_stored v w :
  history_text (set_localStorage (<["tab-finder-history" := json_text (VArr v)]>) w)
  = json_text (VArr v).
Proof.
  unfold history_text. cbn [localStorage set_localStorage].
  rewrite lookup_insert_eq. by rewrite json_text_arr.
Qed.

Lemma is_json_take n l : is_json (VArr l) = true → is_json (VArr (take n l)) = true.
Proof.
  intros H. apply is_json_arr in H. cbn [is_json].
  apply forallb_forall. intros x Hx%list_elem_of_In.
  apply elem_of_take in Hx as (i & Hi & _).
  apply (proj1 (Forall_forall _ _) H). by eapply list_elem_of_lookup_2.
Qed.

(** X4.  from a stored history of at most 50 records (an absent one, for
    instance), however many records are saved one after the other, every
    call succeeds and the stored history is the list of the records
    saved, the latest first, followed by the former list, cut to 50: it
    never holds more than 50 records, and it always parses back. *)
Theorem history_after_saves records vs h w :
  JSON_parse (history_text w) = Ok (VArr h) → (length h ≤ 50)%nat →
  Forall2 (λ r v, heap w !! r = Some v ∧ is_json v = true) records vs →
  ∃ w', saves records w = (Ok tt, w')
    ∧ JSON_parse (history_text w') = Ok (VArr (take 50 (rev vs ++ h)))
    ∧ heap w' = heap w.
Proof.
  intros Hp Hlen Hall. revert vs w h Hp Hlen Hall.
  induction records as [|r records IH]; intros vs w h Hp Hlen Hall.
  - apply Forall2_nil_inv_l in Hall as ->.
    exists w. split; [done|]. cbn [rev app]. by rewrite take_ge by lia.
  - apply Forall2_cons_inv_l in Hall as (v & vs' & [Hr Hv] & Hall & ->).
    cbn [saves]. rewrite run_bind, (saveToLocalHistory_run r h) by done.
    lazy beta iota. rewrite Hr. cbn [default].
    change (default "undefined" (JSON_stringify (VArr ?l))) with (json_text (VArr l)).
    set (w1 := set_localStorage _ w).
    pose proof (JSON_parse_json _ _ Hp) as Hj.
    assert (Hj1 : is_json (VArr (take 50 (v :: h))) = true).
    { apply is_json_take. cbn [is_json forallb]. rewrite Hv. exact Hj. }
    destruct (IH vs' w1 (take 50 (v :: h))) as (w' & Hrun & Hparse & Hheap).
    + unfold w1. rewrite history_text_stored. by apply JSON_parse_stringify.
    + rewrite length_take. lia.
    + exact Hall.
    + exists w'. split; [exact Hrun|]. split; [|exact Hheap].
      rewrite Hparse. do 2 f_equal. cbn [rev].
      rewrite <- app_assoc. cbn [app]. by apply take_app_take_le.
Qed.

Lemma history_after_saves_witness :
  ∃ w', saves [0; 1; 0]%nat (sample_world "" "" "chord_sheet" [sample_result; VNum 7])
        = (Ok tt, w')
        ∧ JSON_parse (history_text w') = Ok (VArr [sample_result; VNum 7; sample_result]).
Proof.
  destruct (history_after_saves [0; 1; 0]%nat [sample_result; VNum 7; sample_result] []
              (sample_world "" "" "chord_sheet" [sample_result; VNum 7]))
    as (w' & Hrun & Hparse & _).
  - reflexivity.
  - cbn. lia.
  - repeat constructor.
  - exists w'. split; [exact Hrun|exact Hparse].
Defined.

(** ** Class lists *)

Lemma elem_of_token_add c x l : x ∈ token_add c l ↔ x = c ∨ x ∈ l.
Proof.
  unfold token_add. case_bool_decide as Hc.
  - split; [by right|]. by intros [->|].
  - rewrite elem_of_app, list_elem_of_singleton. tauto.
Qed.

Lemma elem_of_token_remove c x l : x ∈ token_remove c l ↔ x ≠ c ∧ x ∈ l.
Proof. unfold token_remove. by rewrite list_elem_of_filter. Qed.

Lemma token_add_idemp c l : token_add c (token_add c l) = token_add c l.
Proof.
  unfold token_add at 1. rewrite bool_decide_eq_true_2; [done|].
  apply elem_of_token_add. by left.
Qed.

Lemma token_remove_idemp c l : token_remove c (token_remove c l) = token_remove c l.
Proof.
  unfold token_remove. induction l as [|x l IH]; [done|].
  rewrite filter_cons. case_decide; [|done].
  rewrite filter_cons. case_decide; [|done]. by rewrite IH.
Qed.

(** ** [selectType] *)

(** X5.  after [selectType(type)] the current type is [type]; a type
    button carries the class [active] exactly when its [data-type] is
    [type], and keeps its other classes; every other element is as it
    was.  Selecting the same type again changes nothing. *)
Theorem selectType_marks_selected type w :
  ∃ w', selectType type w = (Ok tt, w')
    ∧ currentType w' = type
    ∧ (∀ id btn, document w !! id = Some btn →
         ∃ btn', document w' !! id = Some btn'
           ∧ ("type-btn" ∉ classList btn → btn' = btn)
           ∧ ("type-btn" ∈ classList btn →
              ("active" ∈ classList btn' ↔ attrs btn !! "data-type" = Some type)
              ∧ (∀ c, c ≠ "active" → c ∈ classList btn' ↔ c ∈ classList btn)
              ∧ textContent btn' = textContent btn ∧ attrs btn' = attrs btn))
    ∧ page_elements w' = page_elements w
    ∧ selectType type w' = (Ok tt, w').
Proof.
  eexists. split; [reflexivity|]. split; [reflexivity|].
  cbn [document set_document set_currentType]. split; [|split].
  - intros id btn Hbtn. rewrite lookup_fmap, Hbtn. cbn [fmap option_fmap option_map].
    eexists. split; [reflexivity|].
    case_bool_decide as Hclass; [|done]. split; [done|]. intros _.
    cbn [classList set_classList_el textContent attrs].
    case_bool_decide as Htype.
    + split; [|split; [|done]].
      * rewrite elem_of_token_add. split; [done|by left].
      * intros c Hc. rewrite elem_of_token_add. split; [by intros [?|?]|by right].
    + split; [|split; [|done]].
      * rewrite elem_of_token_remove. split; [by intros [? _]|done].
      * intros c Hc. rewrite elem_of_token_remove. split; [by intros [_ ?]|done].
  - unfold page_elements. cbn [document set_document set_currentType]. by rewrite dom_fmap_L.
  - unfold selectType, modify. rewrite run_bind. lazy beta iota.
    unfold set_document, set_currentType. cbn. do 2 f_equal.
    rewrite <- map_fmap_compose. apply map_fmap_ext. intros id btn _.
    unfold compose.
    destruct (decide ("type-btn" ∈ classList btn)) as [Hclass|Hclass];
      [|by rewrite !(bool_decide_eq_false_2 _ Hclass)].
    rewrite (bool_decide_eq_true_2 _ Hclass).
    destruct (decide (attrs btn !! "data-type" = Some type)) as [Htype|Htype].
    + rewrite (bool_decide_eq_true_2 _ Htype). cbn [classList attrs set_classList_el].
      rewrite (bool_decide_eq_true_2 _ Htype).
      rewrite bool_decide_eq_true_2 by (apply elem_of_token_add; by right).
      unfold set_classList_el. cbn [classList textContent value disabled attrs].
      by rewrite token_add_idemp.
    + rewrite (bool_decide_eq_false_2 _ Htype). cbn [classList attrs set_classList_el].
      rewrite (bool_decide_eq_false_2 _ Htype).
      rewrite bool_decide_eq_true_2 by (by apply elem_of_token_remove).
      unfold set_classList_el. cbn [classList textContent value disabled attrs].
      by rewrite token_remove_idemp.
Qed.

(** ** [showProgress] *)

Lemma step_dom_marks el idx step d e :
  d !! el = Some e →
  ∃ e', step_dom el idx step d !! el = Some e'
    ∧ ("done" ∈ classList e' ↔ (idx < step)%Z)
    ∧ ("active" ∈ classList e' ↔ idx = step)
    ∧ (∀ c, c ≠ "done" → c ≠ "active" → c ∈ classList e' ↔ c ∈ classList e).
Proof.
  intros He. unfold step_dom.
  destruct (Z.eqb_spec idx step) as [Heq|Hne], (Z.ltb_spec idx step) as [Hlt|Hge];
    rewrite ?lookup_alter_eq, He; cbn [fmap option_fmap option_map];
    (eexists; split; [reflexivity|]); cbn [classList set_classList_el];
    rewrite ?elem_of_token_add, ?elem_of_token_remove;
    (split; [|split]);
    try (intros c Hc1 Hc2; rewrite ?elem_of_token_add, ?elem_of_token_remove);
    try (split; intros; try lia; intuition congruence).
Qed.

(** X6.  [showProgress(step, percent)] shows the progress section, marks
    the steps before [step] as done, the step [step] as active and the
    later ones as neither, and sets the width of the bar to [percent%]
    for a percentage from 0 to 100; a negative one leaves the bar as it
    was. *)
Theorem showProgress_marks step percent w :
  has_els w progress_ids →
  ∃ w', showProgress step percent w = (Ok tt, w')
    ∧ hidden w' "progress-section" = Some false
    ∧ (∀ i id, ["step-download"; "step-analyze"; "step-generate"] !! i = Some id →
         ∃ el, document w' !! id = Some el
           ∧ ("done" ∈ classList el ↔ (Z.of_nat i < step)%Z)
           ∧ ("active" ∈ classList el ↔ Z.of_nat i = step))
    ∧ (∃ bar bar0, document w' !! "progress-fill" = Some bar
         ∧ document w !! "progress-fill" = Some bar0
         ∧ ((0 ≤ percent ≤ 100)%Z →
            attrs bar !! "style.width" = Some (string_of_Z percent +:+ "%"))
         ∧ ((percent < 0)%Z → bar = bar0))
    ∧ (∀ id, id ∉ progress_ids → document w' !! id = document w !! id).
Proof.
  intros H. rewrite showProgress_run by done. eexists. split; [reflexivity|].
  unfold progress_ids in H. split_els.
  repeat match goal with Hx : has_el _ _ |- _ => destruct Hx as [? ?] end.
  unfold hidden. cbn [document set_document]. unfold progress_dom.
  assert (Hbar : ∀ (d : gmap string Element) id, id ≠ "progress-fill" →
            (if (percent <? 0)%Z then λ x, x
             else alter (set_attr_el "style.width" (number_text percent +:+ "%"))
                        "progress-fill") d !! id = d !! id).
  { intros d id Hid. destruct (percent <? 0)%Z; [done|]. by rewrite lookup_alter_ne. }
  split; [|split; [|split]].
  - rewrite Hbar, !step_dom_ne by done. rewrite lookup_alter_eq.
    match goal with Hx : _ !! "progress-section" = Some _ |- _ => rewrite Hx end.
    cbn. f_equal. apply hidden_token_remove.
  - intros i id Hi.
    destruct i as [|[|[|i]]]; cbn in Hi; [injection Hi as <-..|done].
    + rewrite Hbar, !step_dom_ne by done.
      edestruct (step_dom_marks "step-download" 0 step) as (e' & -> & Hd & Ha & _);
        [rewrite lookup_alter_ne by done; eassumption|].
      exists e'. split; [done|]. split; [exact Hd|exact Ha].
    + rewrite Hbar, step_dom_ne by done.
      edestruct (step_dom_marks "step-analyze" 1 step) as (e' & -> & Hd & Ha & _);
        [rewrite step_dom_ne, lookup_alter_ne by done; eassumption|].
      exists e'. split; [done|]. split; [exact Hd|exact Ha].
    + rewrite Hbar by done.
      edestruct (step_dom_marks "step-generate" 2 step) as (e' & -> & Hd & Ha & _);
        [rewrite !step_dom_ne, lookup_alter_ne by done; eassumption|].
      exists e'. split; [done|]. split; [exact Hd|exact Ha].
  - match goal with Hx : _ !! "progress-fill" = Some ?b |- _ => exists
      (if (percent <? 0)%Z then b
       else set_attr_el "style.width" (number_text percent +:+ "%") b), b;
      rename Hx into Hfill end.
    split; [|split; [exact Hfill|]].
    + destruct (percent <? 0)%Z;
        rewrite ?lookup_alter_eq, !step_dom_ne, lookup_alter_ne by done;
        by rewrite Hfill.
    + split.
      * intros Hp. destruct (Z.ltb_spec percent 0); [lia|]. cbn.
        rewrite number_text_exact; [apply lookup_insert_eq|].
        unfold exact_integer. change (2 ^ 53)%Z with 9007199254740992%Z. lia.
      * intros Hp. by destruct (Z.ltb_spec percent 0); [|lia].
  - intros id Hid. fold (progress_dom step percent (document w)). by apply progress_dom_ne.
Qed.

Lemma showProgress_marks_witness :
  ∃ w' el bar, showProgress 1 50 (sample_world "" "" "chord_sheet" []) = (Ok tt, w')
    ∧ document w' !! "step-download" = Some el ∧ "done" ∈ classList el
    ∧ document w' !! "progress-fill" = Some bar ∧ attrs bar !! "style.width" = Some "50%".
Proof.
  destruct (showProgress_marks 1 50 (sample_world "" "" "chord_sheet" []))
    as (w' & Hrun & _ & Hsteps & (bar & bar0 & Hbar & _ & Hwidth & _) & _).
  - unfold has_els. compute_done.
  - destruct (Hsteps 0%nat "step-download" eq_refl) as (el & Hel & Hdone & _).
    exists w', el, bar. split; [exact Hrun|]. split; [exact Hel|].
    split; [apply Hdone; lia|]. split; [exact Hbar|]. apply Hwidth. lia.
Defined.

Lemma selectType_marks_selected_witness :
  let w := set_document
             (λ d, <["btn-piano" := mkElement "" ["type-btn"] "" false
                                      (<["data-type" := "piano_sheet"]> ∅)]>
                     (<["btn-chord" := mkElement "" ["type-btn"; "active"] "" false
                                         (<["data-type" := "chord_sheet"]> ∅)]> d))
             (sample_world "" "" "chord_sheet" []) in
  ∃ w' a b, selectType "piano_sheet" w = (Ok tt, w')
    ∧ document w' !! "btn-piano" = Some a ∧ "active" ∈ classList a
    ∧ document w' !! "btn-chord" = Some b ∧ "active" ∉ classList b.
Proof.
  intros w.
  destruct (selectType_marks_selected "piano_sheet" w) as (w' & Hrun & _ & Hmarks & _).
  destruct (Hmarks "btn-piano" _ eq_refl) as (a & Ha & _ & Hsel).
  destruct (Hmarks "btn-chord" _ eq_refl) as (b & Hb & _ & Hnot).
  destruct Hsel as (Hactive & _); [compute_done|].
  destruct Hnot as (Hinactive & _); [compute_done|].
  exists w', a, b. split; [exact Hrun|]. split; [exact Ha|].
  split; [by apply Hactive|]. split; [exact Hb|].
  intros Hin. apply Hinactive in Hin. discriminate.
Defined.

(** ** The sheet library and its links *)

Lemma deref_run l v w : heap w !! l = Some v → deref l w = (Ok v, w).
Proof. intros H. unfold deref, gets. by rewrite H. Qed.

Lemma truthy_nullish v : truthy v = true → nullish v = false.
Proof. by destruct v. Qed.

Lemma match_after_app p s :
  s ≠ "" → has_line_terminator s = false → match_after p (p +:+ s) = Some s.
Proof.
  intros Hs Hl. unfold match_after. rewrite strip_prefix_app, Hl, orb_false_r.
  by destruct (String.eqb_spec s "").
Qed.

Lemma match_after_sheet_share s : match_after "#share-" ("#sheet-" +:+ s) = None.
Proof. reflexivity. Qed.

Lemma match_after_share_sheet s : match_after "#sheet-" ("#share-" +:+ s) = None.
Proof. reflexivity. Qed.

Lemma viewSheetFromLibrary_run i l v w :
  has_els w result_ids →
  allSheets w !! i = Some l → heap w !! l = Some v → truthy v = true →
  displayable v = true → converts (field v "id") = true →
  viewSheetFromLibrary i w = (Ok tt, viewed l v w).
Proof.
  intros H Hi Hl Ht Hd Hid. pose proof (truthy_nullish v Ht) as Hn.
  unfold viewSheetFromLibrary, viewed.
  rewrite run_bind. unfold gets at 1. lazy beta iota. rewrite Hi.
  rewrite run_bind, (deref_run l v) by done. lazy beta iota. rewrite Ht. cbn [negb].
  rewrite run_bind. unfold modify at 1. lazy beta iota.
  rewrite run_bind, (displayResult_run l v)
    by (first [exact Hn | exact Hl | exact Hd | solve_has]).
  lazy beta iota.
  rewrite run_bind, (prop_run l "id" _ v) by (first [exact Hn | exact Hl]).
  lazy beta iota. destruct (truthy (field v "id")); [|done].
  by rewrite run_bind, lift_ToString_run.
Qed.

Lemma fragment_safe_app a b :
  fragment_safe (a +:+ b) = fragment_safe a && fragment_safe b.
Proof.
  unfold fragment_safe. induction a as [|c a IH]; [done|].
  rewrite string_app_cons. cbn [list_ascii_of_string forallb]. by rewrite IH, andb_assoc.
Qed.

Lemma url_fragment_safe s : fragment_safe s = true → url_fragment s = s.
Proof.
  unfold url_fragment, fragment_safe. intros Hs.
  assert (Hstrip : strip_trailing_c0 s = s).
  { induction s as [|c s IH]; [done|]. cbn [list_ascii_of_string forallb] in Hs.
    apply andb_true_iff in Hs as [Hc Hs]. cbn [strip_trailing_c0]. rewrite IH by done.
    rewrite bool_decide_eq_false_2, andb_false_r; [done|].
    apply negb_true_iff, bool_decide_eq_false in Hc. lia. }
  rewrite Hstrip. clear Hstrip.
  induction s as [|c s IH]; [done|]. cbn [list_ascii_of_string forallb] in Hs.
  apply andb_true_iff in Hs as [Hc Hs]. cbn [fragment_encode].
  apply negb_true_iff in Hc. rewrite Hc, IH by done.
  rewrite bool_decide_eq_false_2; [done|].
  apply bool_decide_eq_false in Hc. rewrite !elem_of_cons, elem_of_nil. lia.
Qed.

Lemma fragment_safe_no_line_terminator s :
  fragment_safe s = true → has_line_terminator s = false.
Proof.
  unfold fragment_safe. induction s as [|c s IH]; [done|].
  cbn [list_ascii_of_string forallb has_line_terminator].
  intros [Hc Hs]%andb_true_iff. rewrite IH, orb_false_r by done.
  apply negb_true_iff, bool_decide_eq_false in Hc.
  rewrite bool_decide_eq_false_2 by lia. cbn [orb].
  destruct s as [|c2 [|c3 s]]; try done.
  apply bool_decide_eq_false. lia.
Qed.

Lemma findIndex_id_found sid sheets i k l v w :
  no_sheet_before w sheets sid i →
  sheets !! i = Some l → heap w !! l = Some v → nullish v = false →
  field v "id" = VStr sid →
  findIndex_id sid sheets k w = (Ok (Some (k + i)%nat), w).
Proof.
  revert i k. induction sheets as [|s sheets IH]; intros i k Hbefore Hi Hl Hn Hid; [done|].
  cbn [findIndex_id]. destruct i as [|i].
  - injection Hi as ->. rewrite run_bind, (prop_run l "id" w v) by done.
    lazy beta iota. rewrite Hid, String.eqb_refl. by rewrite Nat.add_0_r.
  - destruct (Hbefore 0%nat s) as (v0 & Hv0 & Hn0 & Hid0); [lia|done|].
    rewrite run_bind, (prop_run s "id" w v0) by done. lazy beta iota.
    assert (Hrest : findIndex_id sid sheets (S k) w = (Ok (Some (k + S i)%nat), w)).
    { replace (k + S i)%nat with (S k + i)%nat by lia.
      apply IH; [|done..]. intros j l' Hj Hl'. apply (Hbefore (S j) l'); [lia|done]. }
    destruct (field v0 "id") as [| | | |t| | |]; try exact Hrest.
    destruct (String.eqb_spec t sid) as [->|_]; [done|exact Hrest].
Qed.

Lemma findIndex_id_missing sid sheets k w :
  no_sheet_before w sheets sid (length sheets) →
  findIndex_id sid sheets k w = (Ok None, w).
Proof.
  revert k. induction sheets as [|s sheets IH]; intros k Hbefore; [done|].
  cbn [findIndex_id].
  destruct (Hbefore 0%nat s) as (v0 & Hv0 & Hn0 & Hid0); [cbn; lia|done|].
  rewrite run_bind, (prop_run s "id" w v0) by done. lazy beta iota.
  assert (Hrest : findIndex_id sid sheets (S k) w = (Ok None, w)).
  { apply IH. intros j l' Hj Hl'. apply (Hbefore (S j) l'); [cbn; lia|done]. }
  destruct (field v0 "id") as [| | | |t| | |]; try exact Hrest.
  destruct (String.eqb_spec t sid) as [->|_]; [done|exact Hrest].
Qed.

Lemma viewed_observations l v w e :
  document w !! "sheet-content" = Some e →
  currentResult (viewed l v w) = Some l
  ∧ heap (viewed l v w) = heap w
  ∧ allSheets (viewed l v w) = allSheets w
  ∧ text_of (viewed l v w) "sheet-content" = Some (DOMString_nullable (field v "content"))
  ∧ (truthy (field v "id") = true → fragment_safe (ToString (field v "id")) = true →
     hash (location (viewed l v w)) = "#sheet-" +:+ ToString (field v "id")).
Proof.
  intros He. unfold viewed, text_of.
  destruct (truthy (field v "id")); cbn [pushState modify snd];
    cbn [currentResult heap allSheets document location hash set_location add_effect
         set_document set_currentResult];
    (repeat split; try done);
    try (by erewrite display_dom_text; [|eassumption|compute_done]).
  intros _ Hsafe.
  rewrite url_fragment_safe by (by rewrite fragment_safe_app, Hsafe).
  reflexivity.
Qed.

Lemma handleHashNavigation_sheet w sid i l v :
  has_els w result_ids →
  hash (location w) = "#sheet-" +:+ sid →
  sid ≠ "" → has_line_terminator sid = false →
  allSheets w !! i = Some l → heap w !! l = Some v → truthy v = true →
  displayable v = true →
  field v "id" = VStr sid →
  no_sheet_before w (allSheets w) sid i →
  handleHashNavigation w = (Ok tt, viewed l v w).
Proof.
  intros H Hh Hs Hlt Hi Hl Ht Hd Hid Hbefore.
  unfold handleHashNavigation. rewrite run_bind. unfold gets at 1. lazy beta iota.
  rewrite Hh. rewrite string_app_cons. cbn [String.eqb]. rewrite <- string_app_cons.
  rewrite match_after_app, match_after_sheet_share by done.
  rewrite run_bind, run_bind. unfold gets at 1. lazy beta iota.
  rewrite bool_decide_eq_true_2 by (apply lookup_lt_Some in Hi; lia).
  rewrite run_bind, (findIndex_id_found sid _ i 0 l v)
    by (first [done | by apply truthy_nullish]).
  lazy beta iota. cbn [Nat.add].
  by rewrite (viewSheetFromLibrary_run i l v) by (by rewrite ?Hid).
Qed.

(** X7.  Sheet links lead back to the sheet, for an id that the address
    bar keeps as it is.  [viewSheetFromLibrary(i)] displays sheet [i],
    makes it the current result and moves the address to [#sheet-<id>];
    [handleHashNavigation], run on a page with that fragment and the same
    library, displays the same sheet and makes it the current result,
    provided the id is made of characters that a fragment holds
    unencoded, no earlier sheet of the library carries the same id, and
    the fields of the sheet convert to strings. *)
Theorem sheet_link_round_trip w w2 sid i l v :
  has_els w result_ids → has_els w2 result_ids →
  allSheets w !! i = Some l → heap w !! l = Some v → truthy v = true →
  displayable v = true →
  field v "id" = VStr sid → sid ≠ "" → fragment_safe sid = true →
  no_sheet_before w (allSheets w) sid i →
  allSheets w2 = allSheets w → heap w2 = heap w →
  ∃ w1 w3, viewSheetFromLibrary i w = (Ok tt, w1)
    ∧ currentResult w1 = Some l
    ∧ text_of w1 "sheet-content" = Some (DOMString_nullable (field v "content"))
    ∧ hash (location w1) = "#sheet-" +:+ sid
    ∧ (hash (location w2) = hash (location w1) →
       handleHashNavigation w2 = (Ok tt, w3)
       ∧ currentResult w3 = Some l
       ∧ text_of w3 "sheet-content" = Some (DOMString_nullable (field v "content"))
       ∧ hash (location w3) = "#sheet-" +:+ sid).
Proof.
  intros H H2 Hi Hl Ht Hd Hid Hs Hsafe Hbefore Hsheets Hheap.
  pose proof (fragment_safe_no_line_terminator sid Hsafe) as Hlt.
  assert (Htid : truthy (field v "id") = true).
  { rewrite Hid. cbn. by destruct (String.eqb_spec sid ""). }
  destruct (proj1 (Forall_forall _ _) H "sheet-content") as [e He]; [compute_done|].
  destruct (proj1 (Forall_forall _ _) H2 "sheet-content") as [e2 He2]; [compute_done|].
  destruct (viewed_observations l v w e He) as (Hc & _ & _ & Htext & Hhash).
  destruct (viewed_observations l v w2 e2 He2) as (Hc2 & _ & _ & Htext2 & Hhash2).
  specialize (Hhash Htid). specialize (Hhash2 Htid). rewrite Hid in Hhash, Hhash2.
  specialize (Hhash Hsafe). specialize (Hhash2 Hsafe). cbn [ToString] in Hhash, Hhash2.
  exists (viewed l v w), (viewed l v w2).
  split; [by apply viewSheetFromLibrary_run; rewrite ?Hid|].
  split; [exact Hc|]. split; [exact Htext|]. split; [exact Hhash|].
  intros Hh. rewrite Hhash in Hh.
  split; [|by repeat split].
  apply (handleHashNavigation_sheet w2 sid i l v); try done.
  - by rewrite Hsheets.
  - by rewrite Hheap.
  - rewrite Hsheets. intros j l' Hj Hl'. rewrite Hheap. by apply (Hbefore j l').
Qed.

Lemma sheet_link_round_trip_witness :
  let sheet := VObj [("id", VStr "a1"); ("title", VStr "Song"); ("content", VStr "1 2 3")] in
  let w := mkWorld Part002 sample_location (sample_document "" "")
             (<[0%nat := sheet]> ∅) "chord_sheet" None [0%nat] ∅ [] in
  let w2 := set_location (mkLocation "http://localhost:8000" "localhost" "/"
                            "http://localhost:8000/#sheet-a1" "#sheet-a1") w in
  ∃ w1 w3, viewSheetFromLibrary 0 w = (Ok tt, w1)
    ∧ hash (location w1) = "#sheet-a1"
    ∧ handleHashNavigation w2 = (Ok tt, w3) ∧ currentResult w3 = Some 0%nat.
Proof.
  intros sheet w w2.
  assert (H : has_els w result_ids) by (unfold has_els; compute_done).
  destruct (sheet_link_round_trip w w2 "a1" 0 0 sheet H H)
    as (w1 & w3 & Hrun & _ & _ & Hh1 & Hback).
  - reflexivity.
  - reflexivity.
  - reflexivity.
  - reflexivity.
  - reflexivity.
  - discriminate.
  - reflexivity.
  - intros j l Hj. lia.
  - reflexivity.
  - reflexivity.
  - exists w1, w3. destruct Hback as (Hnav & Hc & _); [by rewrite Hh1|].
    split; [exact Hrun|]. split; [exact Hh1|]. split; [exact Hnav|exact Hc].
Defined.

Lemma handleHashNavigation_no_sheet w sid :
  hash (location w) = "#sheet-" +:+ sid →
  no_sheet_before w (allSheets w) sid (length (allSheets w)) →
  handleHashNavigation w = (Ok tt, w).
Proof.
  intros Hh Hbefore.
  unfold handleHashNavigation. rewrite run_bind. unfold gets at 1. lazy beta iota.
  rewrite Hh. rewrite string_app_cons. cbn [String.eqb]. rewrite <- string_app_cons.
  rewrite match_after_sheet_share.
  destruct (match_after "#sheet-" ("#sheet-" +:+ sid)) as [s|] eqn:Hm; [|done].
  assert (s = sid) as ->.
  { unfold match_after in Hm. rewrite strip_prefix_app in Hm.
    destruct (_ || _); congruence. }
  rewrite run_bind, run_bind. unfold gets at 1. lazy beta iota.
  case_bool_decide; [|done].
  by rewrite run_bind, findIndex_id_missing.
Qed.

(** X8.  A [#sheet-<id>] fragment whose id no sheet of the library
    carries, or that arrives while the library is empty, changes
    nothing. *)
Theorem handleHashNavigation_unknown_sheet w sid :
  hash (location w) = "#sheet-" +:+ sid →
  no_sheet_before w (allSheets w) sid (length (allSheets w)) →
  handleHashNavigation w = (Ok tt, w).
Proof. apply handleHashNavigation_no_sheet. Qed.

Lemma handleHashNavigation_unknown_sheet_witness :
  let sheet := VObj [("id", VStr "a1"); ("title", VStr "Song"); ("content", VStr "1 2 3")] in
  let w := mkWorld Part002
             (mkLocation "http://localhost:8000" "localhost" "/"
                "http://localhost:8000/#sheet-b2" "#sheet-b2")
             (sample_document "" "")
             (<[0%nat := sheet]> ∅) "chord_sheet" None [0%nat] ∅ [] in
  handleHashNavigation w = (Ok tt, w).
Proof.
  intros sheet w. apply (handleHashNavigation_unknown_sheet w "b2"); [reflexivity|].
  intros j l Hj Hl. destruct j as [|j]; [|cbn in Hj; lia].
  injection Hl as <-. exists sheet. split; [reflexivity|]. split; [reflexivity|discriminate].
Defined.

Lemma garbled_decode_share encoded :
  garbled encoded = true → ∃ err, decode_share encoded = Throw err.
Proof.
  unfold garbled, decode_share.
  destruct (atob encoded) as [binary|e]; [|by eexists].
  destruct (decodeURIComponent binary) as [text|e]; [|by eexists].
  intros Hbad. exists SyntaxError. by apply JSON_parse_begins_no_json.
Qed.

(** X9.  A [#share-] fragment whose payload is garbled (not base64, not
    a percent-encoded text, or a text that begins no JSON value) is
    reported by a toast; the current result, the objects and every
    element but the toast are left as they were. *)
Theorem handleHashNavigation_bad_share w encoded :
  has_el w "toast" →
  hash (location w) = "#share-" +:+ encoded →
  garbled encoded = true →
  ∃ w', handleHashNavigation w = (Ok tt, w')
    ∧ (encoded ≠ "" → has_line_terminator encoded = false →
       text_of w' "toast" = Some "無法解析分享連結" ∧ hidden w' "toast" = Some false)
    ∧ currentResult w' = currentResult w
    ∧ heap w' = heap w
    ∧ (∀ id, id ≠ "toast" → document w' !! id = document w !! id).
Proof.
  intros Ht Hh [err Hd]%garbled_decode_share.
  unfold handleHashNavigation. rewrite run_bind. unfold gets at 1. lazy beta iota.
  rewrite Hh. rewrite string_app_cons. cbn [String.eqb]. rewrite <- string_app_cons.
  rewrite match_after_share_sheet, run_ret_bind.
  destruct (match_after "#share-" ("#share-" +:+ encoded)) as [s|] eqn:Hm.
  - assert (s = encoded) as ->.
    { unfold match_after in Hm. rewrite strip_prefix_app in Hm.
      destruct (_ || _); congruence. }
    unfold try_catch. rewrite run_bind. unfold lift at 1. rewrite Hd.
    rewrite showToast_run by done.
    eexists. split; [reflexivity|].
    split; [|split; [done|split; [done|]]].
    + intros _ _. unfold text_of, hidden. cbn [document add_effect set_document].
      destruct Ht as [t Ht].
      edestruct (toast_dom_toast "無法解析分享連結") as (t' & -> & Ht1 & Ht2); [eassumption|].
      cbn. by rewrite Ht1, Ht2.
    + intros id Hid. cbn. by apply toast_dom_ne.
  - exists w. split; [done|]. split; [|done].
    intros Hne Hlt. by rewrite match_after_app in Hm.
Qed.

Lemma handleHashNavigation_bad_share_witness :
  let w := set_location (mkLocation "http://localhost:8000" "localhost" "/"
                           "http://localhost:8000/#share-%%%" "#share-%%%")
             (sample_world "" "" "chord_sheet" []) in
  ∃ w', handleHashNavigation w = (Ok tt, w')
        ∧ text_of w' "toast" = Some "無法解析分享連結"
        ∧ currentResult w' = None.
Proof.
  intros w.
  destruct (handleHashNavigation_bad_share w "%%%")
    as (w' & Hrun & Htoast & Hc & _).
  - unfold has_el. compute_done.
  - reflexivity.
  - vm_compute. reflexivity.
  - exists w'. split; [exact Hrun|].
    split; [by apply Htoast|exact Hc].
Defined.

Lemma hex_digit_safe n : (n < 16)%N → fragment_encoded (hex_digit true n) = false.
Proof.
  intros Hn.
  assert (Hcases : n ∈ [0;1;2;3;4;5;6;7;8;9;10;11;12;13;14;15]%N).
  { rewrite !elem_of_cons. lia. }
  rewrite !elem_of_cons, elem_of_nil in Hcases.
  repeat (destruct Hcases as [->|Hcases]; [by vm_compute|]). done.
Qed.

(** What the URL parser makes of a fragment holds no character that it
    encodes. *)
Lemma fragment_encode_safe s : fragment_safe (fragment_encode s) = true.
Proof.
  unfold fragment_safe. induction s as [|c s IH]; [done|]. cbn [fragment_encode].
  case_bool_decide; [done|].
  destruct (fragment_encoded c) eqn:Hc.
  - unfold hex2. rewrite !string_app_cons, string_app_nil_l.
    cbn [list_ascii_of_string forallb]. pose proof (code_bound c) as Hb.
    rewrite IH, !hex_digit_safe; [done| |].
    + by apply N.mod_lt.
    + apply N.Div0.div_lt_upper_bound. unfold code in *. lia.
  - cbn [list_ascii_of_string forallb]. by rewrite Hc, IH.
Qed.

Lemma strip_trailing_c0_cons c s :
  (32 < code c)%N → strip_trailing_c0 (String c s) = String c (strip_trailing_c0 s).
Proof.
  intros Hc. cbn [strip_trailing_c0].
  by rewrite bool_decide_eq_false_2, andb_false_r by lia.
Qed.

Lemma fragment_encode_cons c s :
  fragment_encoded c = false → fragment_encode (String c s) = String c (fragment_encode s).
Proof.
  intros Hc. cbn [fragment_encode]. rewrite Hc.
  rewrite bool_decide_eq_false_2; [done|].
  apply bool_decide_eq_false in Hc. rewrite !elem_of_cons, elem_of_nil. lia.
Qed.

Lemma url_fragment_sheet sid : url_fragment ("sheet-" +:+ sid) = "sheet-" +:+ url_fragment sid.
Proof.
  unfold url_fragment. rewrite !string_app_cons, string_app_nil_l.
  rewrite !strip_trailing_c0_cons by (by vm_compute).
  by rewrite !fragment_encode_cons by (by vm_compute).
Qed.

(** X24.  A sheet link does not lead back to a sheet whose id holds a
    character that the address bar encodes (a space, a quote, a
    non-ASCII letter): [viewSheetFromLibrary] displays the sheet, but the
    fragment of the address is [#sheet-] followed by the encoded id, which
    differs from the id; unless a sheet of the library carries that
    encoded text as its id, [handleHashNavigation] run on the new address
    finds no sheet and leaves the page as it is. *)
Theorem sheet_link_encoded w sid i l v :
  has_els w result_ids →
  allSheets w !! i = Some l → heap w !! l = Some v → truthy v = true →
  displayable v = true →
  field v "id" = VStr sid → sid ≠ "" → fragment_safe sid = false →
  ∃ w1, viewSheetFromLibrary i w = (Ok tt, w1)
    ∧ currentResult w1 = Some l
    ∧ hash (location w1) = "#sheet-" +:+ url_fragment sid
    ∧ url_fragment sid ≠ sid
    ∧ (no_sheet_before w (allSheets w) (url_fragment sid) (length (allSheets w)) →
       handleHashNavigation w1 = (Ok tt, w1)).
Proof.
  intros H Hi Hl Ht Hd Hid Hs Hunsafe.
  assert (Htid : truthy (field v "id") = true).
  { rewrite Hid. cbn. by destruct (String.eqb_spec sid ""). }
  destruct (proj1 (Forall_forall _ _) H "sheet-content") as [e He]; [compute_done|].
  destruct (viewed_observations l v w e He) as (Hc & Hheap & Hsheets & _ & _).
  exists (viewed l v w).
  split; [by apply viewSheetFromLibrary_run; rewrite ?Hid|].
  split; [exact Hc|].
  assert (Hhash : hash (location (viewed l v w)) = "#sheet-" +:+ url_fragment sid).
  { unfold viewed. rewrite Htid, Hid. cbn [ToString pushState modify snd].
    cbn [location hash set_location add_effect]. by rewrite url_fragment_sheet. }
  split; [exact Hhash|]. split.
  - intros Heq. pose proof (fragment_encode_safe (strip_trailing_c0 sid)) as Hsafe.
    fold (url_fragment sid) in Hsafe. rewrite Heq in Hsafe. congruence.
  - intros Hbefore. apply (handleHashNavigation_no_sheet _ _ Hhash).
    rewrite Hsheets. intros j l' Hj Hl'. rewrite Hheap. by apply (Hbefore j l').
Qed.

Lemma sheet_link_encoded_witness :
  let sheet := VObj [("id", VStr "my song"); ("title", VStr "Song"); ("content", VStr "1 2 3")] in
  let w := mkWorld Part002 sample_location (sample_document "" "")
             (<[0%nat := sheet]> ∅) "chord_sheet" None [0%nat] ∅ [] in
  ∃ w1, viewSheetFromLibrary 0 w = (Ok tt, w1)
    ∧ hash (location w1) = "#sheet-my%20song"
    ∧ handleHashNavigation w1 = (Ok tt, w1).
Proof.
  intros sheet w.
  assert (H : has_els w result_ids) by (unfold has_els; compute_done).
  destruct (sheet_link_encoded w "my song" 0 0 sheet H)
    as (w1 & Hrun & _ & Hhash & _ & Hback).
  - reflexivity.
  - reflexivity.
  - reflexivity.
  - reflexivity.
  - reflexivity.
  - discriminate.
  - reflexivity.
  - exists w1. split; [exact Hrun|]. split; [exact Hhash|]. apply Hback.
    intros j l Hj Hl. destruct j as [|j]; [|cbn in Hj; lia].
    injection Hl as <-. exists sheet. split; [reflexivity|]. split; [reflexivity|discriminate].
Defined.

(** ** Sharing *)

Lemma keeps_els_qr title url : keeps_els (qr_dom title url).
Proof. intros d j. unfold qr_dom. by rewrite !lookup_alter_is_Some. Qed.

Lemma showQRCodeModal_run title url w :
  has_els w qr_ids → converts title = true →
  showQRCodeModal title url w = (Ok tt, set_document (qr_dom title url) w).
Proof.
  intros H Htitle. unfold qr_ids in H. split_els.
  unfold showQRCodeModal. rewrite run_bind. unfold gets at 1. lazy beta iota.
  match goal with Hx : has_el w "qr-modal" |- _ => destruct Hx as [m Hm] end.
  rewrite Hm.
  assert (has_el w "qr-modal") by (by exists m).
  do 2 step. rewrite run_bind, lift_ToString_run by done. lazy beta iota.
  do 4 step. by rewrite classList_remove_run by solve_has.
Qed.

Lemma showQRCodeModal_no_modal title url w :
  document w !! "qr-modal" = None → showQRCodeModal title url w = (Ok tt, w).
Proof. intros H. unfold showQRCodeModal. rewrite run_bind. unfold gets at 1. by rewrite H. Qed.

Lemma js_length_app a b : js_length (a +:+ b) = (js_length a + js_length b)%nat.
Proof.
  induction a as [|c a IH]; [by rewrite string_app_nil_l|].
  rewrite string_app_cons. cbn [js_length]. rewrite IH. lia.
Qed.

Lemma js_substring0_length n s : (js_length (js_substring0 n s) ≤ n)%nat.
Proof.
  revert n. induction s as [|c s IH]; intros n; cbn [js_substring0 js_length]; [lia|].
  case_bool_decide as Hcont.
  - cbn [js_length]. rewrite bool_decide_eq_false_2 by lia.
    rewrite bool_decide_eq_false_2 by lia. cbn. apply IH.
  - destruct (decide (240 ≤ code c)%N) as [Hbig|Hbig].
    + rewrite (bool_decide_eq_true_2 _ Hbig).
      case_bool_decide as Hn; [|cbn; lia]. cbn [js_length].
      rewrite bool_decide_eq_false_2 by lia. rewrite (bool_decide_eq_true_2 _ Hbig).
      specialize (IH (n - 2)%nat). lia.
    + rewrite (bool_decide_eq_false_2 _ Hbig).
      case_bool_decide as Hn; [|cbn; lia]. cbn [js_length].
      rewrite bool_decide_eq_true_2 by lia.
      specialize (IH (n - 1)%nat). lia.
Qed.

Lemma link_text_length url : (js_length (link_text url) ≤ 63)%nat.
Proof.
  unfold link_text. case_bool_decide as H; [|lia].
  rewrite js_length_app. pose proof (js_substring0_length 60 url).
  change (js_length "...") with 3%nat. lia.
Qed.

Lemma js_substring0_prefix n s : ∃ r, s = js_substring0 n s +:+ r.
Proof.
  revert n. induction s as [|c s IH]; intros n; cbn [js_substring0]; [by exists ""|].
  case_bool_decide.
  - destruct (IH n) as [r Hr]. exists r. by rewrite string_app_cons, <- Hr.
  - case_bool_decide; [|by eexists; rewrite string_app_nil_l].
    destruct (IH (n - (if bool_decide (240 ≤ code c)%N then 2 else 1))%nat) as [r Hr].
    exists r. by rewrite string_app_cons, <- Hr.
Qed.

Lemma encodeURIComponent_chars s :
  Forall (λ c, c ≠ "&"%char ∧ c ≠ "#"%char ∧ c ≠ "="%char ∧ c ≠ "?"%char)
         (list_ascii_of_string (encodeURIComponent s)).
Proof.
  assert (Hhex : ∀ n, (n < 16)%N →
            let c := hex_digit true n in
            c ≠ "&"%char ∧ c ≠ "#"%char ∧ c ≠ "="%char ∧ c ≠ "?"%char).
  { intros n Hn.
    assert (Hcases : n ∈ [0;1;2;3;4;5;6;7;8;9;10;11;12;13;14;15]%N).
    { rewrite !elem_of_cons. lia. }
    rewrite !elem_of_cons, elem_of_nil in Hcases.
    repeat (destruct Hcases as [->|Hcases]; [by vm_compute|]). done. }
  induction s as [|c s IH]; [constructor|]. cbn [encodeURIComponent].
  destruct (uri_unreserved c) eqn:Hu.
  - cbn [list_ascii_of_string]. constructor; [|exact IH].
    repeat split; intros ->; by vm_compute in Hu.
  - unfold hex2. rewrite !string_app_cons, string_app_nil_l.
    cbn [list_ascii_of_string]. pose proof (code_bound c) as Hc.
    constructor; [done|]. constructor.
    { apply Hhex. apply N.Div0.div_lt_upper_bound. unfold code in *. lia. }
    constructor; [|exact IH].
    apply Hhex. by apply N.mod_lt.
Qed.

(** X10.  [showQRCodeModal(title, url)], for a title that converts to a
    string, opens the modal with the whole link in the [href] and the
    [data-full-url] of the anchor, and a text of at most 63 UTF-16 code
    units: the link itself when it has at most 60, else, when the cut
    after the 60th splits no character, its beginning followed by three
    dots.  The address of the QR image carries the link percent-encoded,
    so that it holds no [&], [#], [=] or [?] and decodes to the link.
    Without a modal on the page the call does nothing. *)
Theorem showQRCodeModal_link title url w :
  utf8_valid url = true →
  (has_els w qr_ids → converts title = true →
   ∃ w' a img, showQRCodeModal title url w = (Ok tt, w')
     ∧ hidden w' "qr-modal" = Some false
     ∧ document w' !! "qr-link" = Some a
     ∧ attrs a !! "href" = Some url ∧ attrs a !! "data-full-url" = Some url
     ∧ (js_length (textContent a) ≤ 63)%nat
     ∧ ((js_length url ≤ 60)%nat → textContent a = url)
     ∧ ((60 < js_length url)%nat → js_length (js_substring0 60 url) = 60%nat →
        ∃ shown rest, textContent a = shown +:+ "..." ∧ url = shown +:+ rest
                      ∧ js_length shown = 60%nat)
     ∧ document w' !! "qr-image" = Some img
     ∧ attrs img !! "src"
       = Some ("https://api.qrserver.com/v1/create-qr-code/?size=250x250&data="
               +:+ encodeURIComponent url +:+ "&bgcolor=1e293b&color=f1f5f9")
     ∧ decodeURIComponent (encodeURIComponent url) = Ok url
     ∧ Forall (λ c, c ≠ "&"%char ∧ c ≠ "#"%char ∧ c ≠ "="%char ∧ c ≠ "?"%char)
              (list_ascii_of_string (encodeURIComponent url)))
  ∧ (document w !! "qr-modal" = None → showQRCodeModal title url w = (Ok tt, w)).
Proof.
  intros Hurl. split; [|apply showQRCodeModal_no_modal].
  intros H Htitle. rewrite showQRCodeModal_run by done.
  unfold qr_ids in H. split_els.
  repeat match goal with Hx : has_el _ _ |- _ => destruct Hx as [? ?] end.
  eexists _, _, _. split; [reflexivity|].
  unfold hidden. cbn [document set_document]. unfold qr_dom.
  split.
  { rewrite lookup_alter_eq, !lookup_alter_ne by done.
    match goal with Hx : _ !! "qr-modal" = Some _ |- _ => rewrite Hx end.
    cbn. f_equal. apply hidden_token_remove. }
  split.
  { rewrite lookup_alter_ne by done. rewrite !lookup_alter_eq, !lookup_alter_ne by done.
    match goal with Hx : _ !! "qr-link" = Some _ |- _ => rewrite Hx end.
    reflexivity. }
  cbn [attrs textContent set_attr_el set_textContent_el].
  split; [by rewrite lookup_insert_ne, lookup_insert_eq|].
  split; [by rewrite lookup_insert_eq|].
  split; [apply link_text_length|].
  split; [intros Hle; unfold link_text; by rewrite bool_decide_eq_false_2 by lia|].
  split.
  { intros Hlt Hcut. unfold link_text. rewrite bool_decide_eq_true_2 by done.
    destruct (js_substring0_prefix 60 url) as [rest Hrest]. by eexists _, rest. }
  split.
  { rewrite !lookup_alter_ne by done. rewrite !lookup_alter_eq, !lookup_alter_ne by done.
    match goal with Hx : _ !! "qr-image" = Some _ |- _ => rewrite Hx end.
    reflexivity. }
  cbn [attrs set_attr_el].
  split; [by rewrite lookup_insert_ne, lookup_insert_eq|].
  split; [by apply decodeURIComponent_encode|apply encodeURIComponent_chars].
Qed.

Lemma showQRCodeModal_link_witness :
  let w := set_document (λ d, list_to_map ((λ id, (id, blank)) <$> qr_ids) ∪ d)
             (sample_world "" "" "chord_sheet" []) in
  ∃ w' a, showQRCodeModal (VStr "Song") "http://localhost:8000/#sheet-a1" w = (Ok tt, w')
    ∧ document w' !! "qr-link" = Some a
    ∧ textContent a = "http://localhost:8000/#sheet-a1".
Proof.
  intros w.
  destruct (showQRCodeModal_link (VStr "Song") "http://localhost:8000/#sheet-a1" w)
    as [Hshown _]; [reflexivity|].
  destruct Hshown as (w' & a & img & Hrun & _ & Ha & _ & _ & _ & Htext & _).
  - unfold has_els. compute_done.
  - reflexivity.
  - exists w', a. split; [exact Hrun|]. split; [exact Ha|]. apply Htext. vm_compute. lia.
Defined.

Lemma encode_share_succeeds d : ∃ encoded, encode_share d = Ok encoded.
Proof.
  unfold encode_share.
  destruct (atob_btoa (encodeURIComponent (default "undefined" (JSON_stringify d)))
              (encodeURIComponent_ascii _)) as (e & He & _).
  by exists e.
Qed.

Lemma shareSheet_run index sheet v w :
  match index with Some i => allSheets w !! i | None => currentResult w end = Some sheet →
  heap w !! sheet = Some v → truthy v = true →
  (IS_GITHUB_PAGES w = true → converts (field v "id") = true) →
  ∃ link, share_link w v link
    ∧ shareSheet index w = showQRCodeModal (js_or (field v "title") (VStr "樂譜")) link w.
Proof.
  intros Hsheet Hv Ht Hid. pose proof (truthy_nullish v Ht) as Hn.
  destruct (encode_share_succeeds (shareData_of v)) as [encoded Henc].
  unfold share_link.
  exists (if IS_GITHUB_PAGES w && truthy (field v "id") then
            origin (location w) +:+ pathname (location w) +:+ "#sheet-"
            +:+ ToString (field v "id")
          else (if IS_GITHUB_PAGES w
                then origin (location w) +:+ pathname (location w)
                else before_hash (href (location w))) +:+ "#share-" +:+ encoded).
  split.
  { destruct (IS_GITHUB_PAGES w && truthy (field v "id")); [done|by exists encoded]. }
  unfold shareSheet. rewrite run_bind.
  assert (Htarget : (match index with
                     | Some i => gets (λ w, allSheets w !! i)
                     | None => gets currentResult
                     end) w = (Ok (Some sheet), w)).
  { destruct index; unfold gets; by rewrite Hsheet. }
  rewrite Htarget. lazy beta iota.
  rewrite run_bind, (deref_run sheet v), Ht by done. cbn [negb].
  do 5 (rewrite run_bind, (prop_run _ _ _ _ Hv Hn)).
  rewrite run_bind. cbn [gets].
  rewrite run_bind, (prop_run _ _ _ _ Hv Hn).
  rewrite run_bind. cbn [gets].
  destruct (IS_GITHUB_PAGES w) eqn:Hpages, (truthy (field v "id")); cbn [andb].
  - rewrite run_assoc, run_bind, lift_ToString_run by auto. lazy beta iota.
    by rewrite run_ret_bind.
  - rewrite run_assoc, run_bind. unfold lift at 1.
    unfold shareData_of in Henc. rewrite Henc. by rewrite run_ret_bind.
  - rewrite run_assoc, run_bind. unfold lift at 1.
    unfold shareData_of in Henc. rewrite Henc. by rewrite run_ret_bind.
  - rewrite run_assoc, run_bind. unfold lift at 1.
    unfold shareData_of in Henc. rewrite Henc. by rewrite run_ret_bind.
Qed.

(** X11.  [shareSheet] shows, for the sheet asked for (the sheet of the
    library at [index], or the current result), its title and, on GitHub
    Pages, its id converting to strings, a modal with the link to it: on
    GitHub Pages and for a sheet with an id the short link [#sheet-<id>],
    otherwise the link that carries the encoded sheet, whose encoding
    never fails.  It changes nothing but the modal: the
    current result, the objects, the stored data and the log are as they
    were; [closeQRModal] hides the modal again.  When there is no such
    sheet the call does nothing. *)
Theorem shareSheet_shows_link index w :
  (∀ sheet v,
     has_els w qr_ids →
     match index with Some i => allSheets w !! i | None => currentResult w end = Some sheet →
     heap w !! sheet = Some v → truthy v = true →
     converts (field v "title") = true →
     (IS_GITHUB_PAGES w = true → converts (field v "id") = true) →
     ∃ w' link a, shareSheet index w = (Ok tt, w')
       ∧ share_link w v link
       ∧ document w' !! "qr-link" = Some a
       ∧ attrs a !! "href" = Some link ∧ attrs a !! "data-full-url" = Some link
       ∧ hidden w' "qr-modal" = Some false
       ∧ text_of w' "qr-title"
         = Some (DOMString_nullable (js_or (field v "title") (VStr "樂譜")))
       ∧ (∀ id, id ∉ qr_ids → document w' !! id = document w !! id)
       ∧ currentResult w' = currentResult w ∧ heap w' = heap w
       ∧ localStorage w' = localStorage w ∧ log w' = log w
       ∧ hidden (snd (closeQRModal w')) "qr-modal" = Some true)
  ∧ (match index with Some i => allSheets w !! i | None => currentResult w end = None →
     shareSheet index w = (Ok tt, w)).
Proof.
  split.
  - intros sheet v H Hsheet Hv Ht Htitle Hconv.
    destruct (shareSheet_run index sheet v w Hsheet Hv Ht Hconv) as (link & Hlink & ->).
    rewrite showQRCodeModal_run by (first [done | by apply converts_js_or]).
    unfold qr_ids in H. split_els.
    repeat match goal with Hx : has_el _ _ |- _ => destruct Hx as [? ?] end.
    eexists _, link, _. split; [reflexivity|]. split; [exact Hlink|].
    unfold hidden, text_of, closeQRModal.
    rewrite classList_add_run
      by (apply has_el_set_document; [apply keeps_els_qr|by eexists]).
    cbn [snd document set_document currentResult heap localStorage log].
    unfold qr_dom.
    split.
    { rewrite lookup_alter_ne by done. rewrite !lookup_alter_eq, !lookup_alter_ne by done.
      match goal with Hx : _ !! "qr-link" = Some _ |- _ => rewrite Hx end.
      reflexivity. }
    cbn [attrs set_attr_el set_textContent_el].
    split; [by rewrite lookup_insert_ne, lookup_insert_eq|].
    split; [by rewrite lookup_insert_eq|].
    split.
    { rewrite lookup_alter_eq, !lookup_alter_ne by done.
      match goal with Hx : _ !! "qr-modal" = Some _ |- _ => rewrite Hx end.
      cbn. f_equal. apply hidden_token_remove. }
    split.
    { rewrite !lookup_alter_ne by done. rewrite lookup_alter_eq.
      match goal with Hx : _ !! "qr-title" = Some _ |- _ => rewrite Hx end.
      reflexivity. }
    split.
    { intros id Hid. unfold qr_ids in Hid.
      repeat (apply not_elem_of_cons in Hid as [? Hid]).
      by rewrite !lookup_alter_ne. }
    do 4 (split; [reflexivity|]).
    rewrite !lookup_alter_eq, !lookup_alter_ne by done.
    match goal with Hx : _ !! "qr-modal" = Some _ |- _ => rewrite Hx end.
    cbn. f_equal. apply hidden_token_add.
  - intros Hnone. unfold shareSheet. rewrite run_bind.
    destruct index; unfold gets; by rewrite Hnone.
Qed.

Lemma shareSheet_shows_link_witness :
  let w := set_document (λ d, list_to_map ((λ id, (id, blank)) <$> qr_ids) ∪ d)
             (set_currentResult (Some 0%nat)
                (sample_world "" "" "chord_sheet" [sample_result])) in
  ∃ w' a encoded, shareSheet None w = (Ok tt, w')
    ∧ document w' !! "qr-link" = Some a
    ∧ attrs a !! "href" = Some ("http://localhost:8000/#share-" +:+ encoded)
    ∧ decode_share encoded = Ok (shareData_of sample_result).
Proof.
  intros w.
  destruct (shareSheet_shows_link None w) as [Hshown _].
  destruct (Hshown 0%nat sample_result)
    as (w' & link & a & Hrun & Hlink & Ha & Hhref & _).
  - unfold has_els. compute_done.
  - reflexivity.
  - reflexivity.
  - reflexivity.
  - reflexivity.
  - discriminate.
  - unfold share_link in Hlink.
    change (IS_GITHUB_PAGES w) with false in Hlink. cbn [andb] in Hlink.
    destruct Hlink as (encoded & Henc & ->).
    exists w', a, encoded. split; [exact Hrun|]. split; [exact Ha|]. split; [exact Hhref|].
    destruct (encode_decode_share
                [("title", field sample_result "title");
                 ("content", field sample_result "content");
                 ("tempo", field sample_result "tempo");
                 ("key", field sample_result "key");
                 ("output_type", field sample_result "output_type")])
      as (enc' & Henc' & _ & Hdec); [apply (bool_decide_unpack _); by vm_compute
                                    |repeat constructor|reflexivity|].
    unfold shareData_of, shareData in Henc. rewrite Henc in Henc'.
    injection Henc' as <-. exact Hdec.
Defined.

(** ** Favorites *)

Lemma get_prop_field f k : nullish f = false → get_prop f k = Ok (field f k).
Proof. intros H. unfold field. by destruct f. Qed.

Lemma find_id_run id favs :
  Forall (λ f, nullish f = false) favs →
  find_id id favs = Ok (default VUndef (List.find (has_id id) favs)).
Proof.
  induction 1 as [|f favs Hf _ IH]; [done|]. cbn [find_id List.find].
  rewrite get_prop_field by done. unfold has_id at 1.
  destruct (strict_equals (field f "id") id); [done|exact IH].
Qed.

Lemma filter_not_id_run id favs :
  Forall (λ f, nullish f = false) favs →
  filter_not_id id favs = Ok (List.filter (λ f, negb (has_id id f)) favs).
Proof.
  induction 1 as [|f favs Hf _ IH]; [done|]. cbn [filter_not_id List.filter].
  rewrite get_prop_field, IH by done. unfold has_id.
  by destruct (strict_equals (field f "id") id).
Qed.

Lemma toggleFavorite_run o w cur v favs :
  has_el w "fav-icon" → has_el w "toast" →
  currentResult w = Some cur → heap w !! cur = Some v → truthy v = true →
  JSON_parse (favorites_text w) = Ok (VArr favs) →
  Forall (λ f, nullish f = false) favs →
  toggleFavorite o w = (Ok tt, toggled v favs w).
Proof.
  intros Hicon Htoast Hcur Hv Ht Hp Hfavs.
  pose proof (truthy_nullish v Ht) as Hn.
  unfold toggleFavorite, toggled.
  rewrite run_bind. unfold gets at 1. lazy beta iota. rewrite Hcur.
  rewrite run_bind, (deref_run cur v), Ht by done. cbn [negb].
  rewrite run_bind. unfold getLocalFavorites.
  rewrite run_bind. unfold gets at 1. lazy beta iota. unfold lift at 1. rewrite Hp.
  lazy beta iota.
  rewrite run_bind, (prop_run cur "id" w v) by done. lazy beta iota.
  rewrite run_bind. unfold lift at 1. rewrite find_id_run by done. lazy beta iota zeta.
  set (found := default VUndef (List.find (has_id (field v "id")) favs)).
  assert (Hstatic : ∀ x, static_mode (add_effect (ESetTimeout 2500 ToastFadeOut) x)
                         = static_mode x) by done.
  destruct (truthy found) eqn:Hfound.
  - rewrite run_bind, run_bind. unfold lift at 1. rewrite filter_not_id_run by done.
    lazy beta iota. rewrite run_bind. unfold setItem, modify at 1. lazy beta iota.
    rewrite run_bind, set_textContent_run by (solve_has; reflexivity). lazy beta iota.
    rewrite showToast_run by solve_has. lazy beta iota.
    rewrite run_bind. unfold gets at 1. lazy beta iota.
    change (static_mode (add_effect _ (set_document _ (set_document _
             (set_localStorage _ w))))) with (static_mode w).
    destruct (static_mode w); [reflexivity|].
    unfold try_catch, favorite_request. rewrite run_bind. unfold gets at 1. lazy beta iota.
    cbn [negb]. rewrite run_bind. unfold lift at 1.
    destruct (ToString_checked (field v "id")) as [suffix|e]; [|reflexivity].
    lazy beta iota. rewrite run_bind. unfold fetch. by destruct o.
  - rewrite run_bind, run_bind. unfold setItem, modify at 1. lazy beta iota.
    rewrite run_bind, set_textContent_run by (solve_has; reflexivity). lazy beta iota.
    rewrite showToast_run by solve_has. lazy beta iota.
    rewrite run_bind. unfold gets at 1. lazy beta iota.
    change (static_mode (add_effect _ (set_document _ (set_document _
             (set_localStorage _ w))))) with (static_mode w).
    destruct (static_mode w); [reflexivity|].
    unfold try_catch, favorite_request. rewrite run_bind. unfold gets at 1. lazy beta iota.
    cbn [negb]. rewrite run_bind. unfold fetch. by destruct o.
Qed.

Lemma find_none {A} (p : A → bool) l :
  Forall (λ x, p x = false) l → List.find p l = None.
Proof. induction 1 as [|x l Hx _ IH]; [done|]. cbn. by rewrite Hx. Qed.

Lemma filter_all {A} (p : A → bool) l :
  Forall (λ x, p x = true) l → List.filter p l = l.
Proof. induction 1 as [|x l Hx _ IH]; [done|]. cbn. by rewrite Hx, IH. Qed.

Lemma toggled_observations v favs w icon t :
  document w !! "fav-icon" = Some icon → document w !! "toast" = Some t →
  let id := field v "id" in
  let removing := truthy (default VUndef (List.find (has_id id) favs)) in
  localStorage (toggled v favs w) !! "tab-finder-favorites"
  = Some (json_text (VArr (if removing then List.filter (λ f, negb (has_id id f)) favs
                           else v :: favs)))
  ∧ text_of (toggled v favs w) "fav-icon" = Some (if removing then "☆" else "⭐")
  ∧ text_of (toggled v favs w) "toast"
    = Some (if removing then "已取消收藏" else "⭐ 已加入收藏")
  ∧ fetches (toggled v favs w)
    = (fetches w ++ if static_mode w then []
                    else match favorite_request w id removing with
                         | Some request => [request]
                         | None => []
                         end)%list
  ∧ heap (toggled v favs w) = heap w
  ∧ currentResult (toggled v favs w) = currentResult w
  ∧ localStorage (toggled v favs w) !! "tab-finder-history"
    = localStorage w !! "tab-finder-history".
Proof.
  intros Hicon Htoast id removing. unfold toggled. fold id. fold removing.
  set (list := if removing then List.filter _ favs else v :: favs).
  set (shown := add_effect _ _).
  assert (Hshown :
    localStorage shown !! "tab-finder-favorites" = Some (json_text (VArr list))
    ∧ text_of shown "fav-icon" = Some (if removing then "☆" else "⭐")
    ∧ text_of shown "toast" = Some (if removing then "已取消收藏" else "⭐ 已加入收藏")
    ∧ fetches shown = fetches w
    ∧ heap shown = heap w ∧ currentResult shown = currentResult w
    ∧ localStorage shown !! "tab-finder-history" = localStorage w !! "tab-finder-history").
  { unfold shown, text_of.
    cbn [localStorage document heap currentResult add_effect set_document set_localStorage].
    split; [apply lookup_insert_eq|].
    split; [by rewrite toast_dom_ne, lookup_alter_eq, Hicon by done|].
    split.
    { edestruct (toast_dom_toast (if removing then "已取消收藏" else "⭐ 已加入收藏"))
        as (t' & -> & Ht1 & _); [by rewrite lookup_alter_ne|]. cbn. by rewrite Ht1. }
    split; [by rewrite fetches_add_effect|].
    split; [done|]. split; [done|]. by rewrite lookup_insert_ne. }
  destruct Hshown as (H1 & H2 & H3 & H4 & H5 & H6 & H7).
  destruct (static_mode w).
  { rewrite app_nil_r. by repeat split. }
  destruct (favorite_request w id removing) as [request|] eqn:Hreq.
  - assert (is_fetch request = true).
    { unfold favorite_request in Hreq. destruct removing.
      - destruct (ToString_checked id); by inversion Hreq.
      - by inversion Hreq. }
    repeat split; try done.
    unfold fetches in *. cbn [log add_effect]. rewrite filter_app, H4.
    f_equal. rewrite filter_cons_True by done. by rewrite filter_nil.
  - rewrite app_nil_r. by repeat split.
Qed.

(** X12.  for a current result whose id no stored favorite carries,
    [toggleFavorite] stores it at the head of the favorites, shows the
    full star and a toast, and reports it to the back end by one POST
    request, unless the page is served statically; whether that request
    succeeds or fails makes no difference.  The history, the objects and
    the current result are left as they were. *)
Theorem toggleFavorite_adds o w cur v favs :
  has_el w "fav-icon" → has_el w "toast" →
  currentResult w = Some cur → heap w !! cur = Some v → truthy v = true →
  JSON_parse (favorites_text w) = Ok (VArr favs) →
  Forall (λ f, nullish f = false ∧ has_id (field v "id") f = false) favs →
  ∃ w', toggleFavorite o w = (Ok tt, w')
    ∧ localStorage w' !! "tab-finder-favorites" = Some (json_text (VArr (v :: favs)))
    ∧ text_of w' "fav-icon" = Some "⭐"
    ∧ text_of w' "toast" = Some "⭐ 已加入收藏"
    ∧ fetches w'
      = (fetches w ++
         if static_mode w then []
         else [EFetch (API_BASE w +:+ "/api/favorites") "POST"
                      [("Content-Type", "application/json")]
                      (JSON_stringify (VObj [("record_id", field v "id")]))])%list
    ∧ heap w' = heap w ∧ currentResult w' = currentResult w
    ∧ localStorage w' !! "tab-finder-history" = localStorage w !! "tab-finder-history".
Proof.
  intros [icon Hicon] [t Htoast] Hcur Hv Ht Hp Hfavs.
  rewrite (toggleFavorite_run o w cur v favs); try done; try (by eexists).
  2:{ eapply Forall_impl; [exact Hfavs|]. by intros f [? _]. }
  eexists. split; [reflexivity|].
  pose proof (toggled_observations v favs w icon t Hicon Htoast) as Hobs.
  cbv zeta in Hobs.
  rewrite find_none in Hobs by (eapply Forall_impl; [exact Hfavs|]; by intros f [_ ?]).
  cbn [default truthy] in Hobs. unfold favorite_request in Hobs.
  destruct Hobs as (H1 & H2 & H3 & H4 & H5 & H6 & H7).
  by repeat split.
Qed.

Lemma toggleFavorite_adds_witness :
  let w := set_document (<["fav-icon" := blank]>)
             (set_currentResult (Some 0%nat)
                (sample_world "" "" "chord_sheet"
                   [VObj [("id", VStr "a1"); ("title", VStr "Song")]])) in
  ∃ w', toggleFavorite offline.(fetch_outcome) w = (Ok tt, w')
    ∧ localStorage w' !! "tab-finder-favorites"
      = Some (json_text (VArr [VObj [("id", VStr "a1"); ("title", VStr "Song")]])).
Proof.
  intros w.
  destruct (toggleFavorite_adds (fetch_outcome offline) w 0
              (VObj [("id", VStr "a1"); ("title", VStr "Song")]) [])
    as (w' & Hrun & Hstored & _).
  - unfold has_el. compute_done.
  - unfold has_el. compute_done.
  - reflexivity.
  - reflexivity.
  - reflexivity.
  - reflexivity.
  - constructor.
  - exists w'. split; [exact Hrun|exact Hstored].
Defined.

(** X13.  for a current result whose id a stored favorite carries,
    [toggleFavorite] removes every favorite with that id and keeps the
    others in their order, shows the empty star and a toast, and reports
    it by one DELETE request for that id, unless the page is served
    statically. *)
Theorem toggleFavorite_removes o w cur v favs f0 :
  has_el w "fav-icon" → has_el w "toast" →
  currentResult w = Some cur → heap w !! cur = Some v → truthy v = true →
  JSON_parse (favorites_text w) = Ok (VArr favs) →
  Forall (λ f, nullish f = false) favs →
  List.find (has_id (field v "id")) favs = Some f0 → truthy f0 = true →
  ∃ w' kept, toggleFavorite o w = (Ok tt, w')
    ∧ localStorage w' !! "tab-finder-favorites" = Some (json_text (VArr kept))
    ∧ kept = List.filter (λ f, negb (has_id (field v "id") f)) favs
    ∧ (∀ f, f ∈ kept ↔ f ∈ favs ∧ has_id (field v "id") f = false)
    ∧ text_of w' "fav-icon" = Some "☆"
    ∧ text_of w' "toast" = Some "已取消收藏"
    ∧ (∀ suffix, ToString_checked (field v "id") = Ok suffix →
       fetches w'
       = (fetches w ++
          if static_mode w then []
          else [EFetch (API_BASE w +:+ "/api/favorites/" +:+ suffix) "DELETE" [] None])%list)
    ∧ heap w' = heap w ∧ currentResult w' = currentResult w.
Proof.
  intros [icon Hicon] [t Htoast] Hcur Hv Ht Hp Hfavs Hfind Hf0.
  rewrite (toggleFavorite_run o w cur v favs); try done; try (by eexists).
  eexists _, _. split; [reflexivity|].
  pose proof (toggled_observations v favs w icon t Hicon Htoast) as Hobs.
  cbv zeta in Hobs. rewrite Hfind in Hobs.
  change (default VUndef (Some f0)) with f0 in Hobs. rewrite Hf0 in Hobs.
  destruct Hobs as (H1 & H2 & H3 & H4 & H5 & H6 & H7).
  split; [exact H1|]. split; [reflexivity|].
  split.
  { intros f. rewrite !list_elem_of_In, filter_In, negb_true_iff. done. }
  split; [exact H2|]. split; [exact H3|].
  split; [|by split].
  intros suffix Hs. rewrite H4. unfold favorite_request. by rewrite Hs.
Qed.

Lemma toggleFavorite_removes_witness :
  let v := VObj [("id", VStr "a1"); ("title", VStr "Song")] in
  let w := set_localStorage (<["tab-finder-favorites" := json_text (VArr [VNum 3; v])]>)
             (set_document (<["fav-icon" := blank]>)
                (set_currentResult (Some 0%nat)
                   (sample_world "" "" "chord_sheet" [v]))) in
  ∃ w', toggleFavorite offline.(fetch_outcome) w = (Ok tt, w')
    ∧ localStorage w' !! "tab-finder-favorites" = Some "[3]".
Proof.
  intros v w.
  destruct (toggleFavorite_removes (fetch_outcome offline) w 0 v [VNum 3; v] v)
    as (w' & kept & Hrun & Hstored & -> & _).
  - unfold has_el. compute_done.
  - unfold has_el. compute_done.
  - reflexivity.
  - reflexivity.
  - reflexivity.
  - vm_compute. reflexivity.
  - repeat constructor.
  - reflexivity.
  - reflexivity.
  - exists w'. split; [exact Hrun|]. rewrite Hstored. reflexivity.
Defined.

Lemma favorites_text_stored w l :
  localStorage w !! "tab-finder-favorites" = Some (json_text (VArr l)) →
  favorites_text w = json_text (VArr l).
Proof. intros H. unfold favorites_text. rewrite H. by rewrite json_text_arr. Qed.

Lemma text_of_has_el w id s : text_of w id = Some s → has_el w id.
Proof. unfold text_of, has_el. by destruct (document w !! id). Qed.

(** X14.  toggling twice is toggling not at all, as far as the favorites
    go.  For a current result that is a JSON value with a string, number
    or boolean id that no stored favorite carries, a second
    [toggleFavorite] undoes the first: the stored favorites parse to the
    list they were, and the star is empty again. *)
Theorem toggleFavorite_twice o1 o2 w cur v favs :
  has_el w "fav-icon" → has_el w "toast" →
  currentResult w = Some cur → heap w !! cur = Some v → truthy v = true →
  is_json v = true → has_id (field v "id") v = true →
  JSON_parse (favorites_text w) = Ok (VArr favs) →
  Forall (λ f, nullish f = false ∧ has_id (field v "id") f = false) favs →
  ∃ w1 w2, toggleFavorite o1 w = (Ok tt, w1)
    ∧ JSON_parse (favorites_text w1) = Ok (VArr (v :: favs))
    ∧ toggleFavorite o2 w1 = (Ok tt, w2)
    ∧ JSON_parse (favorites_text w2) = Ok (VArr favs)
    ∧ text_of w2 "fav-icon" = Some "☆".
Proof.
  intros Hi Ht Hcur Hv Htruthy Hjson Hid Hp Hfavs.
  assert (Hnn : Forall (λ f, nullish f = false) favs)
    by (eapply Forall_impl; [exact Hfavs|]; by intros f [? _]).
  assert (Hno : Forall (λ f, has_id (field v "id") f = false) favs)
    by (eapply Forall_impl; [exact Hfavs|]; by intros f [_ ?]).
  pose proof (JSON_parse_json _ _ Hp) as Hjfavs.
  assert (Hj1 : is_json (VArr (v :: favs)) = true)
    by (cbn [is_json forallb]; by rewrite Hjson).
  destruct Hi as [icon Hicon], Ht as [t Htoast].
  pose proof (toggled_observations v favs w icon t Hicon Htoast) as Hobs.
  cbv zeta in Hobs. rewrite (find_none _ _ Hno) in Hobs.
  change (truthy (default VUndef None)) with false in Hobs. cbv iota in Hobs.
  destruct Hobs as (Hstored & Hicon1 & Htoast1 & _ & Hheap1 & Hcur1 & _).
  set (w1 := toggled v favs w) in *.
  assert (Hp1 : JSON_parse (favorites_text w1) = Ok (VArr (v :: favs))).
  { rewrite (favorites_text_stored _ _ Hstored). by apply JSON_parse_stringify. }
  destruct (text_of_has_el _ _ _ Hicon1) as [icon1 Hi1].
  destruct (text_of_has_el _ _ _ Htoast1) as [t1 Ht1].
  pose proof (toggled_observations v (v :: favs) w1 icon1 t1 Hi1 Ht1) as Hobs2.
  cbv zeta in Hobs2. cbn [List.find List.filter] in Hobs2. rewrite Hid in Hobs2.
  change (default VUndef (Some v)) with v in Hobs2. rewrite Htruthy in Hobs2.
  cbn [negb] in Hobs2.
  rewrite filter_all in Hobs2
    by (eapply Forall_impl; [exact Hno|]; by intros f ->).
  destruct Hobs2 as (Hstored2 & Hicon2 & _).
  exists w1, (toggled v (v :: favs) w1).
  split; [apply (toggleFavorite_run o1 w cur v favs); try done; by eexists|].
  split; [exact Hp1|].
  split.
  { apply (toggleFavorite_run o2 w1 cur v (v :: favs)); try done; try (by eexists).
    - by rewrite Hcur1.
    - by rewrite Hheap1.
    - constructor; [by apply truthy_nullish|exact Hnn]. }
  split; [|exact Hicon2].
  rewrite (favorites_text_stored _ _ Hstored2). by apply JSON_parse_stringify.
Qed.

Lemma toggleFavorite_twice_witness :
  let v := VObj [("id", VStr "a1"); ("title", VStr "Song")] in
  let w := set_localStorage (<["tab-finder-favorites" := json_text (VArr [VObj [("id", VNum 7)]])]>)
             (set_document (<["fav-icon" := blank]>)
                (set_currentResult (Some 0%nat)
                   (sample_world "" "" "chord_sheet" [v]))) in
  ∃ w1 w2, toggleFavorite offline.(fetch_outcome) w = (Ok tt, w1)
    ∧ toggleFavorite offline.(fetch_outcome) w1 = (Ok tt, w2)
    ∧ JSON_parse (favorites_text w2) = Ok (VArr [VObj [("id", VNum 7)]]).
Proof.
  intros v w.
  destruct (toggleFavorite_twice (fetch_outcome offline) (fetch_outcome offline) w 0 v
              [VObj [("id", VNum 7)]])
    as (w1 & w2 & Hrun1 & _ & Hrun2 & Hp & _).
  - unfold has_el. compute_done.
  - unfold has_el. compute_done.
  - reflexivity.
  - reflexivity.
  - reflexivity.
  - reflexivity.
  - reflexivity.
  - vm_compute. reflexivity.
  - repeat constructor.
  - exists w1, w2. split; [exact Hrun1|]. split; [exact Hrun2|exact Hp].
Defined.

(** ** Escaping *)

Lemma strip_prefix_other p c r :
  match p with String a _ => a ≠ c | "" => False end →
  strip_prefix p (String c r) = None.
Proof.
  destruct p as [|a p]; [done|]. intros Hne. cbn [strip_prefix].
  by rewrite (proj2 (Ascii.eqb_neq a c)).
Qed.

Lemma unescape_escape n s fuel :
  (String.length s < n)%nat → (String.length (escape_text s) < fuel)%nat →
  unescape_text fuel (escape_text s) = s.
Proof.
  revert s fuel. induction n as [|n IH]; intros s fuel Hn Hfuel; [lia|].
  destruct s as [|c r]; [by destruct fuel|].
  cbn [String.length] in Hn. cbn [escape_text] in Hfuel |- *.
  destruct (Ascii.eqb_spec c "&") as [->|Hamp].
  { rewrite !string_app_cons, string_app_nil_l in Hfuel |- *.
    destruct fuel as [|fuel]; [cbn in Hfuel; lia|].
    cbn [unescape_text strip_prefix Ascii.eqb Bool.eqb]. cbv iota.
    f_equal. apply IH; [lia|]. cbn [String.length] in Hfuel. lia. }
  destruct (Ascii.eqb_spec c "<") as [->|Hlt].
  { rewrite !string_app_cons, string_app_nil_l in Hfuel |- *.
    destruct fuel as [|fuel]; [cbn in Hfuel; lia|].
    cbn [unescape_text strip_prefix Ascii.eqb Bool.eqb]. cbv iota.
    f_equal. apply IH; [lia|]. cbn [String.length] in Hfuel. lia. }
  destruct (Ascii.eqb_spec c ">") as [->|Hgt].
  { rewrite !string_app_cons, string_app_nil_l in Hfuel |- *.
    destruct fuel as [|fuel]; [cbn in Hfuel; lia|].
    cbn [unescape_text strip_prefix Ascii.eqb Bool.eqb]. cbv iota.
    f_equal. apply IH; [lia|]. cbn [String.length] in Hfuel. lia. }
  assert (Hplain : ∀ rest, unescape_text (S (Nat.pred fuel)) (String c rest)
                           = String c (unescape_text (Nat.pred fuel) rest)).
  { intros rest. cbn [unescape_text].
    rewrite !strip_prefix_other by (cbn; congruence). done. }
  destruct r as [|c2 r2].
  { destruct fuel as [|fuel]; [cbn in Hfuel; lia|].
    cbn [Nat.pred] in Hplain. rewrite Hplain. by destruct fuel. }
  case_bool_decide as Hnbsp.
  - rewrite !string_app_cons, string_app_nil_l in Hfuel |- *.
    destruct fuel as [|fuel]; [cbn in Hfuel; lia|].
    cbn [unescape_text strip_prefix Ascii.eqb Bool.eqb]. cbv iota.
    destruct Hnbsp as [Hc Hc2].
    assert (c = "194"%char) as ->
      by (rewrite <- (ascii_N_embedding c); unfold code in Hc; by rewrite Hc).
    assert (c2 = "160"%char) as ->
      by (rewrite <- (ascii_N_embedding c2); unfold code in Hc2; by rewrite Hc2).
    do 2 f_equal. apply IH; [cbn [String.length] in Hn; lia|].
    cbn [String.length] in Hfuel. lia.
  - destruct fuel as [|fuel]; [cbn in Hfuel; lia|].
    cbn [Nat.pred] in Hplain. rewrite Hplain. f_equal.
    apply IH; [lia|]. cbn [String.length] in Hfuel. lia.
Qed.

Lemma escape_text_chars s :
  Forall (λ c, c ≠ "<"%char ∧ c ≠ ">"%char) (list_ascii_of_string (escape_text s)).
Proof.
  assert (Haux : ∀ n s, (String.length s < n)%nat →
            Forall (λ c, c ≠ "<"%char ∧ c ≠ ">"%char)
                   (list_ascii_of_string (escape_text s))).
  { clear s. induction n as [|n IH]; intros s Hn; [lia|].
    destruct s as [|c r]; [constructor|].
    cbn [String.length] in Hn. cbn [escape_text].
    destruct (Ascii.eqb_spec c "&") as [->|Hamp].
    { rewrite !string_app_cons, string_app_nil_l. cbn [list_ascii_of_string].
      repeat (constructor; [done|]). apply IH. lia. }
    destruct (Ascii.eqb_spec c "<") as [->|Hlt].
    { rewrite !string_app_cons, string_app_nil_l. cbn [list_ascii_of_string].
      repeat (constructor; [done|]). apply IH. lia. }
    destruct (Ascii.eqb_spec c ">") as [->|Hgt].
    { rewrite !string_app_cons, string_app_nil_l. cbn [list_ascii_of_string].
      repeat (constructor; [done|]). apply IH. lia. }
    destruct r as [|c2 r2]; [by repeat constructor|].
    case_bool_decide.
    - rewrite !string_app_cons, string_app_nil_l. cbn [list_ascii_of_string].
      repeat (constructor; [done|]). apply IH. cbn [String.length] in Hn. lia.
    - cbn [list_ascii_of_string]. constructor; [done|]. apply IH. lia. }
  apply (Haux (S (String.length s))). lia.
Qed.

Lemma escapeHtml_chars str escaped :
  escapeHtml str = Ok escaped →
  Forall (λ c, c ≠ "<"%char ∧ c ≠ ">"%char) (list_ascii_of_string escaped).
Proof.
  unfold escapeHtml.
  destruct str; try (intros [= <-]; first [apply escape_text_chars | apply Forall_nil_2]);
    destruct (ToString_checked _); intros [= <-]; apply escape_text_chars.
Qed.

(** X15.  [escapeHtml] yields a text in which no tag can open or close: it
    holds neither [<] nor [>]; and it loses nothing: different texts are
    escaped differently.  It fails only on an object that cannot be
    converted to a string. *)
Theorem escapeHtml_safe str :
  (∀ escaped, escapeHtml str = Ok escaped →
     Forall (λ c, c ≠ "<"%char ∧ c ≠ ">"%char) (list_ascii_of_string escaped))
  ∧ (∀ s1 s2, escapeHtml (VStr s1) = escapeHtml (VStr s2) → s1 = s2)
  ∧ (∀ s, escapeHtml (VStr s) = Ok (escape_text s))
  ∧ (∀ e, escapeHtml str = Throw e → ToString_checked str = Throw e).
Proof.
  split; [|split; [|split]].
  - intros escaped. apply escapeHtml_chars.
  - intros s1 s2. unfold escapeHtml. cbn [ToString_checked ToString]. intros [= Heq].
    rewrite <- (unescape_escape (S (String.length s1)) s1
                  (S (String.length (escape_text s1)))) by lia.
    rewrite <- (unescape_escape (S (String.length s2)) s2
                  (S (String.length (escape_text s1)))) by (rewrite ?Heq; lia).
    by rewrite Heq.
  - done.
  - intros e. unfold escapeHtml.
    destruct str; try discriminate; by destruct (ToString_checked _).
Qed.

Lemma escapeHtml_safe_witness :
  escapeHtml (VStr "<b>Tom & Jerry</b>") = Ok "&lt;b&gt;Tom &amp; Jerry&lt;/b&gt;"
  ∧ Forall (λ c, c ≠ "<"%char ∧ c ≠ ">"%char)
           (list_ascii_of_string "&lt;b&gt;Tom &amp; Jerry&lt;/b&gt;").
Proof.
  destruct (escapeHtml_safe (VStr "<b>Tom & Jerry</b>")) as (Hsafe & _ & Hrun & _).
  split; [by rewrite Hrun|]. apply Hsafe. by rewrite Hrun.
Defined.

(** ** Dates *)

Lemma pad2_length n : (0 ≤ n < 100)%Z → String.length (pad2 n) = 2%nat.
Proof.
  intros Hn.
  assert (Hall : forallb (λ k, Nat.eqb (String.length (pad2 (Z.of_nat k))) 2) (seq 0 100)
                 = true) by (vm_compute; reflexivity).
  rewrite forallb_forall in Hall.
  specialize (Hall (Z.to_nat n)). rewrite Z2Nat.id in Hall by lia.
  apply Nat.eqb_eq, Hall, in_seq. lia.
Qed.

(** X16.  [formatDate] yields the empty text for a missing date, the text
    [NaN/NaN NaN:NaN] for a value that is not a date, and for a date the
    eleven characters of [MM/DD HH:mm], each number on two digits, where
    [MM] is the month counted from 1. *)
Theorem formatDate_shape clock isoStr :
  (truthy isoStr = false → formatDate clock isoStr = Ok "")
  ∧ (truthy isoStr = true → clock isoStr = Ok None →
     formatDate clock isoStr = Ok "NaN/NaN NaN:NaN")
  ∧ (∀ d, truthy isoStr = true → clock isoStr = Ok (Some d) →
       (0 ≤ getMonth d ≤ 11)%Z → (1 ≤ getDate d ≤ 31)%Z →
       (0 ≤ getHours d ≤ 23)%Z → (0 ≤ getMinutes d ≤ 59)%Z →
       ∃ month day hours minutes,
         formatDate clock isoStr
         = Ok (month +:+ "/" +:+ day +:+ " " +:+ hours +:+ ":" +:+ minutes)
         ∧ String.length month = 2%nat ∧ String.length day = 2%nat
         ∧ String.length hours = 2%nat ∧ String.length minutes = 2%nat
         ∧ month = pad2 (getMonth d + 1) ∧ day = pad2 (getDate d)
         ∧ hours = pad2 (getHours d) ∧ minutes = pad2 (getMinutes d)).
Proof.
  unfold formatDate. split; [by intros ->|]. split; [by intros -> ->|].
  intros d -> -> Hmonth Hday Hhours Hminutes. cbn [negb].
  eexists _, _, _, _. split; [reflexivity|].
  repeat split; apply pad2_length; lia.
Qed.

Lemma formatDate_shape_witness :
  let clock : Clock := λ _, Ok (Some (mkLocalTime 0 5 9 3)) in
  formatDate clock (VStr "2024-01-05T09:03:00") = Ok "01/05 09:03".
Proof.
  intros clock.
  destruct (formatDate_shape clock (VStr "2024-01-05T09:03:00")) as (_ & _ & Hdate).
  destruct (Hdate (mkLocalTime 0 5 9 3))
    as (month & day & hours & minutes & -> & _ & _ & _ & _ & -> & -> & -> & ->);
    try reflexivity; cbn; lia.
Defined.

(** ** Rendering a list of records *)

Lemma replace_apostrophes_chars s :
  Forall (λ c, c ≠ "'"%char) (list_ascii_of_string (replace_apostrophes s)).
Proof.
  induction s as [|c s IH]; [constructor|]. cbn [replace_apostrophes].
  destruct (Ascii.eqb_spec c "'") as [->|Hne].
  - rewrite !string_app_cons, string_app_nil_l. cbn [list_ascii_of_string].
    by repeat (constructor; [done|]).
  - cbn [list_ascii_of_string]. by constructor.
Qed.

Lemma set_innerHTML_run read id markup w :
  has_el w id →
  set_innerHTML read id markup w
  = (Ok tt, set_document (alter (written read markup) id) w).
Proof. apply update_el_run. Qed.

Lemma innerHTML_written read id markup w :
  has_el w id →
  innerHTML (set_document (alter (written read markup) id) w) id = Some markup.
Proof.
  intros [el Hel]. unfold innerHTML. cbn [document set_document].
  rewrite lookup_alter_eq, Hel. cbn. apply lookup_insert_eq.
Qed.

Lemma text_written read id markup w :
  has_el w id →
  text_of (set_document (alter (written read markup) id) w) id = Some (read markup).
Proof.
  intros [el Hel]. unfold text_of. cbn [document set_document].
  by rewrite lookup_alter_eq, Hel.
Qed.

Lemma record_cards_length clock l cards :
  record_cards clock l = Ok cards → length cards = length l.
Proof.
  revert cards. induction l as [|r l IH]; intros cards; cbn [record_cards].
  - by intros [= <-].
  - destruct (record_card clock r); [|done].
    destruct (record_cards clock l) as [cs|]; [|done].
    intros [= <-]. cbn. f_equal. by apply IH.
Qed.

Lemma record_cards_lookup clock l cards i r :
  record_cards clock l = Ok cards → l !! i = Some r →
  ∃ card, cards !! i = Some card ∧ record_card clock r = Ok card.
Proof.
  revert cards i. induction l as [|r0 l IH]; intros cards i; cbn [record_cards]; [done|].
  destruct (record_card clock r0) as [c0|] eqn:Hc0; [|done].
  destruct (record_cards clock l) as [cs|]; [|done].
  intros [= <-]. destruct i as [|i]; cbn.
  - intros [= <-]. by exists c0.
  - intros Hi. by apply IH.
Qed.

Lemma record_card_parts clock record card :
  record_card clock record = Ok card →
  ∃ text title date label tempo,
    card = card_markup (replace_apostrophes text) title date label tempo
    ∧ JSON_stringify record = Some text
    ∧ escapeHtml (js_or (field record "title") (VStr "未知歌曲")) = Ok title
    ∧ formatDate clock (field record "created_at") = Ok date.
Proof.
  unfold record_card.
  destruct (JSON_stringify record) as [text|]; [|done].
  destruct (get_prop record "title") as [title|] eqn:Htitle; [|done].
  assert (field record "title" = title) as <- by (unfold field; by rewrite Htitle).
  destruct (escapeHtml _) as [shown|] eqn:Hshown; [|done].
  destruct (formatDate _ _) as [date|]; [|done].
  destruct (ToString_checked (field record "output_type")) as [type|]; [|done].
  destruct (ToString_checked (js_or _ _)) as [label|]; [|done].
  destruct (ToString_checked (js_or _ _)) as [tempo|]; [|done].
  intros [= <-]. by eexists _, _, _, _, _.
Qed.

Lemma renderRecordList_empty_run clock read id records isFavorites w :
  has_el w id → truthy records = false ∨ records = VArr [] →
  renderRecordList clock read id records isFavorites w
  = (Ok tt, set_document (alter (written read (empty_state isFavorites)) id) w).
Proof.
  intros Hel Hempty. unfold renderRecordList.
  assert (negb (truthy records) || strict_equals (length_of records) (VNum 0) = true) as ->.
  { destruct Hempty as [->| ->]; [done|]. reflexivity. }
  by rewrite set_innerHTML_run.
Qed.

Lemma renderRecordList_cards_run clock read id r l cards isFavorites w :
  has_el w id → record_cards clock (r :: l) = Ok cards →
  renderRecordList clock read id (VArr (r :: l)) isFavorites w
  = (Ok tt, set_document (alter (written read (join "" cards)) id) w).
Proof.
  intros Hel Hcards. unfold renderRecordList.
  change (negb (truthy (VArr (r :: l)))
          || strict_equals (length_of (VArr (r :: l))) (VNum 0)) with false.
  cbv iota. rewrite run_bind. unfold lift at 1. rewrite Hcards. lazy beta iota.
  by rewrite set_innerHTML_run.
Qed.

(** X17.  [renderRecordList] writes, for a missing or empty list, the
    block that says so, in the wording of the favorites or of the
    history; for a list of records, one card per record, in order.  In a
    card the text of the record, which stands between apostrophes, holds
    no apostrophe, and the title holds neither [<] nor [>].  The text of
    the container is then what the browser reads off that markup.  When
    a card cannot be made the exception leaves the list on the page as
    it was. *)
Theorem renderRecordList_markup clock read id records isFavorites w :
  has_el w id →
  (truthy records = false ∨ records = VArr [] →
   ∃ w', renderRecordList clock read id records isFavorites w = (Ok tt, w')
     ∧ innerHTML w' id = Some (empty_state isFavorites)
     ∧ text_of w' id = Some (read (empty_state isFavorites)))
  ∧ (∀ r l cards, records = VArr (r :: l) → record_cards clock (r :: l) = Ok cards →
       ∃ w', renderRecordList clock read id records isFavorites w = (Ok tt, w')
         ∧ innerHTML w' id = Some (join "" cards)
         ∧ length cards = S (length l)
         ∧ text_of w' id = Some (read (join "" cards))
         ∧ ∀ i record, (r :: l) !! i = Some record →
             ∃ text title date label tempo,
               cards !! i
               = Some (card_markup (replace_apostrophes text) title date label tempo)
               ∧ JSON_stringify record = Some text
               ∧ Forall (λ c, c ≠ "'"%char)
                        (list_ascii_of_string (replace_apostrophes text))
               ∧ Forall (λ c, c ≠ "<"%char ∧ c ≠ ">"%char) (list_ascii_of_string title))
  ∧ (∀ r l e, records = VArr (r :: l) → record_cards clock (r :: l) = Throw e →
       renderRecordList clock read id records isFavorites w = (Throw e, w)).
Proof.
  intros Hel. split; [|split].
  - intros Hempty. rewrite renderRecordList_empty_run by done.
    eexists. split; [reflexivity|].
    split; [by apply innerHTML_written|by apply text_written].
  - intros r l cards -> Hcards. rewrite (renderRecordList_cards_run _ _ _ _ _ cards) by done.
    eexists. split; [reflexivity|].
    split; [by apply innerHTML_written|].
    split; [by rewrite (record_cards_length _ _ _ Hcards)|].
    split; [by apply text_written|].
    intros i record Hi.
    destruct (record_cards_lookup _ _ _ i record Hcards Hi) as (card & Hcard & Hmade).
    destruct (record_card_parts _ _ _ Hmade)
      as (text & title & date & label & tempo & -> & Htext & Htitle & _).
    exists text, title, date, label, tempo.
    split; [exact Hcard|]. split; [exact Htext|].
    split; [apply replace_apostrophes_chars|].
    exact (escapeHtml_chars _ _ Htitle).
  - intros r l e -> Hcards. unfold renderRecordList.
    change (negb (truthy (VArr (r :: l)))
            || strict_equals (length_of (VArr (r :: l))) (VNum 0)) with false.
    cbv iota. rewrite run_bind. unfold lift at 1. by rewrite Hcards.
Qed.

Lemma renderRecordList_markup_witness :
  let w := set_document (<["history-list" := blank]>) (sample_world "" "" "chord_sheet" []) in
  let clock : Clock := λ _, Ok None in
  let read : Markup := λ _, "" in
  ∃ w' cards,
    renderRecordList clock read "history-list" (VArr [sample_result]) false w = (Ok tt, w')
    ∧ innerHTML w' "history-list" = Some (join "" cards) ∧ length cards = 1%nat.
Proof.
  intros w clock read.
  destruct (renderRecordList_markup clock read "history-list" (VArr [sample_result]) false w)
    as (_ & Hcards & _).
  - unfold has_el. compute_done.
  - edestruct (Hcards sample_result []) as (w' & Hrun & Hhtml & Hlen & _).
    + reflexivity.
    + vm_compute. reflexivity.
    + eexists w', _. split; [exact Hrun|]. split; [exact Hhtml|exact Hlen].
Defined.

(** ** The history and the favorites tabs *)

Lemma fetch_records_run url o w :
  fetch_records url o w
  = match o with
    | FetchRejected e => (Throw e, add_effect (EFetch url "GET" [] None) w)
    | FetchResponse true (BodyJson v) => (Ok v, add_effect (EFetch url "GET" [] None) w)
    | FetchResponse true (BodyInvalid e) => (Throw e, add_effect (EFetch url "GET" [] None) w)
    | FetchResponse false _ => (Ok (VArr []), add_effect (EFetch url "GET" [] None) w)
    end.
Proof. unfold fetch_records, fetch. rewrite run_bind. by destruct o as [e|[] [v|e]]. Qed.

Lemma loadHistory_run clock read o w :
  loadHistory clock read o w
  = if static_mode w then
      renderRecordList clock read "history-list"
        (VArr ((λ l, default VUndef (heap w !! l)) <$> allSheets w)) false w
    else
      let w' := add_effect (EFetch (API_BASE w +:+ "/api/history") "GET" [] None) w in
      match answered_records o (JSON_parse (history_text w)) with
      | Ok records => renderRecordList clock read "history-list" records false w'
      | Throw e => (Throw e, w')
      end.
Proof.
  unfold loadHistory. rewrite run_bind. unfold gets at 1. lazy beta iota.
  destruct (static_mode w); [reflexivity|].
  rewrite run_bind. unfold try_catch. rewrite run_bind. unfold gets at 1. lazy beta iota.
  rewrite fetch_records_run. unfold local_history.
  destruct o as [e|[] [v|e]]; try reflexivity;
    (rewrite run_bind; unfold gets at 1, lift; lazy beta iota; cbn [answered_records];
     change (history_text (add_effect _ w)) with (history_text w);
     by destruct (JSON_parse (history_text w))).
Qed.

Lemma loadFavorites_run clock read o w :
  loadFavorites clock read o w
  = if static_mode w then
      match JSON_parse (favorites_text w) with
      | Ok records => renderRecordList clock read "favorites-list" records true w
      | Throw e => (Throw e, w)
      end
    else
      let w' := add_effect (EFetch (API_BASE w +:+ "/api/favorites") "GET" [] None) w in
      match answered_records o (JSON_parse (favorites_text w)) with
      | Ok records => renderRecordList clock read "favorites-list" records true w'
      | Throw e => (Throw e, w')
      end.
Proof.
  unfold loadFavorites. rewrite run_bind. unfold gets at 1. lazy beta iota.
  destruct (static_mode w).
  - rewrite run_bind. unfold getLocalFavorites. rewrite run_bind.
    unfold gets at 1, lift. lazy beta iota. by destruct (JSON_parse (favorites_text w)).
  - rewrite run_bind. unfold try_catch. rewrite run_bind. unfold gets at 1. lazy beta iota.
    rewrite fetch_records_run. unfold getLocalFavorites.
    destruct o as [e|[] [v|e]]; try reflexivity;
      (rewrite run_bind; unfold gets at 1, lift; lazy beta iota; cbn [answered_records];
       change (favorites_text (add_effect _ w)) with (favorites_text w);
       by destruct (JSON_parse (favorites_text w))).
Qed.

(** X18.  When the back end answers the request for the history with a
    status that is not ok, [loadHistory] shows the block for an empty
    history, whatever the local history holds: the local history is the
    fallback of a request that fails, not of one that is refused.  One
    GET request is sent and nothing is stored. *)
Theorem loadHistory_refused clock read body w :
  has_el w "history-list" → static_mode w = false →
  ∃ w', loadHistory clock read (FetchResponse false body) w = (Ok tt, w')
    ∧ innerHTML w' "history-list" = Some (empty_state false)
    ∧ fetches w' = (fetches w ++ [EFetch (API_BASE w +:+ "/api/history") "GET" [] None])%list
    ∧ localStorage w' = localStorage w
    ∧ currentResult w' = currentResult w.
Proof.
  intros Hel Hstatic. rewrite loadHistory_run, Hstatic. cbn [answered_records]. lazy zeta.
  set (w1 := add_effect _ w).
  rewrite renderRecordList_empty_run by (done || by right).
  eexists. split; [reflexivity|]. split; [by apply innerHTML_written|].
  split; [|done]. unfold fetches, w1. cbn [log add_effect set_document].
  rewrite filter_app. f_equal.
Qed.

Lemma loadHistory_refused_witness :
  let w := set_localStorage (<["tab-finder-history" := json_text (VArr [sample_result])]>)
             (set_document (<["history-list" := blank]>)
                (sample_world "" "" "chord_sheet" [])) in
  ∃ w', loadHistory (λ _, Ok None) (λ _, "") (FetchResponse false (BodyJson VNull)) w
        = (Ok tt, w')
    ∧ innerHTML w' "history-list" = Some (empty_state false).
Proof.
  intros w.
  destruct (loadHistory_refused (λ _, Ok None) (λ _, "") (BodyJson VNull) w)
    as (w' & Hrun & Hhtml & _).
  - unfold has_el. compute_done.
  - reflexivity.
  - exists w'. split; [exact Hrun|exact Hhtml].
Defined.

(** X19.  What [saveToLocalHistory] stores is what the history tab shows
    when the back end cannot be reached: after a record is saved,
    [loadHistory], its request failing, renders the stored list, the card
    of the record first. *)
Theorem saved_history_shown clock read err record v h cards w :
  has_el w "history-list" → static_mode w = false →
  heap w !! record = Some v → is_json v = true →
  JSON_parse (history_text w) = Ok (VArr h) →
  record_cards clock (take 50 (v :: h)) = Ok cards →
  ∃ w' card rest,
    (saveToLocalHistory record ;; loadHistory clock read (FetchRejected err)) w = (Ok tt, w')
    ∧ innerHTML w' "history-list" = Some (join "" cards)
    ∧ cards = card :: rest ∧ record_card clock v = Ok card
    ∧ length cards = length (take 50 (v :: h)).
Proof.
  intros Hel Hstatic Hv Hjson Hp Hcards.
  rewrite run_bind, (saveToLocalHistory_run record h) by done. lazy beta iota.
  rewrite Hv. cbn [default].
  change (default "undefined" (JSON_stringify (VArr ?l))) with (json_text (VArr l)).
  set (w1 := set_localStorage _ w).
  assert (Htext : history_text w1 = json_text (VArr (take 50 (v :: h))))
    by apply history_text_stored.
  rewrite loadHistory_run.
  change (static_mode w1) with (static_mode w). rewrite Hstatic.
  cbn [answered_records]. lazy zeta. rewrite Htext.
  assert (Hj : is_json (VArr (take 50 (v :: h))) = true).
  { apply is_json_take. cbn [is_json forallb]. rewrite Hjson.
    exact (JSON_parse_json _ _ Hp). }
  rewrite (JSON_parse_stringify _ Hj).
  set (w2 := add_effect _ w1).
  destruct (take 50 (v :: h)) as [|r l] eqn:Htake; [done|].
  assert (r = v) as -> by (cbn in Htake; congruence).
  rewrite (renderRecordList_cards_run _ _ _ _ _ cards) by done.
  pose proof (record_cards_length _ _ _ Hcards) as Hlen.
  cbn [record_cards] in Hcards.
  destruct (record_card clock v) as [card|]; [|done].
  destruct (record_cards clock l) as [rest|]; [|done].
  injection Hcards as <-.
  eexists _, card, rest. split; [reflexivity|]. split; [by apply innerHTML_written|].
  split; [done|]. split; [done|]. exact Hlen.
Qed.

Lemma saved_history_shown_witness :
  let w := set_document (<["history-list" := blank]>)
             (sample_world "" "" "chord_sheet" [sample_result]) in
  ∃ w' cards,
    (saveToLocalHistory 0 ;; loadHistory (λ _, Ok None) (λ _, "")
                               (FetchRejected (Error "TypeError" "Failed to fetch"))) w
    = (Ok tt, w')
    ∧ innerHTML w' "history-list" = Some (join "" cards)
    ∧ length cards = 1%nat.
Proof.
  intros w.
  assert (Hel : has_el w "history-list") by (unfold has_el; compute_done).
  eassert (Hcards : record_cards (λ _, Ok None) (take 50 [sample_result]) = Ok _)
    by (vm_compute; reflexivity).
  destruct (saved_history_shown (λ _, Ok None) (λ _, "")
              (Error "TypeError" "Failed to fetch")
              0 sample_result [] _ w Hel eq_refl eq_refl eq_refl eq_refl Hcards)
    as (w' & card & rest & Hrun & Hhtml & _ & _ & Hlen).
  eexists w', _. split; [exact Hrun|]. split; [exact Hhtml|exact Hlen].
Defined.

Lemma toggled_frame v favs w :
  static_mode (toggled v favs w) = static_mode w
  ∧ (∀ id, has_el (toggled v favs w) id ↔ has_el w id).
Proof.
  unfold toggled.
  set (shown := add_effect _ _).
  assert (Hshown : static_mode shown = static_mode w ∧ ∀ id, has_el shown id ↔ has_el w id).
  { split; [done|]. intros id. unfold shown.
    rewrite has_el_add_effect, !has_el_set_document by auto with page.
    apply has_el_set_localStorage. }
  destruct (static_mode w); [exact Hshown|].
  by destruct (favorite_request _ _ _).
Qed.

(** X20.  On the static site the favorites live in the browser alone.  For
    a current result that is not among them, [toggleFavorite] followed by
    [loadFavorites] shows the stored favorites, the card of that result
    first, and no request is sent by either. *)
Theorem favorite_shown_static clock read o1 o2 w cur v favs cards :
  has_el w "fav-icon" → has_el w "toast" → has_el w "favorites-list" →
  static_mode w = true →
  currentResult w = Some cur → heap w !! cur = Some v → truthy v = true →
  is_json v = true →
  JSON_parse (favorites_text w) = Ok (VArr favs) →
  Forall (λ f, nullish f = false ∧ has_id (field v "id") f = false) favs →
  record_cards clock (v :: favs) = Ok cards →
  ∃ w' card rest,
    (toggleFavorite o1 ;; loadFavorites clock read o2) w = (Ok tt, w')
    ∧ innerHTML w' "favorites-list" = Some (join "" cards)
    ∧ cards = card :: rest ∧ record_card clock v = Ok card
    ∧ fetches w' = fetches w.
Proof.
  intros Hi Ht Hl Hstatic Hcur Hv Htruthy Hjson Hp Hfavs Hcards.
  assert (Hnn : Forall (λ f, nullish f = false) favs)
    by (eapply Forall_impl; [exact Hfavs|]; by intros f [? _]).
  assert (Hno : Forall (λ f, has_id (field v "id") f = false) favs)
    by (eapply Forall_impl; [exact Hfavs|]; by intros f [_ ?]).
  rewrite run_bind, (toggleFavorite_run o1 w cur v favs) by done. lazy beta iota.
  destruct Hi as [icon Hicon], Ht as [t Htoast].
  pose proof (toggled_observations v favs w icon t Hicon Htoast) as Hobs.
  cbv zeta in Hobs. rewrite (find_none _ _ Hno) in Hobs.
  change (truthy (default VUndef None)) with false in Hobs. cbv iota in Hobs.
  rewrite Hstatic, app_nil_r in Hobs.
  destruct Hobs as (Hstored & _ & _ & Hfetches & _).
  destruct (toggled_frame v favs w) as [Hs1 Hels].
  set (w1 := toggled v favs w) in *.
  rewrite loadFavorites_run, Hs1, Hstatic.
  rewrite (favorites_text_stored _ _ Hstored).
  rewrite JSON_parse_stringify
    by (cbn [is_json forallb]; rewrite Hjson; exact (JSON_parse_json _ _ Hp)).
  assert (Hl1 : has_el w1 "favorites-list") by (by apply Hels).
  rewrite (renderRecordList_cards_run _ _ _ _ _ cards) by done.
  cbn [record_cards] in Hcards.
  destruct (record_card clock v) as [card|]; [|done].
  destruct (record_cards clock favs) as [rest|]; [|done].
  injection Hcards as <-.
  eexists _, card, rest. split; [reflexivity|]. split; [by apply innerHTML_written|].
  split; [done|]. split; [done|]. exact Hfetches.
Qed.

Lemma favorite_shown_static_witness :
  let v := VObj [("id", VStr "a1"); ("title", VStr "Song")] in
  let w := set_location (mkLocation "https://me.github.io" "me.github.io" "/tabs/"
                           "https://me.github.io/tabs/" "")
             (set_document (λ d, <["fav-icon" := blank]> (<["favorites-list" := blank]> d))
                (set_currentResult (Some 0%nat)
                   (sample_world "" "" "chord_sheet" [v]))) in
  ∃ w' cards,
    (toggleFavorite offline.(fetch_outcome) ;;
     loadFavorites (λ _, Ok None) (λ _, "") offline.(fetch_outcome)) w = (Ok tt, w')
    ∧ innerHTML w' "favorites-list" = Some (join "" cards)
    ∧ fetches w' = [].
Proof.
  intros v w.
  assert (H1 : has_el w "fav-icon") by (unfold has_el; compute_done).
  assert (H2 : has_el w "toast") by (unfold has_el; compute_done).
  assert (H3 : has_el w "favorites-list") by (unfold has_el; compute_done).
  eassert (Hcards : record_cards (λ _, Ok None) [v] = Ok _) by (vm_compute; reflexivity).
  destruct (favorite_shown_static (λ _, Ok None) (λ _, "") (fetch_outcome offline)
              (fetch_outcome offline) w 0 v [] _ H1 H2 H3 eq_refl eq_refl eq_refl
              eq_refl eq_refl eq_refl (Forall_nil_2 _) Hcards)
    as (w' & card & rest & Hrun & Hhtml & _ & _ & Hfetches).
  eexists w', _. split; [exact Hrun|]. split; [exact Hhtml|exact Hfetches].
Defined.

(** ** Tabs *)

Lemma elem_of_token_force c force x l :
  x ∈ token_force c force l ↔ (x = c ∧ force = true) ∨ (x ≠ c ∧ x ∈ l).
Proof.
  unfold token_force. destruct force.
  - rewrite elem_of_token_add. destruct (decide (x = c)); intuition congruence.
  - rewrite elem_of_token_remove. intuition congruence.
Qed.

Lemma tab_el_classes tabName handle el :
  ("nav-tab" ∈ classList el → "tab-content" ∉ classList el →
   ("active" ∈ classList (tab_el tabName handle el)
    ↔ attrs el !! "data-tab" = Some tabName))
  ∧ ("tab-content" ∈ classList el →
     ("active" ∈ classList (tab_el tabName handle el)
      ↔ id_of handle = "tab-" +:+ tabName))
  ∧ ("nav-tab" ∉ classList el → "tab-content" ∉ classList el →
     tab_el tabName handle el = el)
  ∧ (∀ c, c ≠ "active" → c ∈ classList (tab_el tabName handle el) ↔ c ∈ classList el)
  ∧ textContent (tab_el tabName handle el) = textContent el
  ∧ attrs (tab_el tabName handle el) = attrs el.
Proof.
  unfold tab_el.
  destruct (decide ("nav-tab" ∈ classList el)) as [Hnav|Hnav];
    [rewrite (bool_decide_eq_true_2 _ Hnav)|rewrite (bool_decide_eq_false_2 _ Hnav)];
    cbv zeta.
  - cbn [classList set_classList_el].
    assert (Hkeep : "tab-content" ∈ token_force "active"
                      (bool_decide (attrs el !! "data-tab" = Some tabName)) (classList el)
                    ↔ "tab-content" ∈ classList el).
    { rewrite elem_of_token_force. intuition congruence. }
    destruct (decide ("tab-content" ∈ classList el)) as [Htab|Htab].
    + rewrite bool_decide_eq_true_2 by (by apply Hkeep).
      cbn [classList set_classList_el textContent attrs].
      split; [done|]. split.
      { intros _. rewrite elem_of_token_force. split.
        - intros [[_ Heq]|[? _]]; [by apply String.eqb_eq|done].
        - intros Heq. left. split; [done|by apply String.eqb_eq]. }
      split; [done|]. split; [|done].
      intros c Hc. rewrite !elem_of_token_force. intuition congruence.
    + rewrite bool_decide_eq_false_2 by (by rewrite Hkeep).
      cbn [classList set_classList_el textContent attrs].
      split.
      { intros _ _. rewrite elem_of_token_force. split.
        - intros [[_ Heq]|[? _]]; [by apply bool_decide_eq_true in Heq|done].
        - intros Heq. left. split; [done|by apply bool_decide_eq_true]. }
      split; [done|]. split; [done|]. split; [|done].
      intros c Hc. rewrite !elem_of_token_force. intuition congruence.
  - destruct (decide ("tab-content" ∈ classList el)) as [Htab|Htab];
      [rewrite (bool_decide_eq_true_2 _ Htab)|rewrite (bool_decide_eq_false_2 _ Htab)].
    + cbn [classList set_classList_el textContent attrs].
      split; [done|]. split.
      { intros _. rewrite elem_of_token_force. split.
        - intros [[_ Heq]|[? _]]; [by apply String.eqb_eq|done].
        - intros Heq. left. split; [done|by apply String.eqb_eq]. }
      split; [done|]. split; [|done].
      intros c Hc. rewrite !elem_of_token_force. intuition congruence.
    + split; [done|]. split; [done|]. split; [done|]. by split.
Qed.

Lemma switchTab_loops clock read o tabName w :
  switchTab clock read o tabName w
  = ((if String.eqb tabName "history"
      then try_catch (loadHistory clock read o) (λ _, mret tt) else mret tt) ;;
     (if String.eqb tabName "favorites"
      then try_catch (loadFavorites clock read o) (λ _, mret tt) else mret tt))
      (set_document (map_imap (λ handle el, Some (tab_el tabName handle el))) w).
Proof.
  unfold switchTab. rewrite run_bind. unfold modify at 1. lazy beta iota.
  rewrite run_bind. unfold modify at 1. lazy beta iota.
  f_equal. unfold set_document. cbn. f_equal.
  apply map_eq. intros handle. rewrite !map_lookup_imap, lookup_fmap.
  by destruct (document w !! handle).
Qed.

Lemma outside_lists_written read markup id w :
  id ∈ list_ids →
  outside_lists (set_document (alter (written read markup) id) w) = outside_lists w.
Proof.
  intros Hid. unfold outside_lists.
  cbn [document heap currentResult localStorage set_document].
  do 3 f_equal. f_equal.
  - apply map_eq. intros h. rewrite !lookup_fmap.
    destruct (decide (id = h)) as [->|Hne].
    + rewrite lookup_alter_eq. by destruct (document w !! h).
    + by rewrite lookup_alter_ne.
  - apply map_eq. intros h. rewrite !lookup_fmap, !map_lookup_filter.
    destruct (decide (id = h)) as [->|Hne].
    + rewrite lookup_alter_eq. destruct (document w !! h); [|done]. cbn.
      by rewrite !option_guard_False by (by intros []).
    + by rewrite lookup_alter_ne.
Qed.

Lemma renderRecordList_outside clock read id records isFavorites :
  id ∈ list_ids →
  preserves outside_lists (renderRecordList clock read id records isFavorites).
Proof.
  intros Hid.
  assert (Hset : ∀ markup, preserves outside_lists (set_innerHTML read id markup)).
  { intros markup w. unfold set_innerHTML, update_el. destruct (document w !! id); [|done].
    by apply outside_lists_written. }
  intros w. unfold renderRecordList.
  destruct (_ || _); [apply Hset|].
  destruct records; try done.
  rewrite run_bind. unfold lift at 1. destruct (record_cards clock elems); [|done].
  apply Hset.
Qed.

Lemma loadHistory_outside clock read o : preserves outside_lists (loadHistory clock read o).
Proof.
  assert (Hid : "history-list" ∈ list_ids) by compute_done.
  intros w. rewrite loadHistory_run. destruct (static_mode w).
  - by apply renderRecordList_outside.
  - lazy zeta. destruct (answered_records _ _); [|done].
    by rewrite renderRecordList_outside.
Qed.

Lemma loadFavorites_outside clock read o :
  preserves outside_lists (loadFavorites clock read o).
Proof.
  assert (Hid : "favorites-list" ∈ list_ids) by compute_done.
  intros w. rewrite loadFavorites_run. destruct (static_mode w).
  - destruct (JSON_parse _); [|done]. by apply renderRecordList_outside.
  - lazy zeta. destruct (answered_records _ _); [|done].
    by rewrite renderRecordList_outside.
Qed.

Lemma switchTab_run clock read o tabName w :
  ∃ w', switchTab clock read o tabName w = (Ok tt, w')
    ∧ outside_lists w'
      = outside_lists (set_document (map_imap (λ handle el, Some (tab_el tabName handle el))) w)
    ∧ (tabName ≠ "history" → tabName ≠ "favorites" →
       w' = set_document (map_imap (λ handle el, Some (tab_el tabName handle el))) w).
Proof.
  rewrite switchTab_loops. set (w1 := set_document _ w).
  destruct (String.eqb_spec tabName "history") as [->|Hh].
  - cbn [String.eqb Ascii.eqb Bool.eqb]. rewrite run_bind. unfold try_catch.
    pose proof (loadHistory_outside clock read o w1) as Hout.
    destruct (loadHistory clock read o w1) as [[[]|e] w2]; cbn [snd] in Hout;
      (exists w2; split; [reflexivity|]; split; [exact Hout|done]).
  - rewrite run_ret_bind.
    destruct (String.eqb_spec tabName "favorites") as [->|Hf].
    + unfold try_catch.
      pose proof (loadFavorites_outside clock read o w1) as Hout.
      destruct (loadFavorites clock read o w1) as [[[]|e] w2]; cbn [snd] in Hout;
        (exists w2; split; [reflexivity|]; split; [exact Hout|done]).
    + exists w1. by repeat split.
Qed.

Lemma outside_lists_classes w w' handle :
  outside_lists w' = outside_lists w →
  classList <$> document w' !! handle = classList <$> document w !! handle.
Proof.
  unfold outside_lists. intros [= Hdoc _ _ _ _].
  by rewrite <- !lookup_fmap, Hdoc.
Qed.

(** X21.  [switchTab(tabName)] never throws, even when the list it starts
    loading cannot be loaded.  Afterwards a tab button is active exactly
    when its [data-tab] is [tabName], a tab section exactly when its id
    is [tab-<tabName>]; the other classes, the objects, the current
    result and the stored data are as they were, and for a tab other than
    the history and the favorites, for which no list is loaded, no text
    changes and no request is sent. *)
Theorem switchTab_marks clock read o tabName w :
  ∃ w', switchTab clock read o tabName w = (Ok tt, w')
    ∧ (∀ handle el, document w !! handle = Some el →
         ∃ el', document w' !! handle = Some el'
           ∧ ("nav-tab" ∈ classList el → "tab-content" ∉ classList el →
              ("active" ∈ classList el' ↔ attrs el !! "data-tab" = Some tabName))
           ∧ ("tab-content" ∈ classList el →
              ("active" ∈ classList el' ↔ id_of handle = "tab-" +:+ tabName))
           ∧ (∀ c, c ≠ "active" → c ∈ classList el' ↔ c ∈ classList el)
           ∧ (tabName ≠ "history" → tabName ≠ "favorites" →
              textContent el' = textContent el))
    ∧ heap w' = heap w ∧ currentResult w' = currentResult w
    ∧ localStorage w' = localStorage w
    ∧ (tabName ≠ "history" → tabName ≠ "favorites" → log w' = log w).
Proof.
  destruct (switchTab_run clock read o tabName w) as (w' & Hrun & Hout & Hsame).
  exists w'. split; [exact Hrun|]. split.
  - intros handle el Hel.
    pose proof (outside_lists_classes _ _ handle Hout) as Hclass.
    cbn [document set_document] in Hclass.
    rewrite map_lookup_imap, Hel in Hclass. cbn in Hclass.
    destruct (document w' !! handle) as [el'|] eqn:Hel'; [|done].
    injection Hclass as Hclass. exists el'. split; [done|].
    destruct (tab_el_classes tabName handle el) as (Hnav & Htab & _ & Hother & Ht & _).
    rewrite Hclass.
    split; [exact Hnav|]. split; [exact Htab|]. split; [exact Hother|].
    intros Hh Hf.
    rewrite (Hsame Hh Hf) in Hel'. cbn [document set_document] in Hel'.
    rewrite map_lookup_imap, Hel in Hel'. cbn in Hel'. congruence.
  - unfold outside_lists in Hout. injection Hout as _ _ Hheap Hcur Hstore.
    repeat split; try done.
    intros Hh Hf. by rewrite (Hsame Hh Hf).
Qed.

Lemma switchTab_marks_witness :
  let w := set_document (λ d, <["tab-history" := mkElement "" ["tab-content"] "" false ∅]>
                                (<["tab-transcribe" :=
                                     mkElement "" ["tab-content"; "active"] "" false ∅]> d))
             (sample_world "" "" "chord_sheet" []) in
  ∃ w' a b, switchTab (λ _, Ok None) (λ _, "") offline.(fetch_outcome) "history" w
            = (Ok tt, w')
    ∧ document w' !! "tab-history" = Some a ∧ "active" ∈ classList a
    ∧ document w' !! "tab-transcribe" = Some b ∧ "active" ∉ classList b.
Proof.
  intros w.
  destruct (switchTab_marks (λ _, Ok None) (λ _, "") (fetch_outcome offline) "history" w)
    as (w' & Hrun & Hmarks & _).
  destruct (Hmarks "tab-history" (mkElement "" ["tab-content"] "" false ∅) eq_refl)
    as (a & Ha & _ & Hactive & _).
  destruct (Hmarks "tab-transcribe" (mkElement "" ["tab-content"; "active"] "" false ∅)
              eq_refl) as (b & Hb & _ & Hinactive & _).
  exists w', a, b. split; [exact Hrun|]. split; [exact Ha|].
  split; [apply Hactive; [compute_done|reflexivity]|].
  split; [exact Hb|]. intros Hin. apply Hinactive in Hin; [discriminate|compute_done].
Defined.

(** X22.  [viewRecord(record)], for a record whose fields convert to
    strings, displays the record, makes it the current result and brings
    the transcription tab to the front: the section [tab-transcribe] is
    the active one.  No request is sent and nothing is stored. *)
Theorem viewRecord_shows clock read o record v w :
  has_els w result_ids → heap w !! record = Some v → nullish v = false →
  displayable v = true →
  ∃ w', viewRecord clock read o record w = (Ok tt, w')
    ∧ currentResult w' = Some record ∧ heap w' = heap w
    ∧ text_of w' "sheet-content" = Some (DOMString_nullable (field v "content"))
    ∧ text_of w' "result-title"
      = Some (DOMString_nullable (js_or (field v "title") (VStr "未知歌曲")))
    ∧ (∀ handle el, document w' !! handle = Some el →
         "tab-content" ∈ classList el →
         ("active" ∈ classList el ↔ id_of handle = "tab-transcribe"))
    ∧ fetches w' = fetches w ∧ localStorage w' = localStorage w.
Proof.
  intros H Hv Hn Hd. unfold viewRecord.
  rewrite run_bind. unfold modify at 1. lazy beta iota.
  rewrite run_bind, (displayResult_run record v) by (first [done | solve_has]).
  lazy beta iota.
  set (w1 := add_effect _ _).
  destruct (switchTab_run clock read o "transcribe" w1) as (w' & Hrun & Hout & Hsame).
  specialize (Hsame ltac:(discriminate) ltac:(discriminate)).
  exists w'. split; [exact Hrun|]. subst w'.
  cbn [currentResult heap localStorage set_document].
  split; [done|]. split; [done|].
  assert (Htext : ∀ id, id ∈ ["result-title"; "sheet-content"] →
            text_of (set_document
                       (map_imap (λ handle el, Some (tab_el "transcribe" handle el))) w1) id
            = text_of w1 id).
  { intros id _. unfold text_of. cbn [document set_document].
    rewrite map_lookup_imap. destruct (document w1 !! id) as [el|]; [|done].
    cbn. f_equal. by destruct (tab_el_classes "transcribe" id el) as (_ & _ & _ & _ & ? & _). }
  assert (Hel : ∀ id, id ∈ result_ids → ∃ e, document w !! id = Some e).
  { intros id Hid. exact (proj1 (Forall_forall _ _) H id Hid). }
  destruct (Hel "sheet-content") as [e1 He1]; [compute_done|].
  destruct (Hel "result-title") as [e2 He2]; [compute_done|].
  split.
  { rewrite Htext by compute_done. unfold text_of, w1.
    cbn [document add_effect set_document set_currentResult].
    by erewrite display_dom_text; [|eassumption|compute_done]. }
  split.
  { rewrite Htext by compute_done. unfold text_of, w1.
    cbn [document add_effect set_document set_currentResult].
    by erewrite display_dom_text; [|eassumption|compute_done]. }
  split; [|split; [|done]].
  2:{ unfold fetches, w1. cbn [log add_effect set_document set_currentResult].
      rewrite filter_app, filter_cons_False, filter_nil by (cbn; congruence).
      apply app_nil_r. }
  intros handle el. cbn [document set_document]. rewrite map_lookup_imap.
  destruct (document w1 !! handle) as [el0|]; [|done]. cbn. intros [= <-] Htab.
  destruct (tab_el_classes "transcribe" handle el0) as (_ & Hactive & _ & Hother & _).
  apply Hactive. by apply Hother in Htab.
Qed.

Lemma viewRecord_shows_witness :
  ∃ w', viewRecord (λ _, Ok None) (λ _, "") offline.(fetch_outcome) 0
          (sample_world "" "" "chord_sheet" [sample_result]) = (Ok tt, w')
    ∧ currentResult w' = Some 0%nat
    ∧ text_of w' "result-title" = Some "Song".
Proof.
  destruct (viewRecord_shows (λ _, Ok None) (λ _, "") (fetch_outcome offline) 0
              sample_result (sample_world "" "" "chord_sheet" [sample_result]))
    as (w' & Hrun & Hcur & _ & _ & Htitle & _).
  - unfold has_els. compute_done.
  - reflexivity.
  - reflexivity.
  - reflexivity.
  - exists w'. split; [exact Hrun|]. split; [exact Hcur|exact Htitle].
Defined.

(** ** The advanced settings *)

Lemma elem_of_token_toggle c x l :
  x ∈ token_toggle c l ↔ (x = c ∧ c ∉ l) ∨ (x ≠ c ∧ x ∈ l).
Proof.
  unfold token_toggle. case_bool_decide as Hc.
  - rewrite elem_of_token_remove. intuition congruence.
  - rewrite elem_of_app, list_elem_of_singleton.
    destruct (decide (x = c)); intuition congruence.
Qed.

Lemma toggleAdvanced_run w :
  has_el w "advanced-settings" → has_el w "advanced-arrow" →
  toggleAdvanced w
  = (Ok tt,
     set_document (alter (set_classList_el (token_toggle "rotated")) "advanced-arrow")
       (set_document (alter (set_classList_el (token_toggle "hidden")) "advanced-settings")
          w)).
Proof.
  intros Hs Ha. unfold toggleAdvanced.
  rewrite run_bind, update_el_run by done. lazy beta iota.
  by rewrite update_el_run by solve_has.
Qed.

(** X23.  [toggleAdvanced()] shows the advanced settings when they are
    hidden and hides them when they are shown, and turns the arrow
    likewise; a second call brings every element back to the classes it
    had. *)
Theorem toggleAdvanced_twice w :
  has_el w "advanced-settings" → has_el w "advanced-arrow" →
  ∃ w1 w2, toggleAdvanced w = (Ok tt, w1) ∧ toggleAdvanced w1 = (Ok tt, w2)
    ∧ hidden w1 "advanced-settings" = negb <$> hidden w "advanced-settings"
    ∧ hidden w2 "advanced-settings" = hidden w "advanced-settings"
    ∧ (∀ id el, document w !! id = Some el →
         ∃ el2, document w2 !! id = Some el2
           ∧ (∀ c, c ∈ classList el2 ↔ c ∈ classList el)
           ∧ textContent el2 = textContent el ∧ attrs el2 = attrs el).
Proof.
  intros Hs Ha.
  eexists _, _. split; [by apply toggleAdvanced_run|].
  split; [apply toggleAdvanced_run; solve_has|].
  destruct Hs as [s Hs], Ha as [a Ha].
  unfold hidden. cbn [document set_document].
  assert (Htwice : ∀ c x l, x ∈ token_toggle c (token_toggle c l) ↔ x ∈ l).
  { intros c x l. rewrite !elem_of_token_toggle.
    destruct (decide (x = c)), (decide (c ∈ l)); subst; intuition congruence. }
  split; [|split].
  - rewrite lookup_alter_ne, lookup_alter_eq, Hs by done. cbn. f_equal.
    destruct (decide ("hidden" ∈ classList s)) as [Hin|Hin].
    + rewrite (bool_decide_eq_true_2 _ Hin). cbn. apply bool_decide_eq_false_2.
      rewrite elem_of_token_toggle. intuition congruence.
    + rewrite (bool_decide_eq_false_2 _ Hin). cbn. apply bool_decide_eq_true_2.
      rewrite elem_of_token_toggle. by left.
  - rewrite lookup_alter_ne, lookup_alter_eq, lookup_alter_ne, lookup_alter_eq, Hs by done.
    cbn. f_equal. apply bool_decide_ext, Htwice.
  - intros id el Hel.
    destruct (decide (id = "advanced-settings")) as [->|Hns].
    + rewrite lookup_alter_ne, lookup_alter_eq, lookup_alter_ne, lookup_alter_eq, Hel by done.
      eexists. split; [reflexivity|]. cbn. split; [intros c; apply Htwice|done].
    + destruct (decide (id = "advanced-arrow")) as [->|Hna].
      * rewrite lookup_alter_eq, lookup_alter_ne, lookup_alter_eq, lookup_alter_ne, Hel
          by done.
        eexists. split; [reflexivity|]. cbn. split; [intros c; apply Htwice|done].
      * rewrite !lookup_alter_ne, Hel by done. by eexists.
Qed.

Lemma toggleAdvanced_twice_witness :
  let w := set_document (λ d, <["advanced-settings" := mkElement "" ["hidden"] "" false ∅]>
                                (<["advanced-arrow" := blank]> d))
             (sample_world "" "" "chord_sheet" []) in
  ∃ w1, toggleAdvanced w = (Ok tt, w1) ∧ hidden w1 "advanced-settings" = Some false.
Proof.
  intros w.
  destruct (toggleAdvanced_twice w) as (w1 & w2 & Hrun & _ & Hshown & _).
  - unfold has_el. compute_done.
  - unfold has_el. compute_done.
  - exists w1. split; [exact Hrun|]. by rewrite Hshown.
Defined.
